(** * clinicsay-migrations: a shallow embedding of the migration engine

    The development follows the layout of the repository:
    - [Js]          the JavaScript values the services exchange;
    - [Validators]  [utils/validators.js];
    - [Database]    [config/database.js] over a model of the MySQL pool;
    - [BatchService] [services/batch.service.js];
    - [ApiClient]   [utils/api-client.js];
    - [AiMapper]    [services/ai-mapper.service.js];
    - [Citas]       the page handler of [migrations/koibox/citas.js];
    - [AuthMiddleware] [middlewares/auth.middleware.js];
    - [CitasTransform] the transformation of a page in
                    [migrations/koibox/citas.js];
    - [ErrorMiddleware] [middlewares/error.middleware.js];
    - [AnyRecord]   [utils/validators.js] on records of any member names.

    Definitions come first, the properties proved about them afterwards. *)

From stdpp Require Import base list strings gmap pretty sorting.
From Stdlib Require Import ZArith Lia Ascii.

Set Warnings "-register-all".

(* ===================================================================== *)
(** * JavaScript values, errors and effects *)
(* ===================================================================== *)

Module Js.

(** Values as the services see them: JSON data plus [undefined].  Numbers are
    the integer identifiers and counters the migration handles.  The fields of
    an object are kept in property-enumeration order; a well-formed object has
    no repeated key. *)
Inductive value : Type :=
| VUndef
| VNull
| VBool (b : bool)
| VNum (z : Z)
| VStr (s : string)
| VArr (items : list value)
| VObj (fields : list (string * value)).

Abbreviation object := (list (string * value)).

Definition is_undefined (v : value) : bool :=
  match v with VUndef => true | _ => false end.

Definition is_null (v : value) : bool :=
  match v with VNull => true | _ => false end.

Definition is_empty_string (v : value) : bool :=
  match v with VStr EmptyString => true | _ => false end.

(** [Boolean(v)]. *)
Definition truthy (v : value) : bool :=
  match v with
  | VUndef | VNull => false
  | VBool b => b
  | VNum z => negb (Z.eqb z 0)
  | VStr s => negb (String.eqb s EmptyString)
  | VArr _ | VObj _ => true
  end.

(** [typeof v === "object"] *)
Definition typeof_object (v : value) : bool :=
  match v with VNull | VArr _ | VObj _ => true | _ => false end.

(** [Array.isArray(v)] *)
Definition isArray (v : value) : bool :=
  match v with VArr _ => true | _ => false end.

(** Own property lookup; [None] when the object has no such property. *)
Fixpoint lookup_field (key : string) (fields : object) : option value :=
  match fields with
  | [] => None
  | (k, v) :: rest => if String.eqb k key then Some v else lookup_field key rest
  end.

(** [obj[key]] on an object: a missing property reads as [undefined]. *)
Definition prop (key : string) (fields : object) : value :=
  default VUndef (lookup_field key fields).

(** [obj[key] = v] for an ordinary data property: overwrite in place, or
    append a new property at the end. *)
Fixpoint assign (key : string) (v : value) (fields : object) : object :=
  match fields with
  | [] => [(key, v)]
  | (k, x) :: rest =>
      if String.eqb k key then (k, v) :: rest else (k, x) :: assign key v rest
  end.

(** [Object.keys(obj)] *)
Definition keys (fields : object) : list string := map fst fields.

(** The double quote character. *)
Definition dquote : string := String (Ascii.ascii_of_nat 34) EmptyString.

(** [String(v)], as used for property keys and by the default sort order. *)
Fixpoint toString (v : value) : string :=
  match v with
  | VUndef => "undefined"
  | VNull => "null"
  | VBool true => "true"
  | VBool false => "false"
  | VNum z => pretty z
  | VStr s => s
  | VArr items =>
      String.concat ","
        (map (fun x => match x with
                       | VUndef | VNull => EmptyString
                       | _ => toString x
                       end) items)
  | VObj _ => "[object Object]"
  end.

Definition hex_digit (n : nat) : string :=
  String (Ascii.ascii_of_nat (if n <? 10 then 48 + n else 87 + n)) EmptyString.

(** The escapes [JSON.stringify] applies inside a string literal. *)
Definition escape_char (c : Ascii.ascii) : string :=
  let n := Ascii.nat_of_ascii c in
  if n =? 34 then "\" +:+ dquote
  else if n =? 92 then "\\"
  else if n =? 8 then "\b"
  else if n =? 9 then "\t"
  else if n =? 10 then "\n"
  else if n =? 12 then "\f"
  else if n =? 13 then "\r"
  else if n <? 32 then "\u00" +:+ hex_digit (n / 16) +:+ hex_digit (n mod 16)
  else String c EmptyString.

Fixpoint escape (s : string) : string :=
  match s with
  | EmptyString => EmptyString
  | String c rest => escape_char c +:+ escape rest
  end.

Definition quote (s : string) : string := dquote +:+ escape s +:+ dquote.

(** [JSON.stringify(v)] without indentation.  [undefined] prints as [null]
    where it is an array element and is left out where it is the value of an
    object member. *)
Fixpoint JSON_stringify (v : value) : string :=
  match v with
  | VUndef | VNull => "null"
  | VBool true => "true"
  | VBool false => "false"
  | VNum z => pretty z
  | VStr s => quote s
  | VArr items => "[" +:+ String.concat "," (map JSON_stringify items) +:+ "]"
  | VObj fields =>
      "{" +:+ String.concat ","
                (flat_map (fun kv => match kv with
                                     | (_, VUndef) => []
                                     | (k, x) => [quote k +:+ ":" +:+ JSON_stringify x]
                                     end) fields)
          +:+ "}"
  end.

(** The order of [Array.prototype.sort()] without a comparator: [undefined]
    goes last, everything else is compared through [String(v)]. *)
Definition sort_le (a b : value) : bool :=
  match a, b with
  | VUndef, VUndef => true
  | VUndef, _ => false
  | _, VUndef => true
  | _, _ => String.leb (toString a) (toString b)
  end.

Fixpoint sort_insert (x : value) (sorted : list value) : list value :=
  match sorted with
  | [] => [x]
  | y :: rest => if sort_le x y then x :: y :: rest else y :: sort_insert x rest
  end.

(** [items.sort()]: a stable sort. *)
Definition sort (items : list value) : list value :=
  foldr sort_insert [] items.

(** [array.slice(start, end)] for [0 <= start]. *)
Definition slice {A} (start stop : nat) (array : list A) : list A :=
  take (stop - start) (drop start array).

(** An [Error] object: its message, and the [code], [response.status] and
    [response.data] the drivers attach ([undefined] when absent). *)
Record error := Error {
  message : string;
  code : value;
  response_status : value;
  response_data : value
}.

Definition new_Error (msg : string) : error := Error msg VUndef VUndef VUndef.

(** How a call ends: it returns a value or throws. *)
Inductive outcome (A : Type) : Type :=
| Returned (a : A)
| Thrown (e : error).
Arguments Returned {A} a.
Arguments Thrown {A} e.

(** Effectful code over a state [S]: every call ends in an outcome and a
    state. *)
Definition M (S A : Type) : Type := S -> outcome A * S.

Definition ret {S A} (a : A) : M S A := fun s => (Returned a, s).

Definition throw {S A} (e : error) : M S A := fun s => (Thrown e, s).

Definition bind {S A B} (m : M S A) (k : A -> M S B) : M S B :=
  fun s => match m s with
           | (Returned a, s') => k a s'
           | (Thrown e, s') => (Thrown e, s')
           end.

(** [try { body } catch (error) { handler }] *)
Definition try_catch {S A} (body : M S A) (handler : error -> M S A) : M S A :=
  fun s => match body s with
           | (Returned a, s') => (Returned a, s')
           | (Thrown e, s') => handler e s'
           end.

(** [try { body } finally { cleanup }]: the cleanup runs on every exit; when
    it throws, its error replaces the outcome of the body. *)
Definition try_finally {S A} (body : M S A) (cleanup : M S unit) : M S A :=
  fun s => match body s with
           | (r, s') => match cleanup s' with
                        | (Returned _, s'') => (r, s'')
                        | (Thrown e, s'') => (Thrown e, s'')
                        end
           end.

Definition modify {S} (f : S -> S) : M S unit := fun s => (Returned tt, f s).

Definition gets {S A} (f : S -> A) : M S A := fun s => (Returned (f s), s).

(** Reading a member of an arbitrary value, [v.key]: a [TypeError] on
    [null] and [undefined], [undefined] on the primitives and arrays (whose
    members are not data fields). *)
Definition member {S} (v : value) (key : string) : M S value :=
  match v with
  | VUndef | VNull =>
      throw (new_Error ("Cannot read properties of " +:+ toString v
                        +:+ " (reading '" +:+ key +:+ "')"))
  | VObj fields => ret (prop key fields)
  | _ => ret VUndef
  end.

End Js.

Import Js.

Declare Scope js_scope.
Delimit Scope js_scope with js.
Notation "x <- m ; k" := (bind m (fun x => k))
  (at level 20, m at level 100, k at level 200, only parsing) : js_scope.
Open Scope js_scope.

(* ===================================================================== *)
(** * The world the services act on *)
(* ===================================================================== *)

(** What the code writes with [console.warn] and [console.error]
    (informational [console.log] lines are not kept). *)
Inductive log_line : Type :=
| WarnUndefinedFields (context : string) (fields : list string)
| WarnMissingRequired (index : nat) (fields : list string)
| ErrDatabaseConnection (e : error)
| ErrTransaction (e : error)
| ErrBatchFailed (batch : nat) (msg : string)
| WarnBatchesFailed (failed : nat)
| WarnPageSkipped (page totalPages : nat)
| ErrPaginated (msg : string)
| ErrMappingReported (entityType : string) (msg : value)
| ErrMappingFailed (entityType : string) (msg : string).

(** The calls that leave the process, in the order they are issued. *)
Inductive io_event : Type :=
| CallGetConnection
| CallBeginTransaction
| CallExecute (table : string) (rows : nat)
| CallCommit
| CallRollback
| CallRelease
| HttpGet (endpoint : string) (offset : nat)
| CallProcessFn (page size totalPages : nat)
| CallOnBatchComplete (batch totalBatches : nat).

(** The faults the store raises during one transaction: acquiring the
    connection, beginning, executing (after [n] rows were written), committing
    and rolling back. *)
Record faults := Faults {
  fail_acquire : option error;
  fail_begin : option error;
  fail_execute : option (nat * error);
  fail_commit : option error;
  fail_rollback : option error
}.

Definition no_faults : faults := Faults None None None None None.

(** The MySQL store behind the pool, the console and the trace of calls.
    [committed] holds the durable rows with their table, [pending] the rows
    written by the open transaction, [leased] the connections checked out of
    the pool, [script] the faults of the transactions to come (one entry per
    connection request, none when it runs out) and [current] those of the
    transaction under way. *)
Record world := World {
  committed : list (string * object);
  pending : list (string * object);
  leased : nat;
  script : list faults;
  current : faults;
  console : list log_line;
  trace : list io_event
}.

Definition log (line : log_line) : M world unit :=
  modify (fun w => World (committed w) (pending w) (leased w) (script w)
                         (current w) (console w ++ [line]) (trace w)).

Definition log_all (lines : list log_line) : M world unit :=
  modify (fun w => World (committed w) (pending w) (leased w) (script w)
                         (current w) (console w ++ lines) (trace w)).

Definition emit (ev : io_event) : M world unit :=
  modify (fun w => World (committed w) (pending w) (leased w) (script w)
                         (current w) (console w) (trace w ++ [ev])).

Definition set_pending (rows : list (string * object)) (w : world) : world :=
  World (committed w) rows (leased w) (script w) (current w) (console w) (trace w).

Definition set_leased (n : nat) (w : world) : world :=
  World (committed w) (pending w) n (script w) (current w) (console w) (trace w).

Definition next_transaction (w : world) : world :=
  World (committed w) (pending w) (leased w) (tail (script w))
        (hd no_faults (script w)) (console w) (trace w).

Definition commit_pending (w : world) : world :=
  World (committed w ++ pending w) [] (leased w) (script w) (current w)
        (console w) (trace w).

(** Code that only writes to the console, run in the world. *)
Definition with_console {A} (p : A * list log_line) : M world A :=
  _ <- log_all (snd p); ret (fst p).

(* ===================================================================== *)
(** * utils/validators.js *)
(* ===================================================================== *)

Module Validators.

(** [convertUndefinedToNull(obj)]: a fresh object filled key by key.  This
    module reads the three functions on records none of whose members is
    named [__proto__] or [hasOwnProperty], as the migrations build them;
    [AnyRecord] below follows them on every record. *)
Definition convertUndefinedToNull (obj : object) : object :=
  fold_left
    (fun result key =>
       assign key (if is_undefined (prop key obj) then VNull else prop key obj)
              result)
    (keys obj) [].

(** [findUndefinedFields(obj, context)]: the fields found, and the warning
    when there is one. *)
Definition findUndefinedFields (obj : object) (context : string)
  : list string * list log_line :=
  let undefinedFields :=
    List.filter (fun key => is_undefined (prop key obj)) (keys obj) in
  (undefinedFields,
   if 0 <? length undefinedFields
   then [WarnUndefinedFields context undefinedFields] else []).

(** The body of the [records.map] callback of [sanitizeRecords]. *)
Definition sanitizeRecord (requiredFields : list string) (index : nat)
    (record : object) : object * list log_line :=
  let '(undefinedFields, warned) :=
    findUndefinedFields record ("record " +:+ pretty index) in
  let sanitized := convertUndefinedToNull record in
  let reported :=
    if 0 <? length requiredFields then
      let missingFields :=
        List.filter (fun field => is_null (prop field sanitized)
                                  || is_empty_string (prop field sanitized))
                    requiredFields in
      if 0 <? length missingFields
      then [WarnMissingRequired index missingFields] else []
    else [] in
  (sanitized, warned ++ reported).

(** [sanitizeRecords(records, requiredFields)] with what it prints. *)
Definition sanitizeRecords (records : list object) (requiredFields : list string)
  : list object * list log_line :=
  let sanitized := imap (sanitizeRecord requiredFields) records in
  (map fst sanitized, concat (map snd sanitized)).

End Validators.

(* ===================================================================== *)
(** * config/database.js *)
(* ===================================================================== *)

Module Database.

(** The handle [pool.getConnection()] resolves to.  The pipeline holds one
    connection at a time, so its transaction state lives in the world. *)
Inductive connection : Type := Connection.

(** The multi-row [INSERT INTO table (columns) VALUES (?, ..), ..] in
    structural form: the table, the column list and the number of
    placeholder groups. *)
Record statement := Insert {
  into : string;
  columns : list string;
  groups : nat
}.

(** The rows a statement stands for once its placeholders are bound, group
    after group, to the flat list of values. *)
Definition bound_rows (stmt : statement) (values : list value)
  : list (string * object) :=
  let width := length (columns stmt) in
  map (fun i => (into stmt,
                 zip (columns stmt) (slice (i * width) (i * width + width) values)))
      (seq 0 (groups stmt)).

(** The driver's [pool.getConnection()]. *)
Definition pool_getConnection : M world connection :=
  _ <- emit CallGetConnection;
  _ <- modify next_transaction;
  plan <- gets current;
  match fail_acquire plan with
  | Some e => throw e
  | None => _ <- modify (fun w => set_leased (S (leased w)) w); ret Connection
  end.

(** The driver's [connection.beginTransaction()]. *)
Definition beginTransaction (c : connection) : M world unit :=
  _ <- emit CallBeginTransaction;
  plan <- gets current;
  match fail_begin plan with
  | Some e => throw e
  | None => modify (set_pending [])
  end.

(** The driver's [connection.execute(sql, values)] inside the transaction.
    The driver refuses [undefined] parameters; a store fault may strike after
    some of the rows were written. *)
Definition execute (c : connection) (stmt : statement) (values : list value)
  : M world unit :=
  _ <- emit (CallExecute (into stmt) (groups stmt));
  if existsb is_undefined values then
    throw (new_Error "Bind parameters must not contain undefined. To pass SQL NULL specify JS null")
  else
    plan <- gets current;
    match fail_execute plan with
    | Some (written, e) =>
        _ <- modify (fun w => set_pending
                                (pending w ++ take written (bound_rows stmt values)) w);
        throw e
    | None =>
        modify (fun w => set_pending (pending w ++ bound_rows stmt values) w)
    end.

(** The driver's [connection.commit()]: the pending rows become durable. *)
Definition commit (c : connection) : M world unit :=
  _ <- emit CallCommit;
  plan <- gets current;
  match fail_commit plan with
  | Some e => throw e
  | None => modify commit_pending
  end.

(** The driver's [connection.rollback()]: the pending rows are discarded;
    a rollback that reports a fault is a lost connection, whose uncommitted
    rows the server discards as well. *)
Definition rollback (c : connection) : M world unit :=
  _ <- emit CallRollback;
  _ <- modify (set_pending []);
  plan <- gets current;
  match fail_rollback plan with
  | Some e => throw e
  | None => ret tt
  end.

(** The driver's [connection.release()]. *)
Definition release (c : connection) : M world unit :=
  _ <- emit CallRelease;
  modify (fun w => set_leased (pred (leased w)) w).

(** [getConnection()] *)
Definition getConnection : M world connection :=
  try_catch pool_getConnection
    (fun error => _ <- log (ErrDatabaseConnection error); throw error).

(** [transaction(callback)] *)
Definition transaction {A} (callback : connection -> M world A) : M world A :=
  connection <- getConnection;
  try_finally
    (try_catch
       (_ <- beginTransaction connection;
        result <- callback connection;
        _ <- commit connection;
        ret result)
       (fun error =>
          _ <- rollback connection;
          _ <- log (ErrTransaction error);
          throw error))
    (release connection).

End Database.

(* ===================================================================== *)
(** * services/batch.service.js *)
(* ===================================================================== *)

Module BatchService.
Import Validators Database.

(** What [insertBatch] resolves to; the members a branch does not set are
    [None] (or [undefined] for [code]). *)
Record batch_result := BatchResult {
  success : bool;
  inserted : nat;
  batch : option nat;
  note : option string;
  failure : option string;
  failure_code : value
}.

(** One entry of [stats.errors]. *)
Record batch_error := BatchError {
  error_batch : nat;
  error_offset : nat;
  error_text : option string;
  error_code : value
}.

(** The statistics [processBatches] returns. *)
Record batch_stats := Stats {
  totalRecords : nat;
  totalBatches : nat;
  successfulBatches : nat;
  failedBatches : nat;
  insertedRecords : nat;
  errors : list batch_error
}.

(** [Math.ceil(n / k)] for a positive integer [k].  (At [k = 0] the source
    has [Infinity], or [NaN], and its loops do not end; the statements below
    take [k] positive.) *)
Definition ceil_div (n k : nat) : nat := (n + k - 1) / k.

(** [insertBatch(tableName, records, batchNumber)] *)
Definition insertBatch (tableName : string) (records : list object)
    (batchNumber : nat) : M world batch_result :=
  if length records =? 0 then
    ret (BatchResult true 0 None (Some "No records to insert") None VUndef)
  else
    try_catch
      (sanitizedRecords <- with_console (sanitizeRecords records []);
       let columns := keys (hd [] sanitizedRecords) in
       let placeholders := length sanitizedRecords in
       let values :=
         flat_map (fun record => map (fun col => prop col record) columns)
                  sanitizedRecords in
       let query := Insert tableName columns placeholders in
       _ <- transaction (fun connection => execute connection query values);
       ret (BatchResult true (length sanitizedRecords) (Some batchNumber)
                        None None VUndef))
      (fun error =>
         _ <- log (ErrBatchFailed batchNumber (message error));
         ret (BatchResult false 0 (Some batchNumber) None
                          (Some (message error)) (code error))).

(** The update of [stats] after one batch. *)
Definition record_result (stats : batch_stats) (i start : nat) (result : batch_result)
  : batch_stats :=
  if success result then
    Stats (totalRecords stats) (totalBatches stats)
          (S (successfulBatches stats)) (failedBatches stats)
          (insertedRecords stats + inserted result) (errors stats)
  else
    Stats (totalRecords stats) (totalBatches stats)
          (successfulBatches stats) (S (failedBatches stats))
          (insertedRecords stats)
          (errors stats ++ [BatchError (i + 1) start (failure result)
                                       (failure_code result)]).

(** The caller's [onBatchComplete]: it is handed the result, the batch number
    and the batch count, and returns or throws. *)
Definition batch_callback : Type := batch_result -> nat -> nat -> outcome unit.

Definition call_onBatchComplete (onBatchComplete : option batch_callback)
    (result : batch_result) (number totalBatches : nat) : M world unit :=
  match onBatchComplete with
  | Some callback =>
      _ <- emit (CallOnBatchComplete number totalBatches);
      fun w => (callback result number totalBatches, w)
  | None => ret tt
  end.

(** The [for (let i = 0; i < totalBatches; i++)] loop of [processBatches],
    with [remaining = totalBatches - i] iterations to go. *)
Fixpoint batches_loop (tableName : string) (allRecords : list object)
    (batchSize totalRecords totalBatches : nat)
    (onBatchComplete : option batch_callback)
    (remaining i : nat) (stats : batch_stats) : M world batch_stats :=
  match remaining with
  | 0 => ret stats
  | S remaining' =>
      let start := i * batchSize in
      let stop := Nat.min (start + batchSize) totalRecords in
      let batch := slice start stop allRecords in
      result <- insertBatch tableName batch (i + 1);
      let stats := record_result stats i start result in
      _ <- call_onBatchComplete onBatchComplete result (i + 1) totalBatches;
      batches_loop tableName allRecords batchSize totalRecords totalBatches
                   onBatchComplete remaining' (S i) stats
  end.

(** [processBatches(tableName, allRecords, batchSize, onBatchComplete)] for a
    positive integer [batchSize]. *)
Definition processBatches (tableName : string) (allRecords : list object)
    (batchSize : nat) (onBatchComplete : option batch_callback)
  : M world batch_stats :=
  let totalRecords := length allRecords in
  let totalBatches := ceil_div totalRecords batchSize in
  let stats := Stats totalRecords totalBatches 0 0 0 [] in
  stats <- batches_loop tableName allRecords batchSize totalRecords totalBatches
                        onBatchComplete totalBatches 0 stats;
  _ <- (if 0 <? failedBatches stats
        then log (WarnBatchesFailed (failedBatches stats)) else ret tt);
  ret stats.

(** The [for (let i = 0; i < array.length; i += size)] loop of [chunkArray];
    [fuel] bounds the iterations. *)
Fixpoint chunk_loop {A} (fuel i size : nat) (array : list A) : list (list A) :=
  match fuel with
  | 0 => []
  | S fuel' =>
      if i <? length array
      then slice i (i + size) array :: chunk_loop fuel' (i + size) size array
      else []
  end.

(** [chunkArray(array, size)] for a positive integer [size]: one iteration
    per element is always enough. *)
Definition chunkArray {A} (array : list A) (size : nat) : list (list A) :=
  chunk_loop (length array) 0 size array.

End BatchService.

(* ===================================================================== *)
(** * utils/api-client.js *)
(* ===================================================================== *)

Module ApiClient.
Import BatchService.

(** The body of a paginated answer of the source API: the total it reports
    and the records of the page. *)
Record page := Page {
  count : nat;
  results : list value
}.

(** The configured HTTP client: what a [GET] of an endpoint at an offset
    resolves to (the body and the status) or rejects with. *)
Definition http_client : Type := string -> nat -> outcome (page * nat).

(** What [get] resolves to: [{success: true, data, status}] or
    [{success: false, error, status, data}]. *)
Inductive get_result : Type :=
| GetOk (data : page) (status : nat)
| GetFailed (error : string) (status : value) (data : value).

(** [get(client, endpoint, {offset})]: the query carries the offset alone
    (the page size is never sent), under the name [offset] or the
    [offsetParam] of the caller. *)
Definition get (client : http_client) (endpoint : string) (offset : nat)
  : M world get_result :=
  _ <- emit (HttpGet endpoint offset);
  match client endpoint offset with
  | Returned (data, status) => ret (GetOk data status)
  | Thrown error =>
      ret (GetFailed (message error) (response_status error) (response_data error))
  end.

(** What [getAllPaginated] resolves to. *)
Record paginated := Paginated {
  fetched : bool;
  fetch_error : option string;
  data : list value;
  totalCount : option nat;
  fetchedCount : option nat
}.

(** The [for (let page = 1; page < totalPages; page++)] loop of
    [getAllPaginated], with [remaining = totalPages - page] iterations to
    go. *)
Fixpoint fetch_loop (client : http_client) (endpoint : string) (limit totalPages : nat)
    (remaining page : nat) (allResults : list value) : M world (list value) :=
  match remaining with
  | 0 => ret allResults
  | S remaining' =>
      let offset := page * limit in
      response <- get client endpoint offset;
      match response with
      | GetFailed _ _ _ =>
          _ <- log (WarnPageSkipped (page + 1) totalPages);
          fetch_loop client endpoint limit totalPages remaining' (S page) allResults
      | GetOk data _ =>
          fetch_loop client endpoint limit totalPages remaining' (S page)
                     (allResults ++ results data)
      end
  end.

(** [getAllPaginated(client, endpoint, limit)] for a positive integer
    [limit]. *)
Definition getAllPaginated (client : http_client) (endpoint : string) (limit : nat)
  : M world paginated :=
  try_catch
    (firstResponse <- get client endpoint 0;
     match firstResponse with
     | GetFailed error _ _ => ret (Paginated false (Some error) [] None None)
     | GetOk first _ =>
         let totalCount := count first in
         let totalPages := ceil_div totalCount limit in
         allResults <- fetch_loop client endpoint limit totalPages
                                  (totalPages - 1) 1 (results first);
         ret (Paginated true None allResults (Some totalCount)
                        (Some (length allResults)))
     end)
    (fun error =>
       _ <- log (ErrPaginated (message error));
       ret (Paginated false (Some (message error)) [] None None)).

(** What [processPaginatedInBatches] resolves to. *)
Record processed := Processed {
  completed : bool;
  process_error : option string;
  totalPages : option nat;
  totalRecords : option nat
}.

(** The caller's [processFn(records, page, totalPages)]. *)
Definition page_callback : Type := list value -> nat -> nat -> M world unit.

(** The [for (let page = 1; page < totalPages; page++)] loop of
    [processPaginatedInBatches]. *)
Fixpoint process_loop (client : http_client) (endpoint : string)
    (processFn : page_callback) (limit totalPages : nat)
    (remaining page : nat) : M world unit :=
  match remaining with
  | 0 => ret tt
  | S remaining' =>
      let offset := page * limit in
      response <- get client endpoint offset;
      match response with
      | GetFailed _ _ _ =>
          _ <- log (WarnPageSkipped (page + 1) totalPages);
          process_loop client endpoint processFn limit totalPages remaining' (S page)
      | GetOk data _ =>
          _ <- processFn (results data) page totalPages;
          process_loop client endpoint processFn limit totalPages remaining' (S page)
      end
  end.

(** [processPaginatedInBatches(client, endpoint, processFn, limit)] for a
    positive integer [limit]. *)
Definition processPaginatedInBatches (client : http_client) (endpoint : string)
    (processFn : page_callback) (limit : nat) : M world processed :=
  try_catch
    (firstResponse <- get client endpoint 0;
     match firstResponse with
     | GetFailed error _ _ => ret (Processed false (Some error) None None)
     | GetOk first _ =>
         let totalCount := count first in
         let totalPages := ceil_div totalCount limit in
         _ <- processFn (results first) 0 totalPages;
         _ <- process_loop client endpoint processFn limit totalPages
                           (totalPages - 1) 1;
         ret (Processed true None (Some totalPages) (Some totalCount))
     end)
    (fun error =>
       _ <- log (ErrPaginated (message error));
       ret (Processed false (Some (message error)) None None)).

End ApiClient.

(* ===================================================================== *)
(** * services/ai-mapper.service.js *)
(* ===================================================================== *)

Module AiMapper.

(** The [options] of [mapData]. *)
Record options := Options {
  allowManyToOne : bool;
  requireCompleteMapping : bool;
  relatedMappings : value
}.

Definition default_options : options := Options false false VNull.

(** The reconciliation oracle: what the chat completion yields for a request,
    once the code fence is stripped and the text went through [JSON.parse] (a
    parsed JSON value), or the error any of these steps throws.  The first
    argument counts the requests made before, so that the answer may change
    from one request to the next. *)
Definition oracle : Type :=
  nat -> string -> list value -> list value -> options -> outcome value.

(** The module state: the [mapperCache] map, the number of requests sent to
    the oracle and the console. *)
Record mapper_state := MapperState {
  mapperCache : gmap string value;
  oracle_calls : nat;
  mapper_console : list log_line
}.

Definition mapper_log (line : log_line) : M mapper_state unit :=
  modify (fun s => MapperState (mapperCache s) (oracle_calls s)
                               (mapper_console s ++ [line])).

(** [mapperCache.set(key, result)] *)
Definition cache_set (key : string) (result : value) : M mapper_state unit :=
  modify (fun s => MapperState (<[key := result]> (mapperCache s))
                               (oracle_calls s) (mapper_console s)).

(** [items.map(f)] for a callback that may throw. *)
Fixpoint map_M {S A B} (f : A -> M S B) (items : list A) : M S (list B) :=
  match items with
  | [] => ret []
  | x :: rest => y <- f x; ys <- map_M f rest; ret (y :: ys)
  end.

(** [Object.values(item)[0]] *)
Definition first_value {S} (item : value) : M S value :=
  match item with
  | VUndef | VNull =>
      throw (new_Error "Cannot convert undefined or null to object")
  | VObj fields => ret (hd VUndef (map snd fields))
  | VArr items => ret (hd VUndef items)
  | VStr (String c _) => ret (VStr (String c EmptyString))
  | _ => ret VUndef
  end.

(** [generateCacheKey(entityType, apiResult, dbResult)] *)
Definition generateCacheKey {S} (entityType : string)
    (apiResult dbResult : list value) : M S string :=
  ids <- map_M (fun item => member item "id") apiResult;
  let apiHash := JSON_stringify (VArr (sort ids)) in
  firsts <- map_M first_value dbResult;
  let dbHash := JSON_stringify (VArr (sort firsts)) in
  ret (entityType +:+ "_" +:+ apiHash +:+ "_" +:+ dbHash).

(** The request to the oracle: [openai.chat.completions.create], the fence
    stripping and [JSON.parse]. *)
Definition ask (ai : oracle) (entityType : string)
    (apiResult dbResult : list value) (options : options)
  : M mapper_state value :=
  fun s =>
    (ai (oracle_calls s) entityType apiResult dbResult options,
     MapperState (mapperCache s) (S (oracle_calls s)) (mapper_console s)).

(** The structured error of the [catch] branch. *)
Definition mapping_error (error : error) : value :=
  VObj [("error", VStr "AI_MAPPING_ERROR");
        ("message", VStr (message error));
        ("details", if truthy (response_data error) then response_data error
                    else VObj [("message", VStr (message error))])].

(** [mapData(entityType, apiResult, dbResult, options)] *)
Definition mapData (ai : oracle) (entityType : string)
    (apiResult dbResult : list value) (options : options)
  : M mapper_state value :=
  try_catch
    (cacheKey <- generateCacheKey entityType apiResult dbResult;
     cache <- gets mapperCache;
     match cache !! cacheKey with
     | Some cached => ret cached
     | None =>
         result <- ask ai entityType apiResult dbResult options;
         reported <- member result "error";
         if truthy reported then
           msg <- member result "message";
           _ <- mapper_log (ErrMappingReported entityType msg);
           ret result
         else
           mapper <- member result "mapper";
           if negb (truthy mapper) || negb (typeof_object mapper) then
             throw (new_Error "Invalid mapper structure in AI response")
           else
             missing <- member result "missing";
             if negb (isArray missing) then
               throw (new_Error "Invalid missing structure in AI response")
             else
               _ <- cache_set cacheKey result;
               ret result
     end)
    (fun error =>
       _ <- mapper_log (ErrMappingFailed entityType (message error));
       ret (mapping_error error)).

(** [clearCache(entityType)]: with a truthy [entityType] every key that
    starts with [entityType + "_"] is deleted, otherwise the whole map is
    cleared.  The console line of either branch is not recorded. *)
Definition clearCache (entityType : value) : M mapper_state unit :=
  if truthy entityType then
    modify (fun s =>
      MapperState
        (filter (fun entry : string * value =>
                   String.prefix (toString entityType +:+ "_") (fst entry) = false)
                (mapperCache s))
        (oracle_calls s) (mapper_console s))
  else
    modify (fun s => MapperState ∅ (oracle_calls s) (mapper_console s)).

(** What [getCacheStats()] returns.  The source lists the keys in the order
    they were cached; here they come in the order of the map. *)
Record cache_stats := CacheStats {
  cached : nat;
  cached_keys : list string
}.

(** [getCacheStats()] *)
Definition getCacheStats : M mapper_state cache_stats :=
  gets (fun s => CacheStats (size (mapperCache s))
                            (map fst (map_to_list (mapperCache s)))).

End AiMapper.

(* ===================================================================== *)
(** * migrations/koibox/citas.js: loading one page of appointments *)
(* ===================================================================== *)

Module Citas.
Import BatchService.

(** [globalStats.warnings] *)
Record warnings := Warnings {
  missingPatients : nat;
  missingDoctors : nat;
  missingTreatments : nat;
  missingSpaces : nat
}.

(** [globalStats] *)
Record global_stats := GlobalStats {
  allRecords : nat;
  allBatches : nat;
  allSuccessfulBatches : nat;
  allFailedBatches : nat;
  allInsertedRecords : nat;
  allErrors : list batch_error;
  allWarnings : warnings
}.

(** [req.body.clinic] *)
Record clinic := Clinic {
  id_clinica : value;
  id_super_clinica : value
}.

(** The accumulation of the statistics of one [processBatches] run. *)
Definition accumulate (globalStats : global_stats) (run : batch_stats)
  : global_stats :=
  GlobalStats (allRecords globalStats + BatchService.totalRecords run)
              (allBatches globalStats + totalBatches run)
              (allSuccessfulBatches globalStats + successfulBatches run)
              (allFailedBatches globalStats + failedBatches run)
              (allInsertedRecords globalStats + insertedRecords run)
              (allErrors globalStats ++ errors run)
              (allWarnings globalStats).

(** The rest of an object once the named members are destructured away:
    [({a, b, ...rest}) => rest]. *)
Definition omit (names : list string) (o : object) : object :=
  List.filter (fun kv => negb (existsb (String.eqb (fst kv)) names)) o.

(** Equality of the primitive values identifiers are made of, as [Set]
    compares its members. *)
Definition same_value (a b : value) : bool :=
  match a, b with
  | VUndef, VUndef | VNull, VNull => true
  | VBool x, VBool y => Bool.eqb x y
  | VNum x, VNum y => Z.eqb x y
  | VStr x, VStr y => String.eqb x y
  | _, _ => false
  end.

(** [[...new Set(items)]]: the first occurrence of every value, in order. *)
Fixpoint unique_from (seen items : list value) : list value :=
  match items with
  | [] => []
  | x :: rest =>
      if existsb (same_value x) seen then unique_from seen rest
      else x :: unique_from (seen ++ [x]) rest
  end.

Definition unique (items : list value) : list value := unique_from [] items.

(** The comparison [column = ?] of the store: [NULL] equals nothing, a number
    and its decimal text are equal. *)
Definition sql_equal (a b : value) : bool :=
  match a, b with
  | (VNum _ | VStr _), (VNum _ | VStr _) => String.eqb (toString a) (toString b)
  | _, _ => false
  end.

(** The store's answer to

      SELECT id_cita, old_id FROM citas
      WHERE old_id IN (..) AND id_cita_reference IS NULL
        AND id_clinica = ? AND id_super_clinica = ?

    The generated key of a row is its rank among the durable rows.  The
    read always answers: a rejection of [query] is not modelled. *)
Definition select_primary_citas (uniqueOldIds : list value) (clinic : clinic)
  : M world (list object) :=
  gets (fun w =>
    flat_map
      (fun entry : nat * (string * object) =>
         let row := snd (snd entry) in
         if String.eqb (fst (snd entry)) "citas"
            && existsb (sql_equal (prop "old_id" row)) uniqueOldIds
            && is_null (prop "id_cita_reference" row)
            && sql_equal (prop "id_clinica" row) (id_clinica clinic)
            && sql_equal (prop "id_super_clinica" row) (id_super_clinica clinic)
         then [[("id_cita", VNum (Z.of_nat (S (fst entry))));
                ("old_id", prop "old_id" row)]]
         else [])
      (imap (fun i row => (i, row)) (committed w))).

(** The [old_id -> id_cita] object built from the rows found. *)
Definition primary_id_mapping (insertedPrimaryAppointments : list object)
  : object :=
  fold_left
    (fun primaryIdMapping apt =>
       assign (toString (prop "old_id" apt)) (prop "id_cita" apt) primaryIdMapping)
    insertedPrimaryAppointments [].

(** The secondary appointments as they are handed to [processBatches]:
    [{...appointment, id_cita_reference: primaryIdMapping[_originalId] || null}] *)
Definition clean_secondary (primaryIdMapping : object) (apt : object) : object :=
  let found := prop (toString (prop "_originalId" apt)) primaryIdMapping in
  assign "id_cita_reference" (if truthy found then found else VNull)
         (omit ["_isPrimary"; "_originalId"; "id_cita_reference"] apt).

(** The page callback of [POST /citas] from the transformed records on:
    primaries first, then the re-query of their generated keys, then the
    secondaries.  [globalStats] is threaded through. *)
Definition insert_transformed (clinic : clinic) (transformedBatch : list object)
    (globalStats : global_stats) : M world global_stats :=
  if length transformedBatch =? 0 then ret globalStats
  else
    let primaryAppointments :=
      List.filter (fun apt => truthy (prop "_isPrimary" apt)) transformedBatch in
    let secondaryAppointments :=
      List.filter (fun apt => negb (truthy (prop "_isPrimary" apt)))
                  transformedBatch in
    globalStats <-
      (if 0 <? length primaryAppointments then
         let cleanPrimaryAppointments :=
           map (omit ["_isPrimary"; "_originalId"]) primaryAppointments in
         primaryStats <- processBatches "citas" cleanPrimaryAppointments 100 None;
         ret (accumulate globalStats primaryStats)
       else ret globalStats);
    if 0 <? length secondaryAppointments then
      let uniqueOldIds :=
        unique (map (prop "_originalId") secondaryAppointments) in
      insertedPrimaryAppointments <- select_primary_citas uniqueOldIds clinic;
      let primaryIdMapping := primary_id_mapping insertedPrimaryAppointments in
      let cleanSecondaryAppointments :=
        map (clean_secondary primaryIdMapping) secondaryAppointments in
      secondaryStats <- processBatches "citas" cleanSecondaryAppointments 100 None;
      ret (accumulate globalStats secondaryStats)
    else ret globalStats.

End Citas.

(* ===================================================================== *)
(** * middlewares/auth.middleware.js *)
(* ===================================================================== *)

Module AuthMiddleware.

(** The parts of the request the middlewares read and write:
    [req.headers.authorization], [req.body] and [req.bearerToken]. *)
Record request := Request {
  authorization : value;
  body : value;
  bearerToken : value
}.

(** [res.status(status).json(payload)] *)
Record response := Response {
  status : nat;
  payload : object
}.

(** How a middleware ends: it answers the request, or calls [next()]. *)
Inductive handled : Type :=
| Responded (r : response)
| Next.

Definition rejection (status : nat) (error message : string) : handled :=
  Responded (Response status [("success", VBool false);
                              ("error", VStr error);
                              ("message", VStr message)]).

(** [v.startsWith(prefix)]: a method of strings only. *)
Definition startsWith {S} (v : value) (prefix : string) : M S bool :=
  match v with
  | VStr s => ret (String.prefix prefix s)
  | VUndef | VNull =>
      throw (new_Error ("Cannot read properties of " +:+ toString v
                        +:+ " (reading 'startsWith')"))
  | _ => throw (new_Error "authHeader.startsWith is not a function")
  end.

(** [s.substring(start)] *)
Definition substring_from (start : nat) (s : string) : string :=
  String.substring start (String.length s - start) s.

(** [validateBearerToken(req, res, next)] *)
Definition validateBearerToken : M request handled :=
  try_catch
    (authHeader <- gets authorization;
     if negb (truthy authHeader) then
       ret (rejection 401 "MISSING_AUTHORIZATION" "Authorization header is required")
     else
       bearer <- startsWith authHeader "Bearer ";
       if negb bearer then
         ret (rejection 401 "INVALID_AUTHORIZATION_FORMAT"
                        "Authorization must be Bearer token")
       else
         let token := substring_from 7 (toString authHeader) in
         if negb (truthy (VStr token)) then
           ret (rejection 401 "MISSING_TOKEN" "Bearer token is empty")
         else
           _ <- modify (fun req => Request (authorization req) (body req) (VStr token));
           ret Next)
    (fun error => ret (rejection 500 "AUTH_ERROR" (message error))).

(** [const { clinic } = req.body] *)
Definition destructure_clinic {S} (body : value) : M S value :=
  match body with
  | VUndef | VNull =>
      throw (new_Error ("Cannot destructure property 'clinic' of 'req.body' as it is "
                        +:+ toString body +:+ "."))
  | VObj fields => ret (prop "clinic" fields)
  | _ => ret VUndef
  end.

(** [typeof v === "number"] *)
Definition typeof_number (v : value) : bool :=
  match v with VNum _ => true | _ => false end.

(** [validateClinicData(req, res, next)] *)
Definition validateClinicData : M request handled :=
  try_catch
    (reqBody <- gets body;
     clinic <- destructure_clinic reqBody;
     if negb (truthy clinic) then
       ret (rejection 400 "MISSING_CLINIC_DATA"
                      "clinic object is required in request body")
     else
       id_clinica <- member clinic "id_clinica";
       id_super_clinica <- member clinic "id_super_clinica";
       if negb (truthy id_clinica) || negb (truthy id_super_clinica) then
         ret (rejection 400 "INVALID_CLINIC_DATA"
                "clinic.id_clinica and clinic.id_super_clinica are required")
       else if negb (typeof_number id_clinica)
               || negb (typeof_number id_super_clinica) then
         ret (rejection 400 "INVALID_CLINIC_DATA_TYPE" "clinic IDs must be numbers")
       else ret Next)
    (fun error => ret (rejection 500 "VALIDATION_ERROR" (message error))).

End AuthMiddleware.

(* ===================================================================== *)
(** * migrations/koibox/citas.js: transforming one page of appointments *)
(* ===================================================================== *)

Module CitasTransform.
Import Citas.

(** The members of a Koibox appointment the transformation reads.  The two
    arrays are lists, empty when the member is absent. *)
Record appointment := Appointment {
  appointment_id : value;
  cliente : value;
  user : value;
  estado : value;
  recursos : list value;
  servicios : list value;
  fecha : value;
  hora_inicio : value;
  hora_fin : value;
  informacion_clinica : value;
  observaciones : value;
  notas : value;
  created : value;
  updated : value
}.

(** [patientMapping] and the [mapper] objects of the four reconciliations. *)
Record mappers := Mappers {
  patientMapping : object;
  doctorMapper : object;
  stateMapper : object;
  spaceMapper : object;
  treatmentMapper : object
}.

(** The lines the transformation writes with [console.warn]. *)
Inductive transform_warning : Type :=
| WarnPatientNotFound (appointment cliente : value)
| WarnDoctorNotFound (appointment user : value)
| WarnTreatmentNotFound (appointment serviceId : value).

(** What the transformation changes: [globalStats.warnings] and the
    console. *)
Record transform_state := TransformState {
  counters : warnings;
  warn_lines : list transform_warning
}.

Definition count_missing (bump : warnings -> warnings)
    (lines : list transform_warning) : M transform_state unit :=
  modify (fun s => TransformState (bump (counters s)) (warn_lines s ++ lines)).

Definition bump_patients (w : warnings) : warnings :=
  Warnings (S (missingPatients w)) (missingDoctors w) (missingTreatments w)
           (missingSpaces w).

Definition bump_doctors (w : warnings) : warnings :=
  Warnings (missingPatients w) (S (missingDoctors w)) (missingTreatments w)
           (missingSpaces w).

Definition bump_treatments (w : warnings) : warnings :=
  Warnings (missingPatients w) (missingDoctors w) (S (missingTreatments w))
           (missingSpaces w).

Definition bump_spaces (w : warnings) : warnings :=
  Warnings (missingPatients w) (missingDoctors w) (missingTreatments w)
           (S (missingSpaces w)).

(** The [old_id -> id_paciente] object built from the rows of the store:
    [if (patient.old_id) patientMapping[patient.old_id.toString()] = ..]. *)
Definition patient_mapping (dbPatients : list object) : object :=
  fold_left
    (fun patientMapping patient =>
       if truthy (prop "old_id" patient)
       then assign (toString (prop "old_id" patient)) (prop "id_paciente" patient)
                   patientMapping
       else patientMapping)
    dbPatients [].

(** [source ? mapper[source.toString()] : null] *)
Definition mapped (mapper : object) (source : value) : value :=
  if truthy source then prop (toString source) mapper else VNull.

(** [v || fallback] *)
Definition or_else (v fallback : value) : value :=
  if truthy v then v else fallback.

(** [s.replace(target, by)] for one-character texts: the first occurrence
    only. *)
Fixpoint replace_first (target by_ : Ascii.ascii) (s : string) : string :=
  match s with
  | EmptyString => EmptyString
  | String c rest =>
      if Ascii.eqb c target then String by_ rest
      else String c (replace_first target by_ rest)
  end.

(** [s.split(sep)[0]] for a one-character separator. *)
Fixpoint before_first (sep : Ascii.ascii) (s : string) : string :=
  match s with
  | EmptyString => EmptyString
  | String c rest =>
      if Ascii.eqb c sep then EmptyString else String c (before_first sep rest)
  end.

(** [appointment.created?.replace("T", " ").split(".")[0] || null], for the
    member [field]. *)
Definition timestamp {S} (field : string) (v : value) : M S value :=
  match v with
  | VUndef | VNull => ret VNull
  | VStr s =>
      ret (or_else (VStr (before_first "."%char
                                       (replace_first "T"%char " "%char s)))
                   VNull)
  | _ => throw (new_Error ("appointment." +:+ field
                           +:+ "?.replace is not a function"))
  end.

(** The line feed. *)
Definition newline : string := String (Ascii.ascii_of_nat 10) EmptyString.

(** [baseAppointmentData] *)
Definition baseAppointmentData (clinic : clinic) (appointment : appointment)
    (idPaciente idMedico idEstadoCita idEspacio fecha_creacion fecha_modificacion
       : value) : object :=
  [("id_paciente", idPaciente);
   ("id_medico", or_else idMedico VNull);
   ("id_super_clinica", id_super_clinica clinic);
   ("id_clinica", id_clinica clinic);
   ("fecha_cita", or_else (fecha appointment) VNull);
   ("hora_inicio", or_else (hora_inicio appointment) VNull);
   ("hora_fin", or_else (hora_fin appointment) VNull);
   ("id_estado_cita", or_else idEstadoCita (VNum 1));
   ("id_espacio", or_else idEspacio VNull);
   ("comentario_ia", VNull);
   ("comentario_ausente_cancelado", VNull);
   ("es_pack_bono", VNull);
   ("id_pack_bono", VNull);
   ("id_presupuesto", VNull);
   ("id_recibo", VNull);
   ("item_presupuesto", VNull);
   ("old_id", appointment_id appointment);
   ("id_contacto", VNull);
   ("fecha_creacion", fecha_creacion);
   ("fecha_modificacion", fecha_modificacion);
   ("usuario_creacion", VNull);
   ("id_usuario_creacion", VNull);
   ("fecha_migracion", VNull);
   ("detalles_migracion", VNull);
   ("id_estados_cita_in", VNull)].

(** The record built for the service at [index]:
    [{...baseAppointmentData, id_tratamiento: .., .., _originalId: ..}]. *)
Definition appointment_record (base : object) (appointment : appointment)
    (observacionesMedicas : value) (comentariosCita : string)
    (index : nat) (idTratamiento : value) : object :=
  let isPrimary := index =? 0 in
  base ++
  [("id_tratamiento", or_else idTratamiento VNull);
   ("observaciones_medicas", if isPrimary then observacionesMedicas else VNull);
   ("comentarios_cita",
    if isPrimary then or_else (VStr comentariosCita) VNull else VNull);
   ("id_cita_reference", if isPrimary then VNull else VStr "PENDING");
   ("_isPrimary", VBool isPrimary);
   ("_originalId", appointment_id appointment)].

(** The callback of [appointments.flatMap]: [None] stands for the [null] it
    returns for an appointment whose patient is not found. *)
Definition transform_appointment (clinic : clinic) (m : mappers)
    (appointment : appointment) : M transform_state (option (list object)) :=
  let idPaciente := mapped (patientMapping m) (cliente appointment) in
  if truthy (cliente appointment) && negb (truthy idPaciente) then
    _ <- count_missing bump_patients
           [WarnPatientNotFound (appointment_id appointment) (cliente appointment)];
    ret None
  else
    let idMedico := mapped (doctorMapper m) (user appointment) in
    _ <- (if truthy (user appointment) && negb (truthy idMedico) then
            count_missing bump_doctors
              [WarnDoctorNotFound (appointment_id appointment) (user appointment)]
          else ret tt);
    let idEstadoCita := mapped (stateMapper m) (estado appointment) in
    let firstResource := hd VNull (recursos appointment) in
    let idEspacio := mapped (spaceMapper m) firstResource in
    _ <- (if truthy firstResource && negb (truthy idEspacio) then
            count_missing bump_spaces []
          else ret tt);
    let observacionesMedicas := or_else (informacion_clinica appointment) VNull in
    let comentariosCita :=
      String.concat newline
        (map toString
             (List.filter truthy [observaciones appointment; notas appointment])) in
    fecha_creacion <- timestamp "created" (created appointment);
    fecha_modificacion <- timestamp "updated" (updated appointment);
    let base :=
      baseAppointmentData clinic appointment idPaciente idMedico idEstadoCita
                          idEspacio fecha_creacion fecha_modificacion in
    let services :=
      if 0 <? length (servicios appointment) then servicios appointment
      else [VNull] in
    appointmentRecords <-
      AiMapper.map_M (fun entry : nat * value =>
         let idTratamiento := mapped (treatmentMapper m) (snd entry) in
         _ <- (if truthy (snd entry) && negb (truthy idTratamiento) then
                 count_missing bump_treatments
                   [WarnTreatmentNotFound (appointment_id appointment) (snd entry)]
               else ret tt);
         ret (appointment_record base appointment observacionesMedicas
                                 comentariosCita (fst entry) idTratamiento))
        (imap (fun index serviceId => (index, serviceId)) services);
    ret (Some appointmentRecords).

(** [appointments.flatMap(..).filter(Boolean)]: [flatMap] spreads the arrays
    and keeps each [null] as an element, which the filter then drops; the
    records are objects and stay. *)
Definition transform_page (clinic : clinic) (m : mappers)
    (appointments : list appointment) : M transform_state (list object) :=
  results <- AiMapper.map_M (transform_appointment clinic m) appointments;
  ret (flat_map (fun result : option (list object) => default [] result) results).

End CitasTransform.

(* ===================================================================== *)
(** * middlewares/error.middleware.js *)
(* ===================================================================== *)

Module ErrorMiddleware.

(** What the handler reads of the error it is given: whether it is a
    [SyntaxError], whether it has a [body] member, and its members [status],
    [code], [isAxiosError], [response], [name], [message] and [stack]. *)
Record failure := Failure {
  isSyntaxError : bool;
  hasBody : bool;
  err_status : value;
  err_code : value;
  isAxiosError : value;
  err_response : value;
  err_name : value;
  err_message : value;
  err_stack : value
}.

(** [res.status(status).json(payload)] *)
Record answer := Answer {
  answer_status : value;
  answer_payload : object
}.

(** [a === b] for a number [b]. *)
Definition is_number_value (a : value) (b : Z) : bool :=
  match a with VNum z => Z.eqb z b | _ => false end.

(** [err.code.startsWith('ER_')] for a truthy [err.code]: a method of texts
    only. *)
Definition code_startsWith (code : value) (prefix : string) : outcome bool :=
  match code with
  | VStr s => Returned (String.prefix prefix s)
  | _ => Thrown (new_Error "err.code.startsWith is not a function")
  end.

(** [err.response?.status] *)
Definition response_status_of (response : value) : value :=
  match response with
  | VObj fields => prop "status" fields
  | _ => VUndef
  end.

(** [v || fallback] *)
Definition or_default (v fallback : value) : value :=
  if truthy v then v else fallback.

(** [errorHandler(err, req, res, next)], where [development] tells whether
    [process.env.NODE_ENV === 'development'].  The line it writes to the
    console is not recorded. *)
Definition errorHandler (development : bool) (err : failure) : outcome answer :=
  if isSyntaxError err && is_number_value (err_status err) 400 && hasBody err then
    Returned (Answer (VNum 400)
                [("success", VBool false);
                 ("error", VStr "INVALID_JSON");
                 ("message", VStr "Invalid JSON in request body")])
  else
    match (if truthy (err_code err) then code_startsWith (err_code err) "ER_"
           else Returned false) with
    | Thrown e => Thrown e
    | Returned true =>
        Returned (Answer (VNum 500)
                    [("success", VBool false);
                     ("error", VStr "DATABASE_ERROR");
                     ("message", VStr "Database error occurred");
                     ("code", err_code err);
                     ("details", if development then err_message err else VUndef)])
    | Returned false =>
        if truthy (isAxiosError err) then
          Returned (Answer (or_default (response_status_of (err_response err))
                                       (VNum 500))
                      [("success", VBool false);
                       ("error", VStr "EXTERNAL_API_ERROR");
                       ("message", VStr "Error calling external API");
                       ("details",
                        if development then err_message err else VUndef)])
        else
          Returned (Answer (or_default (err_status err) (VNum 500))
                      [("success", VBool false);
                       ("error", or_default (err_name err)
                                            (VStr "INTERNAL_SERVER_ERROR"));
                       ("message", or_default (err_message err)
                                              (VStr "An unexpected error occurred"));
                       ("stack", if development then err_stack err else VUndef)])
    end.

End ErrorMiddleware.

(* ===================================================================== *)
(** * utils/validators.js on records of any member names *)
(* ===================================================================== *)

Module AnyRecord.

(** The prototype of the object [convertUndefinedToNull] builds:
    [Object.prototype], as for every object literal, until the copy of a
    member named [__proto__] reaches the setter of [Object.prototype], which
    replaces it by [null], an object or an array and ignores anything else. *)
Inductive prototype : Type :=
| ObjectPrototype
| SetTo (parent : value).

(** The object built: its own members and its prototype. *)
Record converted := Converted {
  members : object;
  inherits : prototype
}.

(** [for (const key in obj) { .. }] with what the body builds up. *)
Fixpoint for_in {S A} (keys : list string) (body : A -> string -> M S A)
    (start : A) : M S A :=
  match keys with
  | [] => ret start
  | key :: rest => next <- body start key; for_in rest body next
  end.

(** [obj.hasOwnProperty(key)]: the method of [Object.prototype], unless the
    record has a member of that name, which is read in its place and is no
    function. *)
Definition hasOwnProperty {S} (obj : object) (key : string) : M S bool :=
  match lookup_field "hasOwnProperty" obj with
  | Some _ => throw (new_Error "obj.hasOwnProperty is not a function")
  | None => ret (if lookup_field key obj is Some _ then true else false)
  end.

(** [result[key] = v] on the object under construction.  (A record has a
    member of a name once, so the prototype is still [Object.prototype] when
    [__proto__] is assigned.) *)
Definition set_member (key : string) (v : value) (result : converted) : converted :=
  if String.eqb key "__proto__" then
    match v with
    | VNull | VArr _ | VObj _ => Converted (members result) (SetTo v)
    | _ => result
    end
  else Converted (assign key v (members result)) (inherits result).

(** [convertUndefinedToNull(obj)] *)
Definition convertUndefinedToNull {S} (obj : object) : M S converted :=
  for_in (keys obj)
    (fun result key =>
       own <- hasOwnProperty obj key;
       if own then
         ret (set_member key
                (if is_undefined (prop key obj) then VNull else prop key obj)
                result)
       else ret result)
    (Converted [] ObjectPrototype).

(** [findUndefinedFields(obj, context)], writing to the console. *)
Definition findUndefinedFields (obj : object) (context : string)
  : M (list log_line) (list string) :=
  undefinedFields <-
    for_in (keys obj)
      (fun undefinedFields key =>
         own <- hasOwnProperty obj key;
         ret (if own && is_undefined (prop key obj)
              then undefinedFields ++ [key] else undefinedFields))
      [];
  _ <- (if 0 <? length undefinedFields then
          modify (fun console =>
                    console ++ [WarnUndefinedFields context undefinedFields])
        else ret tt);
  ret undefinedFields.

(** The member [key] of an array: its [length] and its elements. *)
Definition array_member (items : list value) (key : string) : option value :=
  if String.eqb key "length" then Some (VNum (Z.of_nat (length items)))
  else
    head (flat_map (fun entry : nat * value =>
                      if String.eqb (pretty (fst entry)) key then [snd entry]
                      else [])
                   (imap (fun index item => (index, item)) items)).

(** What reading [sanitized[field]] finds in the prototype, when that is a
    member holding data; [None] stands for everything else a prototype
    gives ([undefined], a method, the prototype itself for [__proto__]),
    none of which is [null] or the empty text. *)
Definition inherited (parent : prototype) (field : string) : option value :=
  match parent with
  | SetTo (VObj fields) => lookup_field field fields
  | SetTo (VArr items) => array_member items field
  | _ => None
  end.

(** [sanitized[field] === null || sanitized[field] === ''] *)
Definition missing_value (sanitized : converted) (field : string) : bool :=
  match lookup_field field (members sanitized) with
  | Some v => is_null v || is_empty_string v
  | None =>
      match inherited (inherits sanitized) field with
      | Some v => is_null v || is_empty_string v
      | None => false
      end
  end.

(** The body of the [records.map] callback of [sanitizeRecords]. *)
Definition sanitizeRecord (requiredFields : list string) (index : nat)
    (record : object) : M (list log_line) converted :=
  undefinedFields <- findUndefinedFields record ("record " +:+ pretty index);
  sanitized <- convertUndefinedToNull record;
  _ <- (if 0 <? length requiredFields then
          let missingFields :=
            List.filter (missing_value sanitized) requiredFields in
          if 0 <? length missingFields then
            modify (fun console =>
                      console ++ [WarnMissingRequired index missingFields])
          else ret tt
        else ret tt);
  ret sanitized.

(** [sanitizeRecords(records, requiredFields)] *)
Definition sanitizeRecords (records : list object) (requiredFields : list string)
  : M (list log_line) (list converted) :=
  AiMapper.map_M
    (fun entry : nat * object =>
       sanitizeRecord requiredFields (fst entry) (snd entry))
    (imap (fun index record => (index, record)) records).

End AnyRecord.

(* ===================================================================== *)
(** * Descriptions used in the statements *)
(* ===================================================================== *)

Import Validators Database BatchService.


(** The columns, the flat values and the rows [insertBatch] derives from a
    batch. *)
Definition batch_columns (records : list object) : list string :=
  keys (hd [] (fst (sanitizeRecords records []))).

Definition batch_values (records : list object) : list value :=
  flat_map (fun record => map (fun col => prop col record) (batch_columns records))
           (fst (sanitizeRecords records [])).

Definition batch_rows (tableName : string) (records : list object)
  : list (string * object) :=
  bound_rows (Insert tableName (batch_columns records)
                     (length (fst (sanitizeRecords records []))))
             (batch_values records).

(** The error a transaction around one [execute] ends with under a plan of
    faults, if any: the first fault met, replaced by the fault of the
    rollback when that fails too. *)
Definition transaction_error (plan : faults) (values : list value)
  : option error :=
  match fail_acquire plan with
  | Some e => Some e
  | None =>
      let raised :=
        match fail_begin plan with
        | Some e => Some e
        | None =>
            if existsb is_undefined values then
              Some (new_Error "Bind parameters must not contain undefined. To pass SQL NULL specify JS null")
            else match fail_execute plan with
                 | Some (_, e) => Some e
                 | None => fail_commit plan
                 end
        end in
      match raised with
      | Some e => Some (default e (fail_rollback plan))
      | None => None
      end
  end.

(** The driver calls of that transaction. *)
Definition transaction_calls (plan : faults) (tableName : string) (rows : nat)
    (values : list value) : list io_event :=
  CallGetConnection ::
  match fail_acquire plan with
  | Some _ => []
  | None =>
      CallBeginTransaction ::
      match fail_begin plan with
      | Some _ => [CallRollback; CallRelease]
      | None =>
          CallExecute tableName rows ::
          if existsb is_undefined values then [CallRollback; CallRelease]
          else match fail_execute plan with
               | Some _ => [CallRollback; CallRelease]
               | None =>
                   CallCommit ::
                   match fail_commit plan with
                   | Some _ => [CallRollback; CallRelease]
                   | None => [CallRelease]
                   end
               end
      end
  end.

(** What [insertBatch] resolves to, given how the transaction ended. *)
Definition insert_result (batchNumber size : nat) (failed : option error)
  : batch_result :=
  match failed with
  | None => BatchResult true size (Some batchNumber) None None VUndef
  | Some e =>
      BatchResult false 0 (Some batchNumber) None (Some (message e)) (code e)
  end.


Definition homogeneous (records : list object) : Prop :=
  Forall (fun record => keys record = keys (hd [] records)
                        /\ NoDup (keys record)) records.

(** The [i]-th consecutive chunk of size [K]. *)
Definition chunk (records : list object) (K i : nat) : list object :=
  slice (i * K) (i * K + K) records.

(** A callback that returns normally whenever it is called. *)
Definition callback_returns (onBatchComplete : option batch_callback) : Prop :=
  match onBatchComplete with
  | Some callback => forall result number total, callback result number total = Returned tt
  | None => True
  end.


(** The number of connections requested from the pool in a trace. *)
Definition connection_requests (events : list io_event) : nat :=
  length (List.filter (fun ev => match ev with CallGetConnection => true | _ => false end)
                      events).

(** How the transaction of a chunk ends under a plan of faults. *)
Definition chunk_failure (plan : faults) (batch : list object) : option error :=
  transaction_error plan (batch_values batch).

(** The entry a chunk leaves in [stats.errors], the records it adds to
    [stats.insertedRecords] and the rows it adds to the store. *)
Definition error_entries (K i : nat) (failed : option error) : list batch_error :=
  match failed with
  | Some e => [BatchError (i + 1) (i * K) (Some (message e)) (code e)]
  | None => []
  end.

Definition inserted_count (batch : list object) (failed : option error) : nat :=
  if failed is Some _ then 0 else length batch.

Definition inserted_rows (tableName : string) (batch : list object)
    (failed : option error) : list (string * object) :=
  if failed is Some _ then [] else batch_rows tableName batch.

Definition sample_record : object :=
  [("nombre", VStr "Ana"); ("telefono", VUndef); ("old_id", VNum 7)].

Import ApiClient.

(** A page callback that leaves nothing but the record of its call. *)
Definition record_page : page_callback :=
  fun records page totalPages =>
    emit (CallProcessFn page (length records) totalPages).

(** What a page contributes to a traversal: its records when the request
    succeeds, a warning when it fails. *)
Definition page_records (client : http_client) (endpoint : string) (limit page : nat)
  : list value :=
  match client endpoint (page * limit) with
  | Returned (data, _) => results data
  | Thrown _ => []
  end.

Definition page_warnings (client : http_client) (endpoint : string)
    (limit totalPages page : nat) : list log_line :=
  match client endpoint (page * limit) with
  | Returned _ => []
  | Thrown _ => [WarnPageSkipped (page + 1) totalPages]
  end.

(** The calls a page causes when [record_page] is the callback: the request,
    then the callback if the request succeeded. *)
Definition page_events (client : http_client) (endpoint : string)
    (limit totalPages page : nat) : list io_event :=
  HttpGet endpoint (page * limit) ::
  match client endpoint (page * limit) with
  | Returned (data, _) => [CallProcessFn page (length (results data)) totalPages]
  | Thrown _ => []
  end.

(** The world after one more request, and after one more console line. *)
Definition requested (endpoint : string) (offset : nat) (w : world) : world :=
  snd (emit (HttpGet endpoint offset) w).

Definition warned (line : log_line) (w : world) : world := snd (log line w).

(** A client like [client] except that the pages after the first report the
    totals [retotal] gives them. *)
Definition with_later_totals (retotal : nat -> nat) (client : http_client) : http_client :=
  fun endpoint offset =>
    if offset =? 0 then client endpoint offset
    else match client endpoint offset with
         | Returned (data, status) =>
             Returned (Page (retotal offset) (results data), status)
         | Thrown e => Thrown e
         end.

(** A source of 250 records served 100 at a time, every page reporting the
    total. *)
Definition mock_items : list value := map (fun i => VNum (Z.of_nat i)) (seq 0 250).

Definition mock_source : http_client :=
  fun _ offset => Returned (Page 250 (take 100 (drop offset mock_items)), 200).

(** A store with nothing in it and no fault to come. *)
Definition empty_world : world := World [] [] 0 [] no_faults [] [].

(** A source that is down, and one that loses its second page. *)
Definition outage : error :=
  Error "Request failed with status code 503" (VStr "ERR_BAD_RESPONSE")
        (VNum 503) VUndef.

Definition down_source : http_client := fun _ _ => Thrown outage.

Definition flaky_source : http_client :=
  fun endpoint offset =>
    if offset =? 100 then Thrown outage else mock_source endpoint offset.

Import AiMapper.

(** A result that carries a truthy [error] member: the tagged errors of
    [mapData] and the domain errors of the oracle. *)
Definition reports_error (v : value) : bool :=
  match v with
  | VObj fields => truthy (prop "error" fields)
  | _ => false
  end.

(** The [id] members of the source items and the first members of the target
    items, or the error reading them throws; and their sorted forms. *)
Definition source_ids (apiResult : list value) : outcome (list value) :=
  fst (map_M (S := unit) (fun item => member item "id") apiResult tt).

Definition target_keys (dbResult : list value) : outcome (list value) :=
  fst (map_M (S := unit) first_value dbResult tt).

Definition sorted (read : outcome (list value)) : outcome (list value) :=
  match read with
  | Returned items => Returned (sort items)
  | Thrown e => Thrown e
  end.

(** The cache key of a request, or the error computing it throws. *)
Definition cache_key (entityType : string) (apiResult dbResult : list value)
  : outcome string :=
  fst (generateCacheKey (S := unit) entityType apiResult dbResult tt).

(** The checks [mapData] makes on the members of a reply that reports no
    error. *)
Definition mapper_checked (fields : object) : bool :=
  truthy (prop "mapper" fields) && typeof_object (prop "mapper" fields).

Definition missing_checked (fields : object) : bool :=
  isArray (prop "missing" fields).

(** A reply that passes both checks. *)
Definition accepted (reply : value) : bool :=
  match reply with
  | VObj fields => mapper_checked fields && missing_checked fields
  | _ => false
  end.

(** The decimal text of a natural number, as [Number(text)] accepts it. *)
Definition is_digit (c : Ascii.ascii) : bool :=
  let n := Ascii.nat_of_ascii c in (48 <=? n) && (n <=? 57).

Fixpoint all_digits (s : string) : bool :=
  match s with
  | EmptyString => true
  | String c rest => is_digit c && all_digits rest
  end.

(** Modelled on the words of the specification: a value that stands for a
    numeric target identifier, a number or the decimal text of one. *)
Definition coercible_to_id (v : value) : bool :=
  match v with
  | VNum _ => true
  | VStr (String c rest) => all_digits (String c rest)
  | _ => false
  end.

(** A mapper state with an empty cache. *)
Definition fresh_mapper : mapper_state := MapperState ∅ 0 [].

(** Two tax types of the source and one of the store. *)
Definition api_taxes : list value :=
  [VObj [("id", VNum 1); ("text", VStr "IVA 21")];
   VObj [("id", VNum 2); ("text", VStr "IVA 10")]].

Definition db_taxes : list value :=
  [VObj [("id_tipo_iva", VNum 5); ("valor", VStr "0.21")]].



(** An oracle whose mapper holds a value that is no identifier, one that
    always reports a domain error, and one that answers well. *)
Definition careless_reply : value :=
  VObj [("mapper", VObj [("1", VStr "abc"); ("2", VObj [])]);
        ("missing", VArr [])].

Definition careless_oracle : oracle := fun _ _ _ _ _ => Returned careless_reply.



Definition sound_reply : value :=
  VObj [("mapper", VObj [("1", VNum 5); ("2", VNum 5)]); ("missing", VArr [])].

Definition sound_oracle : oracle := fun _ _ _ _ _ => Returned sound_reply.

(** The mapper state once the sound oracle answered the tax request, and
    the two runs of that request against the refusing oracle. *)
Definition cached_state : mapper_state :=
  snd (mapData sound_oracle "tax" api_taxes db_taxes default_options fresh_mapper).




(** The values a reply maps the source identifiers to. *)
Definition mapper_values (reply : value) : list value :=
  match reply with
  | VObj fields =>
      match prop "mapper" fields with
      | VObj mapper => map snd mapper
      | VArr items => items
      | _ => []
      end
  | _ => []
  end.

Import Citas.

(** Five records of one shape, and a store that rejects the third record of
    the second transaction it is asked to run. *)
Definition five_records : list object :=
  map (fun i => [("old_id", VNum i); ("nombre", VUndef)]) [1; 2; 3; 4; 5]%Z.

Definition duplicate_entry : error :=
  Error "Duplicate entry '3' for key 'old_id'" (VStr "ER_DUP_ENTRY") VUndef VUndef.

Definition rejecting (written : nat) : faults :=
  Faults None None (Some (written, duplicate_entry)) None None.

Definition world_with (plans : list faults) : world :=
  World [] [] 0 plans no_faults [] [].

(** One appointment with two services, as the transformation of [POST /citas]
    leaves it: a primary record and a secondary one waiting for its
    reference. *)
Definition sample_clinic : clinic := Clinic (VNum 1) (VNum 1).

Definition primary_cita : object :=
  [("id_paciente", VNum 12); ("id_tratamiento", VNum 3);
   ("id_clinica", VNum 1); ("id_super_clinica", VNum 1); ("old_id", VNum 7);
   ("id_cita_reference", VNull);
   ("_isPrimary", VBool true); ("_originalId", VNum 7)].

Definition secondary_cita : object :=
  [("id_paciente", VNum 12); ("id_tratamiento", VNum 4);
   ("id_clinica", VNum 1); ("id_super_clinica", VNum 1); ("old_id", VNum 7);
   ("id_cita_reference", VStr "PENDING");
   ("_isPrimary", VBool false); ("_originalId", VNum 7)].

Definition no_stats : global_stats := GlobalStats 0 0 0 0 0 [] (Warnings 0 0 0 0).

(** The page of that appointment loaded into a store that rejects the chunk
    of the primaries, and into a store without faults. *)
Definition orphaned_page : outcome global_stats * world :=
  insert_transformed sample_clinic [primary_cita; secondary_cita] no_stats
                     (world_with [rejecting 0]).

Definition linked_page : outcome global_stats * world :=
  insert_transformed sample_clinic [primary_cita; secondary_cita] no_stats
                     (world_with []).

(** ** Descriptions for the further properties *)

(** [null] or [undefined]. *)
Definition nullish (v : value) : bool :=
  match v with VUndef | VNull => true | _ => false end.

(** A source or target item whose identifier is a number: an object whose
    [id] member, respectively first member, is a number. *)
Definition numeric_source (item : value) : Prop :=
  exists fields z, item = VObj fields /\ prop "id" fields = VNum z.

Definition numeric_target (item : value) : Prop :=
  exists key z rest, item = VObj ((key, VNum z) :: rest).

(** The state of the mapper after [clearCache] and the answer of
    [getCacheStats]. *)
Definition cleared (entityType : value) (s : mapper_state) : mapper_state :=
  snd (clearCache entityType s).

Definition stats_of (s : mapper_state) : outcome cache_stats :=
  fst (getCacheStats s).

(** The order of the default sort as a relation. *)
Definition sorts_before (a b : value) : Prop := sort_le a b = true.

(** The [id] member of a source item and the first member of a target item
    that are objects. *)
Definition id_of (item : value) : value :=
  match item with VObj fields => prop "id" fields | _ => VUndef end.

Definition first_of (item : value) : value :=
  match item with VObj fields => hd VUndef (map snd fields) | _ => VUndef end.

Definition is_number (v : value) : Prop := exists z, v = VNum z.

Definition is_object (v : value) : Prop := exists fields, v = VObj fields.

(** An oracle that cannot be reached. *)
Definition unreachable : error :=
  Error "Connection error." VUndef (VNum 503) (VObj [("reason", VStr "timeout")]).

Definition failing_oracle : oracle := fun _ _ _ _ _ => Thrown unreachable.

(** The request once [validateBearerToken] stored the token in it. *)
Definition with_token (req : AuthMiddleware.request) (token : string)
  : AuthMiddleware.request :=
  AuthMiddleware.Request (AuthMiddleware.authorization req)
                         (AuthMiddleware.body req) (VStr token).

(** The status a middleware answered with, if it answered. *)
Definition answered (h : outcome AuthMiddleware.handled) : option nat :=
  match h with
  | Returned (AuthMiddleware.Responded r) => Some (AuthMiddleware.status r)
  | _ => None
  end.

(** A body that names a clinic by two numbers other than 0. *)
Definition names_clinic (body : value) : Prop :=
  exists fields clinic id_clinica id_super_clinica,
    body = VObj fields
    /\ prop "clinic" fields = VObj clinic
    /\ prop "id_clinica" clinic = VNum id_clinica
    /\ prop "id_super_clinica" clinic = VNum id_super_clinica
    /\ id_clinica <> 0%Z /\ id_super_clinica <> 0%Z.

Definition bearer_request : AuthMiddleware.request :=
  AuthMiddleware.Request (VStr "Bearer s3cr3t")
    (VObj [("clinic", VObj [("id_clinica", VNum 4); ("id_super_clinica", VNum 1)])])
    VUndef.



(** The world in which the callback of [transaction] starts: the connection
    is obtained and the transaction begun. *)
Definition begun (w : world) : world :=
  snd (beginTransaction Connection (snd (getConnection w))).

(** A callback that writes one patient, and one that gives up. *)
Definition write_patient (c : connection) : M world unit :=
  execute c (Insert "pacientes" ["old_id"] 1) [VNum 7].

Definition abandon (c : connection) : M world unit :=
  _ <- execute c (Insert "pacientes" ["old_id"] 1) [VNum 7];
  throw duplicate_entry.

Definition lost_connection : error :=
  Error "Connection lost: The server closed the connection."
        (VStr "PROTOCOL_CONNECTION_LOST") VUndef VUndef.



(** A source that serves [items] in pages of [size] records from the offset
    asked for, every page reporting the total. *)
Definition serving (items : list value) (size : nat) : http_client :=
  fun _ offset => Returned (Page (length items) (take size (drop offset items)), 200).

(** A page callback that fails. *)
Definition failing_page : page_callback :=
  fun _ _ _ => throw (new_Error "insert failed").

Import CitasTransform.

(** The columns of the table [citas] the transformation fills, in the order
    in which a record lists them. *)
Definition citas_columns : list string :=
  ["id_paciente"; "id_medico"; "id_super_clinica"; "id_clinica"; "fecha_cita";
   "hora_inicio"; "hora_fin"; "id_estado_cita"; "id_espacio"; "comentario_ia";
   "comentario_ausente_cancelado"; "es_pack_bono"; "id_pack_bono";
   "id_presupuesto"; "id_recibo"; "item_presupuesto"; "old_id"; "id_contacto";
   "fecha_creacion"; "fecha_modificacion"; "usuario_creacion";
   "id_usuario_creacion"; "fecha_migracion"; "detalles_migracion";
   "id_estados_cita_in"; "id_tratamiento"; "observaciones_medicas";
   "comentarios_cita"; "id_cita_reference"].

(** The two lists the page callback hands to [processBatches]. *)
Definition clean_primaries (transformedBatch : list object) : list object :=
  map (omit ["_isPrimary"; "_originalId"])
      (List.filter (fun apt => truthy (prop "_isPrimary" apt)) transformedBatch).

Definition clean_secondaries (primaryIdMapping : object)
    (transformedBatch : list object) : list object :=
  map (clean_secondary primaryIdMapping)
      (List.filter (fun apt => negb (truthy (prop "_isPrimary" apt)))
                   transformedBatch).

(** An identifier of the source that is given and has no counterpart in a
    mapper. *)
Definition unmapped (mapper : object) (source : value) : bool :=
  truthy source && negb (truthy (mapped mapper source)).

(** An appointment the transformation keeps: its patient, if it names one,
    is found. *)
Definition kept (m : mappers) (a : appointment) : bool :=
  negb (unmapped (patientMapping m) (cliente a)).

(** What [timestamp] makes of a member, or the error it throws. *)
Definition stamp (field : string) (v : value) : outcome value :=
  fst (timestamp (S := unit) field v tt).

(** A member that is a text or absent. *)
Definition text_or_absent (v : value) : bool :=
  match v with VUndef | VNull | VStr _ => true | _ => false end.

(** The services an appointment is split by. *)
Definition services_of (a : appointment) : list value :=
  if 0 <? length (servicios a) then servicios a else [VNull].

(** No occurrence of a character in a text. *)
Fixpoint free_of (c : Ascii.ascii) (s : string) : bool :=
  match s with
  | EmptyString => true
  | String x rest => negb (Ascii.eqb x c) && free_of c rest
  end.

(** A record as the transformation builds them. *)
Definition built (record : object) : Prop :=
  exists base a observacionesMedicas comentariosCita index idTratamiento,
    keys base = take 25 citas_columns
    /\ record = appointment_record base a observacionesMedicas comentariosCita
                                   index idTratamiento.

(** The counters and the console before anything was transformed. *)
Definition no_warnings : transform_state := TransformState (Warnings 0 0 0 0) [].

(** An appointment with two services of which the second is unknown, and the
    mappers it meets. *)
Definition sample_appointment : appointment :=
  Appointment (VNum 7) (VNum 31) (VNum 2) (VNum 1) [VNum 4] [VNum 11; VNum 12]
              (VStr "2024-03-05") (VStr "10:00") (VStr "10:30") VNull
              (VStr "Primera visita") VUndef
              (VStr "2024-03-01T09:15:27.123456Z") VNull.

Definition sample_mappers : mappers :=
  Mappers [("31", VNum 900)] [("2", VNum 5)] [("1", VNum 3)] [("4", VNum 8)]
          [("11", VNum 70)].

(** The callback of [services.map]: the record of one service, and the count
    when it has no treatment. *)
Definition service_record (m : mappers) base a observacionesMedicas comentariosCita
    (entry : nat * value) : M transform_state object :=
  let idTratamiento := mapped (treatmentMapper m) (snd entry) in
  _ <- (if truthy (snd entry) && negb (truthy idTratamiento) then
          count_missing bump_treatments
            [WarnTreatmentNotFound (appointment_id a) (snd entry)]
        else ret tt);
  ret (appointment_record base a observacionesMedicas comentariosCita
                          (fst entry) idTratamiento).


(** The shared members, the comments and the records of a kept appointment
    whose two dates came out as [fecha_creacion] and [fecha_modificacion]. *)
Definition base_of (clinic : clinic) (m : mappers) (a : appointment)
    (fecha_creacion fecha_modificacion : value) : object :=
  baseAppointmentData clinic a
    (mapped (patientMapping m) (cliente a)) (mapped (doctorMapper m) (user a))
    (mapped (stateMapper m) (estado a))
    (mapped (spaceMapper m) (hd VNull (recursos a)))
    fecha_creacion fecha_modificacion.

Definition comments_of (a : appointment) : string :=
  String.concat newline
    (map toString (List.filter truthy [observaciones a; notas a])).

Definition records_of (clinic : clinic) (m : mappers) (a : appointment)
    (fecha_creacion fecha_modificacion : value) : list object :=
  imap (fun index serviceId =>
          appointment_record (base_of clinic m a fecha_creacion fecha_modificacion)
            a (or_else (informacion_clinica a) VNull) (comments_of a) index
            (mapped (treatmentMapper m) serviceId))
       (services_of a).

(** The records of a batch that are marked primary. *)
Definition primaries (transformedBatch : list object) : list object :=
  List.filter (fun apt => truthy (prop "_isPrimary" apt)) transformedBatch.

(** The number of records an appointment is split into. *)
Definition fan_out (a : appointment) : nat := Nat.max 1 (length (servicios a)).

(** What a page adds to the four counters. *)
Definition page_warnings_of (m : mappers) (appointments : list appointment)
  : warnings :=
  let kept_ones := List.filter (kept m) appointments in
  Warnings
    (length (List.filter (fun a => negb (kept m a)) appointments))
    (length (List.filter (fun a => unmapped (doctorMapper m) (user a)) kept_ones))
    (sum_list (map (fun a => length (List.filter (unmapped (treatmentMapper m))
                                                 (servicios a)))
                   kept_ones))
    (length (List.filter (fun a => unmapped (spaceMapper m) (hd VNull (recursos a)))
                         kept_ones)).

Definition add_warnings (a b : warnings) : warnings :=
  Warnings (missingPatients a + missingPatients b)
           (missingDoctors a + missingDoctors b)
           (missingTreatments a + missingTreatments b)
           (missingSpaces a + missingSpaces b).

(** An appointment of a patient the store does not know, and a page. *)
Definition stray_appointment : appointment :=
  Appointment (VNum 8) (VNum 99) VNull VNull [] [] VNull VNull VNull VNull VNull
              VNull VNull VNull.

Definition sample_page : list appointment :=
  [sample_appointment; stray_appointment].

(** The batch the sample page is transformed into. *)
Definition sample_batch : list object :=
  match fst (transform_page sample_clinic sample_mappers sample_page no_warnings) with
  | Returned batch => batch
  | Thrown _ => []
  end.

(** The last row of the store that gives [key] as its [old_id]. *)
Definition last_patient (key : string) (dbPatients : list object) : option object :=
  last (List.filter (fun patient => truthy (prop "old_id" patient)
                                    && String.eqb (toString (prop "old_id" patient)) key)
                    dbPatients).

(** Rows of patients of which two give the same [old_id] and one gives
    none. *)
Definition patient_rows : list object :=
  [[("id_paciente", VNum 900); ("old_id", VStr "31")];
   [("id_paciente", VNum 901); ("old_id", VNull)];
   [("id_paciente", VNum 902); ("old_id", VNum 31)]].



(** A value identifiers are made of: not an array and not an object. *)
Definition primitive (v : value) : Prop :=
  match v with VArr _ | VObj _ => False | _ => True end.

(** The error [express.json()] raises for a body that is not JSON, and a
    store error. *)
Definition json_failure (err : ErrorMiddleware.failure) : bool :=
  ErrorMiddleware.isSyntaxError err
  && ErrorMiddleware.is_number_value (ErrorMiddleware.err_status err) 400
  && ErrorMiddleware.hasBody err.

Definition is_text (v : value) : bool :=
  match v with VStr _ => true | _ => false end.

Definition store_failure : ErrorMiddleware.failure :=
  ErrorMiddleware.Failure false false (VNum 409) (VStr "ER_DUP_ENTRY") VUndef VUndef
    (VStr "Error") (VStr "Duplicate entry '3' for key 'old_id'")
    (VStr "Error: Duplicate entry").







(* ===================================================================== *)
(** * Properties *)
(* ===================================================================== *)

(** ** The model at work *)

(** The default sort compares through [String(v)], keeps the order of equal
    elements and sends [undefined] to the end. *)
Example sort_by_text :
  sort [VNum 10; VNum 9; VNum 1; VUndef; VStr "1"; VNull]
  = [VNum 1; VStr "1"; VNum 10; VNum 9; VNull; VUndef].
Proof. reflexivity. Qed.

Example stringify_array :
  JSON_stringify (VArr [VNum 10; VUndef; VObj [("k", VUndef); ("x", VNum (-3))];
                        VNull; VBool true])
  = "[10,null,{" +:+ dquote +:+ "x" +:+ dquote +:+ ":-3},null,true]".
Proof. reflexivity. Qed.

Example cache_key_of_taxes :
  cache_key "tax" api_taxes db_taxes = Returned "tax_[1,2]_[5]".
Proof. reflexivity. Qed.

Example cache_key_of_null_item :
  cache_key "tax" [VNull] db_taxes
  = Thrown (new_Error "Cannot read properties of null (reading 'id')").
Proof. reflexivity. Qed.

Example chunkArray_five_by_two :
  chunkArray [1; 2; 3; 4; 5] 2 = [[1; 2]; [3; 4]; [5]].
Proof. reflexivity. Qed.

Example sanitizeRecords_reports :
  sanitizeRecords [sample_record; [("nombre", VStr "")]] ["nombre"; "telefono"]
  = ([[("nombre", VStr "Ana"); ("telefono", VNull); ("old_id", VNum 7)];
      [("nombre", VStr "")]],
     [WarnUndefinedFields "record 0" ["telefono"];
      WarnMissingRequired 0 ["telefono"]; WarnMissingRequired 1 ["nombre"]]).
Proof. reflexivity. Qed.

(** A chunk whose third record the store rejects: two rows were written,
    the transaction is rolled back, the connection released. *)
Example insertBatch_rejected :
  let '(result, w) :=
    insertBatch "pacientes" five_records 1 (world_with [rejecting 2]) in
  result = Returned (BatchResult false 0 (Some 1) None
                       (Some "Duplicate entry '3' for key 'old_id'")
                       (VStr "ER_DUP_ENTRY"))
  /\ committed w = [] /\ pending w = [] /\ leased w = 0
  /\ trace w = [CallGetConnection; CallBeginTransaction;
                CallExecute "pacientes" 5; CallRollback; CallRelease].
Proof. vm_compute. done. Qed.

(** ** Running effectful code *)

Lemma bind_run {S A B} (m : M S A) (k : A -> M S B) (s : S) :
  bind m k s = match m s with
               | (Returned a, s') => k a s'
               | (Thrown e, s') => (Thrown e, s')
               end.
Proof. reflexivity. Qed.

(** ** Objects *)

Section objects.
Implicit Types (o fields : object) (k key : string) (v : value).

Lemma lookup_field_not_in key fields :
  key ∉ keys fields -> lookup_field key fields = None.
Proof.
  induction fields as [|[k x] rest IH]; simpl; [done|].
  intros Hnot. apply not_elem_of_cons in Hnot as [Hne Hrest].
  destruct (String.eqb_spec k key); [congruence | auto].
Qed.

Lemma lookup_field_app_r key pre suf :
  key ∉ keys pre -> lookup_field key (pre ++ suf) = lookup_field key suf.
Proof.
  induction pre as [|[k x] rest IH]; simpl; [done|].
  intros Hnot. apply not_elem_of_cons in Hnot as [Hne Hrest].
  destruct (String.eqb_spec k key); [congruence | auto].
Qed.

Lemma lookup_field_elem key v fields :
  lookup_field key fields = Some v -> (key, v) ∈ fields.
Proof.
  induction fields as [|[k x] rest IH]; simpl; [done|].
  destruct (String.eqb_spec k key) as [->|Hne].
  - intros [= ->]. left.
  - intros H. right. auto.
Qed.



Lemma assign_fresh key v fields :
  key ∉ keys fields -> assign key v fields = fields ++ [(key, v)].
Proof.
  induction fields as [|[k x] rest IH]; simpl; [done|].
  intros Hnot. apply not_elem_of_cons in Hnot as [Hne Hrest].
  destruct (String.eqb_spec k key); [congruence|]. by rewrite IH.
Qed.

End objects.

(** ** utils/validators.js *)



(** ** config/database.js and the batch insert *)

Lemma sanitizeRecord_fst requiredFields index record :
  fst (sanitizeRecord requiredFields index record) = convertUndefinedToNull record.
Proof. unfold sanitizeRecord. by destruct (findUndefinedFields _ _). Qed.

Lemma sanitizeRecords_fst records requiredFields :
  fst (sanitizeRecords records requiredFields)
  = map convertUndefinedToNull records.
Proof.
  unfold sanitizeRecords. simpl.
  generalize (sanitizeRecord_fst requiredFields).
  generalize (sanitizeRecord requiredFields) as f.
  induction records as [|r rs IH]; intros f Hf; simpl; [done|].
  rewrite Hf. f_equal. apply IH. intros i r'. apply Hf.
Qed.

Lemma sanitizeRecords_length records requiredFields :
  length (fst (sanitizeRecords records requiredFields)) = length records.
Proof. by rewrite sanitizeRecords_fst, length_map. Qed.

Ltac run_store :=
  unfold beginTransaction, execute, commit, rollback, release, log, emit,
    bind, gets, modify, ret, throw; simpl.

Ltac close_run :=
  eexists; (split; [reflexivity|]); simpl;
  rewrite ?app_nil_r, <- ?app_assoc; done.

(** One transaction around one [execute]: how it ends, and the store
    afterwards. *)
Lemma transaction_execute_run stmt values w :
  let plan := hd no_faults (script w) in
  let failed := transaction_error plan values in
  exists w',
    transaction (fun connection => execute connection stmt values) w
    = (if failed is Some e then Thrown e else Returned tt, w')
    /\ committed w'
       = committed w ++ (if failed is Some _ then [] else bound_rows stmt values)
    /\ pending w' = (if fail_acquire plan is Some _ then pending w else [])
    /\ leased w' = leased w
    /\ script w' = tail (script w)
    /\ trace w'
       = trace w ++ transaction_calls plan (into stmt) (groups stmt) values.
Proof.
  cbv zeta.
  unfold transaction, getConnection, try_finally, try_catch,
    pool_getConnection, emit, modify, gets, bind, ret, throw. simpl.
  destruct w as [com pen lea scr cur con tra]. simpl.
  unfold transaction_error, transaction_calls.
  destruct scr as [|[fa fb fe fc fr] scr]; simpl.
  - run_store. destruct (existsb is_undefined values); simpl; close_run.
  - run_store.
    destruct fa as [ea|]; simpl; [close_run|].
    destruct fb as [eb|]; simpl; [destruct fr; simpl; close_run|].
    destruct (existsb is_undefined values); simpl;
      [destruct fr; simpl; close_run|].
    destruct fe as [[k ee]|]; simpl; [destruct fr; simpl; close_run|].
    destruct fc as [ec|]; simpl; [destruct fr; simpl; close_run|].
    close_run.
Qed.

(** One non-empty batch: the result, and the store afterwards. *)
Lemma insertBatch_run tableName records batchNumber w :
  records <> [] ->
  let plan := hd no_faults (script w) in
  let failed := transaction_error plan (batch_values records) in
  exists w',
    insertBatch tableName records batchNumber w
    = (Returned (insert_result batchNumber (length records) failed), w')
    /\ committed w'
       = committed w ++ (if failed is Some _ then [] else batch_rows tableName records)
    /\ pending w' = (if fail_acquire plan is Some _ then pending w else [])
    /\ leased w' = leased w
    /\ script w' = tail (script w)
    /\ trace w'
       = trace w ++ transaction_calls plan tableName (length records)
                                      (batch_values records).
Proof.
  intros Hne. cbv zeta.
  unfold batch_rows, batch_values, batch_columns.
  rewrite <- (sanitizeRecords_length records []).
  unfold insertBatch.
  destruct records as [|r rs]; [done|].
  change (length (r :: rs) =? 0) with false. cbv iota.
  destruct (sanitizeRecords (r :: rs) []) as [sanitized lines].
  unfold try_catch, with_console, log_all, modify. unfold bind at 1 2. cbn [fst snd].
  unfold ret at 1. unfold bind at 1.
  set (w1 := World _ _ _ _ _ _ _).
  destruct (transaction_execute_run
              (Insert tableName (keys (hd [] sanitized)) (length sanitized))
              (flat_map (fun record : object =>
                           map (fun col => prop col record) (keys (hd [] sanitized)))
                        sanitized) w1)
    as (w' & -> & Hcom & Hpen & Hlea & Hscr & Htra).
  subst w1. simpl in *.
  destruct (transaction_error _ _) as [e|]; simpl.
  - unfold log, modify, bind, ret. simpl. eexists. split; [reflexivity|]. simpl.
    done.
  - unfold ret. eexists. split; [reflexivity|]. done.
Qed.









(** *** Records of any member names *)














(** ** services/batch.service.js: the chunked load *)

Section chunks.
Context {A : Type}.
Implicit Types (l : list A) (K i j : nat).

Lemma ceil_div_lt N K j : 0 < K -> j < ceil_div N K <-> j * K < N.
Proof.
  intros HK. unfold ceil_div. split.
  - intros Hj.
    assert (K * S j <= N + K - 1); [|lia].
    etransitivity; [|apply (Nat.Div0.mul_div_le _ K)].
    apply Nat.mul_le_mono_l. lia.
  - intros Hj. apply Nat.div_le_lower_bound with (q := S j); lia.
Qed.

Lemma ceil_div_bounds N K :
  0 < K -> N <= ceil_div N K * K /\ ceil_div N K * K < N + K.
Proof.
  intros HK. split.
  - destruct (Nat.le_gt_cases N (ceil_div N K * K)) as [|Hlt]; [done|].
    apply ceil_div_lt in Hlt; [lia|done].
  - destruct (ceil_div N K) as [|n] eqn:Hn; [lia|].
    assert (Hlt : n < ceil_div N K) by lia.
    apply ceil_div_lt in Hlt; [lia|done].
Qed.

Lemma ceil_div_le N K : 0 < K -> ceil_div N K <= N.
Proof. intros HK. pose proof (ceil_div_bounds N K HK). nia. Qed.

Lemma slice_min (a b : nat) l :
  slice a (Nat.min b (length l)) l = slice a b l.
Proof.
  unfold slice. destruct (Nat.le_gt_cases b (length l)) as [Hle|Hgt].
  - by rewrite Nat.min_l.
  - rewrite Nat.min_r by lia.
    rewrite !take_ge; [done| |]; rewrite length_drop; lia.
Qed.

Lemma slice_nonempty (a K : nat) l :
  0 < K -> a < length l -> slice a (a + K) l <> [].
Proof.
  intros HK Ha Hnil. apply (f_equal length) in Hnil.
  unfold slice in Hnil. rewrite length_take, length_drop in Hnil.
  simpl in Hnil. lia.
Qed.


Lemma chunk_loop_chunks l K fuel j :
  0 < K -> ceil_div (length l) K - j <= fuel ->
  chunk_loop fuel (j * K) K l
  = map (fun i => slice (i * K) (i * K + K) l) (seq j (ceil_div (length l) K - j)).
Proof.
  intros HK. revert j. induction fuel as [|fuel IH]; intros j Hfuel; simpl.
  - by replace (ceil_div (length l) K - j) with 0 by lia.
  - destruct (Nat.ltb_spec (j * K) (length l)) as [Hlt|Hge].
    + apply ceil_div_lt in Hlt as Hj; [|done].
      replace (ceil_div (length l) K - j)
        with (S (ceil_div (length l) K - S j)) by lia.
      simpl. f_equal.
      replace (j * K + K) with (S j * K) by lia.
      apply IH. lia.
    + assert (~ j < ceil_div (length l) K) as Hj
        by (rewrite ceil_div_lt by done; lia).
      by replace (ceil_div (length l) K - j) with 0 by lia.
Qed.

Lemma chunkArray_chunks l K :
  0 < K ->
  chunkArray l K
  = map (fun i => slice (i * K) (i * K + K) l) (seq 0 (ceil_div (length l) K)).
Proof.
  intros HK. unfold chunkArray.
  change (chunk_loop (length l) 0 K l) with (chunk_loop (length l) (0 * K) K l).
  rewrite (chunk_loop_chunks l K (length l) 0 HK).
  - by rewrite Nat.sub_0_r.
  - pose proof (ceil_div_le (length l) K HK). lia.
Qed.

Lemma concat_slices l K j n :
  0 < K ->
  concat (map (fun i => slice (i * K) (i * K + K) l) (seq j n))
  = slice (j * K) (j * K + n * K) l.
Proof.
  intros HK. revert j. induction n as [|n IH]; intros j; simpl.
  - unfold slice. replace (j * K + 0 - j * K) with 0 by lia. done.
  - rewrite IH. unfold slice.
    replace (j * K + K - j * K) with K by lia.
    replace (S j * K + n * K - S j * K) with (n * K) by lia.
    replace (j * K + (K + n * K) - j * K) with (K + n * K) by lia.
    replace (S j * K) with (j * K + K) by lia.
    rewrite <- drop_drop, <- take_take_drop. done.
Qed.

Lemma chunkArray_concat l K : 0 < K -> concat (chunkArray l K) = l.
Proof.
  intros HK. rewrite chunkArray_chunks, concat_slices by done.
  unfold slice. simpl. rewrite drop_0, Nat.sub_0_r.
  apply take_ge. pose proof (ceil_div_bounds (length l) K HK). lia.
Qed.
End chunks.

Lemma transaction_calls_one_request plan tableName rows values :
  connection_requests (transaction_calls plan tableName rows values) = 1.
Proof.
  unfold connection_requests, transaction_calls.
  destruct plan as [fa fb fe fc fr]; simpl.
  destruct fa; [done|]. destruct fb; [done|]. simpl.
  destruct (existsb is_undefined values); [done|].
  destruct fe; [done|]. destruct fc; done.
Qed.

Lemma connection_requests_app t1 t2 :
  connection_requests (t1 ++ t2) = connection_requests t1 + connection_requests t2.
Proof. unfold connection_requests. by rewrite List.filter_app, length_app. Qed.

Lemma call_onBatchComplete_run onBatchComplete result number total w :
  callback_returns onBatchComplete ->
  exists w',
    call_onBatchComplete onBatchComplete result number total w = (Returned tt, w')
    /\ committed w' = committed w /\ pending w' = pending w
    /\ leased w' = leased w /\ script w' = script w
    /\ connection_requests (trace w') = connection_requests (trace w).
Proof.
  destruct onBatchComplete as [callback|]; simpl; intros Hcb.
  - unfold bind, emit, modify. simpl. rewrite Hcb. eexists. split; [done|]. simpl.
    rewrite connection_requests_app. unfold connection_requests at 2. simpl.
    repeat split; lia.
  - unfold ret. by eexists.
Qed.

Section loop.
Variables (tableName : string) (records : list object) (K total : nat).
Variable onBatchComplete : option batch_callback.
Variable plan_of : nat -> faults.
Hypothesis K_pos : 0 < K.
Hypothesis callback_ok : callback_returns onBatchComplete.

Let failure_at (i : nat) : option error :=
  chunk_failure (plan_of i) (chunk records K i).

Lemma batches_loop_run remaining : forall i stats w,
  i + remaining <= ceil_div (length records) K ->
  (forall m, nth m (script w) no_faults = plan_of (i + m)) ->
  exists stats' w',
    batches_loop tableName records K (length records) total onBatchComplete
                 remaining i stats w
    = (Returned stats', w')
    /\ BatchService.totalRecords stats' = BatchService.totalRecords stats
    /\ totalBatches stats' = totalBatches stats
    /\ successfulBatches stats' + failedBatches stats'
       = successfulBatches stats + failedBatches stats + remaining
    /\ failedBatches stats' + length (errors stats)
       = failedBatches stats + length (errors stats')
    /\ errors stats'
       = errors stats
         ++ flat_map (fun j => error_entries K j (failure_at j)) (seq i remaining)
    /\ insertedRecords stats'
       = insertedRecords stats
         + sum_list (map (fun j => inserted_count (chunk records K j) (failure_at j))
                         (seq i remaining))
    /\ committed w'
       = committed w
         ++ flat_map (fun j => inserted_rows tableName (chunk records K j)
                                             (failure_at j))
                     (seq i remaining)
    /\ leased w' = leased w
    /\ script w' = drop remaining (script w)
    /\ connection_requests (trace w')
       = connection_requests (trace w) + remaining.
Proof.
  induction remaining as [|remaining IH]; intros i stats w Hi Hplan.
  - simpl. unfold ret. exists stats, w. rewrite !app_nil_r, drop_0.
    repeat split; lia.
  - cbn [batches_loop]. cbv zeta. rewrite slice_min.
    assert (Hne : chunk records K i <> []).
    { apply slice_nonempty; [done|]. apply ceil_div_lt; [done|lia]. }
    unfold bind at 1.
    destruct (insertBatch_run tableName (chunk records K i) (i + 1) w Hne)
      as (w1 & Hrun & Hcom1 & _ & Hlea1 & Hscr1 & Htra1).
    unfold chunk in Hrun at 1. rewrite Hrun. clear Hrun.
    assert (Hhd : hd no_faults (script w) = plan_of i).
    { specialize (Hplan 0). rewrite Nat.add_0_r in Hplan.
      rewrite <- Hplan. by destruct (script w). }
    rewrite Hhd in *. fold (chunk_failure (plan_of i) (chunk records K i)) in *.
    fold (failure_at i) in *.
    unfold bind at 1.
    destruct (call_onBatchComplete_run onBatchComplete
                (insert_result (i + 1) (length (chunk records K i)) (failure_at i))
                (i + 1) total w1 callback_ok)
      as (w2 & -> & Hcom2 & _ & Hlea2 & Hscr2 & Htra2).
    set (stats1 := record_result stats i (i * K) _).
    destruct (IH (S i) stats1 w2) as (stats' & w' & -> & Htr & Htb & Hsum & Hfail
                                      & Herr & Hins & Hcom & Hlea & Hscr & Htra).
    { lia. }
    { intros m. rewrite Hscr2, Hscr1.
      replace (S i + m) with (i + S m) by lia. rewrite <- Hplan.
      destruct (script w); [by destruct m | done]. }
    assert (Hstats1 :
      BatchService.totalRecords stats1 = BatchService.totalRecords stats
      /\ totalBatches stats1 = totalBatches stats
      /\ successfulBatches stats1 + failedBatches stats1
         = successfulBatches stats + failedBatches stats + 1
      /\ failedBatches stats1 + length (errors stats)
         = failedBatches stats + length (errors stats1)
      /\ errors stats1 = errors stats ++ error_entries K i (failure_at i)
      /\ insertedRecords stats1
         = insertedRecords stats
           + inserted_count (chunk records K i) (failure_at i)).
    { subst stats1. unfold record_result, insert_result, error_entries,
        inserted_count.
      destruct (failure_at i) as [e|]; simpl; rewrite ?app_nil_r, ?length_app;
        simpl; repeat split; lia. }
    destruct Hstats1 as (Htr1 & Htb1 & Hsum1 & Hfail1 & Herr1 & Hins1).
    exists stats', w'. split; [done|].
    cbn [seq flat_map map sum_list].
    rewrite Herr, Herr1, Hcom, Hcom2, Hcom1, Hins, Hins1.
    rewrite Hlea, Hlea2, Hlea1, Hscr, Hscr2, Hscr1, Htra, Htra2, Htra1.
    rewrite connection_requests_app, transaction_calls_one_request.
    rewrite <- !app_assoc. unfold inserted_rows at 1.
    rewrite Herr, Herr1 in Hfail. rewrite Herr1 in Hfail1.
    rewrite ?length_app in *.
    repeat split; try lia; try done.
    + unfold id. lia.
    + destruct (script w); simpl; [by destruct remaining | done].
Qed.
End loop.


(** A whole run of [processBatches]: its statistics and the store
    afterwards, chunk by chunk. *)
Lemma processBatches_run tableName records K onBatchComplete w :
  0 < K -> callback_returns onBatchComplete ->
  let n := ceil_div (length records) K in
  let failure_at i :=
    chunk_failure (nth i (script w) no_faults) (chunk records K i) in
  exists stats w',
    processBatches tableName records K onBatchComplete w = (Returned stats, w')
    /\ BatchService.totalRecords stats = length records
    /\ totalBatches stats = n
    /\ successfulBatches stats + failedBatches stats = n
    /\ failedBatches stats = length (errors stats)
    /\ errors stats = flat_map (fun i => error_entries K i (failure_at i)) (seq 0 n)
    /\ insertedRecords stats
       = sum_list (map (fun i => inserted_count (chunk records K i) (failure_at i))
                       (seq 0 n))
    /\ committed w'
       = committed w
         ++ flat_map (fun i => inserted_rows tableName (chunk records K i)
                                             (failure_at i))
                     (seq 0 n)
    /\ leased w' = leased w
    /\ script w' = drop n (script w)
    /\ connection_requests (trace w') = connection_requests (trace w) + n.
Proof.
  intros HK Hcb n failure_at. unfold processBatches. cbv zeta. fold n.
  unfold bind at 1.
  destruct (batches_loop_run tableName records K n onBatchComplete
              (fun i => nth i (script w) no_faults) HK Hcb n 0
              (Stats (length records) n 0 0 0 []) w)
    as (stats & w1 & -> & Htr & Htb & Hsum & Hfail & Herr & Hins & Hcom & Hlea
        & Hscr & Htra); [done|done|].
  simpl in Htr, Htb, Hsum, Hfail, Herr, Hins.
  assert (Hlog : exists w',
    (_ <- (if 0 <? failedBatches stats
           then log (WarnBatchesFailed (failedBatches stats)) else ret tt);
     ret stats) w1 = (Returned stats, w')
    /\ committed w' = committed w1 /\ leased w' = leased w1
    /\ script w' = script w1 /\ trace w' = trace w1).
  { unfold bind, log, modify, ret. destruct (0 <? failedBatches stats); by eexists. }
  destruct Hlog as (w' & -> & Hcom' & Hlea' & Hscr' & Htra').
  exists stats, w'. split; [done|].
  rewrite Hcom', Hlea', Hscr', Htra', Hcom, Hlea, Hscr, Htra.
  repeat split; try done; lia.
Qed.








(** ** utils/api-client.js *)

Section pages.
Variables (client : http_client) (endpoint : string) (limit : nat).

Lemma get_run offset w :
  get client endpoint offset w
  = (match client endpoint offset with
     | Returned (data, status) => Returned (GetOk data status)
     | Thrown e =>
         Returned (GetFailed (message e) (response_status e) (response_data e))
     end, requested endpoint offset w).
Proof.
  unfold get, bind, emit, modify, requested, emit, modify. simpl.
  by destruct (client endpoint offset) as [[data status]|e].
Qed.

Lemma fetch_loop_run totalPages remaining : forall page allResults w,
  exists w',
    fetch_loop client endpoint limit totalPages remaining page allResults w
    = (Returned (allResults
                 ++ flat_map (page_records client endpoint limit)
                             (seq page remaining)), w')
    /\ console w'
       = console w ++ flat_map (page_warnings client endpoint limit totalPages)
                               (seq page remaining)
    /\ trace w'
       = trace w ++ map (fun p => HttpGet endpoint (p * limit)) (seq page remaining)
    /\ committed w' = committed w.
Proof.
  induction remaining as [|remaining IH]; intros page allResults w.
  - exists w. simpl. unfold ret. by rewrite !app_nil_r.
  - cbn [fetch_loop seq flat_map map]. cbv zeta. unfold bind at 1.
    rewrite get_run. unfold page_records at 1, page_warnings at 1.
    destruct (client endpoint (page * limit)) as [[data status]|e].
    + destruct (IH (S page) (allResults ++ results data) (requested endpoint (page * limit) w))
        as (w' & -> & Hcon & Htra & Hcom).
      exists w'. rewrite Hcon, Htra, Hcom. simpl.
      by rewrite <- !app_assoc.
    + unfold bind at 1, log, modify. cbv beta iota.
      match goal with
      | |- context [fetch_loop _ _ _ _ _ _ _ ?w1] =>
          destruct (IH (S page) allResults w1) as (w' & -> & Hcon & Htra & Hcom)
      end.
      exists w'. rewrite Hcon, Htra, Hcom. simpl.
      by rewrite <- !app_assoc.
Qed.

Lemma process_loop_run totalPages remaining : forall page w,
  exists w',
    process_loop client endpoint record_page limit totalPages remaining page w
    = (Returned tt, w')
    /\ console w'
       = console w ++ flat_map (page_warnings client endpoint limit totalPages)
                               (seq page remaining)
    /\ trace w'
       = trace w ++ flat_map (page_events client endpoint limit totalPages)
                             (seq page remaining)
    /\ committed w' = committed w.
Proof.
  induction remaining as [|remaining IH]; intros page w.
  - exists w. simpl. unfold ret. by rewrite !app_nil_r.
  - cbn [process_loop seq flat_map]. cbv zeta. unfold bind at 1.
    rewrite get_run. unfold page_events at 1, page_warnings at 1.
    destruct (client endpoint (page * limit)) as [[data status]|e].
    + unfold bind at 1, record_page at 1, emit, modify. cbv beta iota.
      match goal with
      | |- context [process_loop _ _ _ _ _ _ _ ?w1] =>
          destruct (IH (S page) w1) as (w' & -> & Hcon & Htra & Hcom)
      end.
      exists w'. rewrite Hcon, Htra, Hcom. simpl.
      by rewrite <- !app_assoc.
    + unfold bind at 1, log, modify. cbv beta iota.
      match goal with
      | |- context [process_loop _ _ _ _ _ _ _ ?w1] =>
          destruct (IH (S page) w1) as (w' & -> & Hcon & Htra & Hcom)
      end.
      exists w'. rewrite Hcon, Htra, Hcom. simpl.
      by rewrite <- !app_assoc.
Qed.

(** A later page whose request fails: a warning, and on to the next
    page, whatever the callback is. *)
Lemma process_loop_skip processFn totalPages remaining page e w :
  client endpoint (page * limit) = Thrown e ->
  process_loop client endpoint processFn limit totalPages (S remaining) page w
  = process_loop client endpoint processFn limit totalPages remaining (S page)
      (warned (WarnPageSkipped (page + 1) totalPages)
              (requested endpoint (page * limit) w)).
Proof.
  intros He. cbn [process_loop]. cbv zeta. unfold bind at 1.
  rewrite get_run, He. unfold bind at 1. done.
Qed.

Lemma fetch_loop_skip totalPages remaining page allResults e w :
  client endpoint (page * limit) = Thrown e ->
  fetch_loop client endpoint limit totalPages (S remaining) page allResults w
  = fetch_loop client endpoint limit totalPages remaining (S page) allResults
      (warned (WarnPageSkipped (page + 1) totalPages)
              (requested endpoint (page * limit) w)).
Proof.
  intros He. cbn [fetch_loop]. cbv zeta. unfold bind at 1.
  rewrite get_run, He. unfold bind at 1. done.
Qed.
End pages.

(** The two traversals once the first page arrived. *)
Lemma getAllPaginated_run client endpoint limit first status w :
  client endpoint 0 = Returned (first, status) ->
  let pages := ceil_div (count first) limit in
  let later := seq 1 (pages - 1) in
  exists w',
    getAllPaginated client endpoint limit w
    = (Returned
         (Paginated true None
            (results first ++ flat_map (page_records client endpoint limit) later)
            (Some (count first))
            (Some (length (results first
                           ++ flat_map (page_records client endpoint limit)
                                       later)))), w')
    /\ console w'
       = console w ++ flat_map (page_warnings client endpoint limit pages) later
    /\ trace w'
       = trace w ++ map (fun p => HttpGet endpoint (p * limit)) (0 :: later).
Proof.
  intros Hfirst pages later.
  unfold getAllPaginated, try_catch. unfold bind at 1.
  rewrite get_run, Hfirst. cbv zeta. fold pages. unfold bind at 1.
  destruct (fetch_loop_run client endpoint limit pages (pages - 1) 1
              (results first) (requested endpoint 0 w))
    as (w' & -> & Hcon & Htra & _).
  exists w'. split; [done|]. rewrite Hcon, Htra. simpl.
  by rewrite <- app_assoc.
Qed.

Lemma processPaginatedInBatches_run client endpoint limit first status w :
  client endpoint 0 = Returned (first, status) ->
  let pages := ceil_div (count first) limit in
  let later := seq 1 (pages - 1) in
  exists w',
    processPaginatedInBatches client endpoint record_page limit w
    = (Returned (Processed true None (Some pages) (Some (count first))), w')
    /\ console w'
       = console w ++ flat_map (page_warnings client endpoint limit pages) later
    /\ trace w'
       = trace w ++ flat_map (page_events client endpoint limit pages) (0 :: later).
Proof.
  intros Hfirst pages later.
  unfold processPaginatedInBatches, try_catch. unfold bind at 1.
  rewrite get_run, Hfirst. cbv zeta. fold pages.
  unfold bind at 1, record_page at 1, emit at 1, modify at 1.
  unfold bind at 1.
  match goal with
  | |- context [process_loop _ _ _ _ _ _ _ ?w1] =>
      destruct (process_loop_run client endpoint limit pages (pages - 1) 1 w1)
        as (w' & -> & Hcon & Htra & _)
  end.
  exists w'. split; [done|]. rewrite Hcon, Htra.
  cbn [flat_map]. unfold page_events at 2. simpl. rewrite Hfirst.
  by rewrite <- !app_assoc.
Qed.

(** C7: in both traversals a first page whose request fails ends the
    operation with an unsuccessful result after that single request, no
    record fetched and the callback never called; once the first page
    succeeded, for a positive page size, the operation succeeds, every page
    up to the fixed page count is requested, and a later page whose request
    fails contributes no record (the callback is not called for it) and one
    warning, the pages after it being handled as usual. *)
Theorem first_page_fatal_later_pages_skipped client endpoint limit w :
  (forall processFn e,
     client endpoint 0 = Thrown e ->
     getAllPaginated client endpoint limit w
     = (Returned (Paginated false (Some (message e)) [] None None),
        requested endpoint 0 w)
     /\ processPaginatedInBatches client endpoint processFn limit w
        = (Returned (Processed false (Some (message e)) None None),
           requested endpoint 0 w))
  /\ (forall first status,
        0 < limit ->
        client endpoint 0 = Returned (first, status) ->
        let pages := ceil_div (count first) limit in
        let later := seq 1 (pages - 1) in
        (exists w',
           getAllPaginated client endpoint limit w
           = (Returned
                (Paginated true None
                   (results first ++ flat_map (page_records client endpoint limit) later)
                   (Some (count first))
                   (Some (length (results first
                                  ++ flat_map (page_records client endpoint limit)
                                              later)))), w')
           /\ console w'
              = console w ++ flat_map (page_warnings client endpoint limit pages) later
           /\ trace w'
              = trace w ++ map (fun p => HttpGet endpoint (p * limit)) (0 :: later))
        /\ (exists w',
              processPaginatedInBatches client endpoint record_page limit w
              = (Returned (Processed true None (Some pages) (Some (count first))), w')
              /\ console w'
                 = console w
                   ++ flat_map (page_warnings client endpoint limit pages) later
              /\ trace w'
                 = trace w
                   ++ flat_map (page_events client endpoint limit pages) (0 :: later)))
  /\ (forall processFn pages remaining page allResults e w0,
        client endpoint (page * limit) = Thrown e ->
        let skipped :=
          warned (WarnPageSkipped (page + 1) pages)
                 (requested endpoint (page * limit) w0) in
        fetch_loop client endpoint limit pages (S remaining) page allResults w0
        = fetch_loop client endpoint limit pages remaining (S page) allResults skipped
        /\ process_loop client endpoint processFn limit pages (S remaining) page w0
           = process_loop client endpoint processFn limit pages remaining (S page)
                          skipped).
Proof.
  split; [|split].
  - intros processFn e He.
    unfold getAllPaginated, processPaginatedInBatches, try_catch, bind.
    by rewrite !get_run, He.
  - intros first status Hlimit Hfirst pages later. split.
    + by apply getAllPaginated_run with (status := status).
    + by apply processPaginatedInBatches_run with (status := status).
  - intros processFn pages remaining page allResults e w0 He skipped. split.
    + by eapply fetch_loop_skip.
    + by eapply process_loop_skip.
Qed.

(** The theorem at a source that is down, and at one that loses its second
    page. *)
Lemma first_page_fatal_later_pages_skipped_witness :
  0 < 100
  /\ (getAllPaginated down_source "/main/users/" 100 empty_world
   = (Returned (Paginated false (Some "Request failed with status code 503")
                          [] None None),
      requested "/main/users/" 0 empty_world)
   /\ processPaginatedInBatches down_source "/main/users/" record_page 100
                                empty_world
      = (Returned (Processed false (Some "Request failed with status code 503")
                             None None),
         requested "/main/users/" 0 empty_world))
  /\ exists w',
       processPaginatedInBatches flaky_source "/agenda/citas/" record_page 100
                                 empty_world
       = (Returned (Processed true None (Some 3) (Some 250)), w')
       /\ console w' = [WarnPageSkipped 2 3]
       /\ trace w' = [HttpGet "/agenda/citas/" 0; CallProcessFn 0 100 3;
                      HttpGet "/agenda/citas/" 100;
                      HttpGet "/agenda/citas/" 200; CallProcessFn 2 50 3].
Proof.
  assert (Hlimit : 0 < 100) by lia.
  split; [exact Hlimit|]. split.
  - exact (proj1 (first_page_fatal_later_pages_skipped
                    down_source "/main/users/" 100 empty_world)
                 record_page outage eq_refl).
  - exact (proj2 (proj1 (proj2 (first_page_fatal_later_pages_skipped
                                  flaky_source "/agenda/citas/" 100 empty_world))
                        (Page 250 (take 100 mock_items)) 200 Hlimit eq_refl)).
Defined.

Lemma process_loop_later_totals client endpoint processFn limit retotal totalPages
    remaining : forall page w,
  0 < page * limit ->
  process_loop (with_later_totals retotal client) endpoint processFn limit
               totalPages remaining page w
  = process_loop client endpoint processFn limit totalPages remaining page w.
Proof.
  induction remaining as [|remaining IH]; intros page w Hpage; [done|].
  cbn [process_loop]. cbv zeta. rewrite !bind_run, !get_run.
  unfold with_later_totals at 1.
  destruct (Nat.eqb_spec (page * limit) 0) as [Hz|_]; [lia|].
  assert (Hnext : 0 < S page * limit) by lia.
  destruct (client endpoint (page * limit)) as [[data status]|e]; cbv beta iota.
  - rewrite !bind_run. cbn [results].
    destruct (processFn (results data) page totalPages _) as [[[]|e] w1];
      [by apply IH|done].
  - rewrite !bind_run. destruct (log _ _) as [[[]|e'] w1]; [by apply IH|done].
Qed.

(** C8: for a positive page size, [processPaginatedInBatches] takes the page
    count from the total the first page reports and from nothing else: the
    totals later pages report change neither its result nor anything it does,
    and the page count it returns is that of the first total.  Against a
    source of 250
    records served 100 at a time it calls the callback exactly three times,
    with 100, 100 and 50 records and a page count of 3, each call coming
    after the request of its page and before the request of the next. *)
Theorem processPaginatedInBatches_fixed_page_count :
  (forall client endpoint processFn limit retotal w,
     0 < limit ->
     processPaginatedInBatches (with_later_totals retotal client) endpoint
                               processFn limit w
     = processPaginatedInBatches client endpoint processFn limit w)
  /\ (forall client endpoint limit first status w,
        0 < limit ->
        client endpoint 0 = Returned (first, status) ->
        exists w',
          processPaginatedInBatches client endpoint record_page limit w
          = (Returned (Processed true None (Some (ceil_div (count first) limit))
                                 (Some (count first))), w'))
  /\ processPaginatedInBatches mock_source "/agenda/citas/" record_page 100
                               empty_world
     = (Returned (Processed true None (Some 3) (Some 250)),
        World [] [] 0 [] no_faults []
              [HttpGet "/agenda/citas/" 0; CallProcessFn 0 100 3;
               HttpGet "/agenda/citas/" 100; CallProcessFn 1 100 3;
               HttpGet "/agenda/citas/" 200; CallProcessFn 2 50 3]).
Proof.
  split; [|split].
  - intros client endpoint processFn limit retotal w Hlimit.
    unfold processPaginatedInBatches, try_catch. rewrite !bind_run, !get_run.
    unfold with_later_totals at 1. cbn [Nat.eqb].
    destruct (client endpoint 0) as [[first status]|e]; [|done].
    cbv beta iota zeta. rewrite !bind_run.
    destruct (processFn (results first) 0 _ _) as [[[]|e] w1]; [|done].
    rewrite !bind_run.
    destruct (ceil_div (count first) limit - 1) as [|remaining] eqn:Hpages; [done|].
    rewrite process_loop_later_totals; [done|lia].
  - intros client endpoint limit first status w Hlimit Hfirst.
    destruct (processPaginatedInBatches_run client endpoint limit first status w
                Hfirst) as (w' & Hrun & _).
    by exists w'.
  - vm_compute. reflexivity.
Qed.

(** The theorem at the source that loses its second page. *)
Lemma processPaginatedInBatches_fixed_page_count_witness :
  0 < 100
  /\ exists w',
       processPaginatedInBatches flaky_source "/agenda/citas/" record_page 100
                                 empty_world
       = (Returned (Processed true None (Some 3) (Some 250)), w').
Proof.
  assert (Hlimit : 0 < 100) by lia.
  split; [exact Hlimit|].
  exact (proj1 (proj2 processPaginatedInBatches_fixed_page_count)
               flaky_source "/agenda/citas/" 100 (Page 250 (take 100 mock_items))
               200 empty_world Hlimit eq_refl).
Defined.

(** ** services/ai-mapper.service.js *)

Lemma member_run {S} (v : value) (key : string) (s : S) :
  member v key s = (fst (member (S := unit) v key tt), s).
Proof. by destruct v. Qed.

Lemma first_value_run {S} (item : value) (s : S) :
  first_value item s = (fst (first_value (S := unit) item tt), s).
Proof. destruct item as [| | | |[|c rest]| |]; done. Qed.

Lemma map_M_run {S A B} (f : A -> M S B) (g : A -> M unit B) (items : list A) (s : S) :
  (forall x s, f x s = (fst (g x tt), s)) ->
  map_M f items s = (fst (map_M g items tt), s).
Proof.
  intros Hf. induction items as [|x items IH]; simpl; [done|].
  rewrite !bind_run, Hf. destruct (g x tt) as [[y|e] []]; simpl; [|done].
  rewrite !bind_run, IH. by destruct (map_M g items tt) as [[ys|e] []].
Qed.

(** The key is computed without touching the state, from the sorted
    identifiers alone. *)
Lemma generateCacheKey_run {S} entityType apiResult dbResult (s : S) :
  generateCacheKey entityType apiResult dbResult s
  = (match sorted (source_ids apiResult) with
     | Thrown e => Thrown e
     | Returned ids =>
         match sorted (target_keys dbResult) with
         | Thrown e => Thrown e
         | Returned firsts =>
             Returned (entityType +:+ "_" +:+ JSON_stringify (VArr ids)
                       +:+ "_" +:+ JSON_stringify (VArr firsts))
         end
     end, s).
Proof.
  unfold generateCacheKey, source_ids, target_keys, sorted.
  rewrite bind_run.
  rewrite (map_M_run _ (fun item => member item "id")) by (intros; apply member_run).
  destruct (map_M _ apiResult tt) as [[ids|e] []]; simpl; [|done].
  rewrite bind_run.
  rewrite (map_M_run _ first_value) by (intros; apply first_value_run).
  by destruct (map_M _ dbResult tt) as [[firsts|e] []].
Qed.

Lemma generateCacheKey_cache_key {S} entityType apiResult dbResult (s : S) :
  generateCacheKey entityType apiResult dbResult s
  = (cache_key entityType apiResult dbResult, s).
Proof. unfold cache_key. by rewrite !generateCacheKey_run. Qed.

Lemma cache_key_sorted entityType api1 db1 api2 db2 :
  sorted (source_ids api1) = sorted (source_ids api2) ->
  sorted (target_keys db1) = sorted (target_keys db2) ->
  cache_key entityType api1 db1 = cache_key entityType api2 db2.
Proof.
  intros Hids Hfirsts. unfold cache_key.
  by rewrite !generateCacheKey_run, Hids, Hfirsts.
Qed.

Lemma mapping_error_reports e : reports_error (mapping_error e) = true.
Proof. reflexivity. Qed.

(** A request whose key is in the cache is answered from the cache, and
    nothing else happens. *)
Lemma mapData_hit ai entityType apiResult dbResult options s key cached :
  cache_key entityType apiResult dbResult = Returned key ->
  mapperCache s !! key = Some cached ->
  mapData ai entityType apiResult dbResult options s = (Returned cached, s).
Proof.
  intros Hkey Hhit. unfold mapData, try_catch.
  rewrite bind_run, generateCacheKey_cache_key, Hkey.
  rewrite bind_run. unfold gets. by rewrite Hhit.
Qed.

(** A request whose key is not in the cache goes to the oracle once; the
    reply is returned as it is when it reports an error, returned and cached
    when its [mapper] and [missing] members pass the checks, and turned into
    a tagged error otherwise. *)
Lemma mapData_miss ai entityType apiResult dbResult options s key reply :
  cache_key entityType apiResult dbResult = Returned key ->
  mapperCache s !! key = None ->
  ai (oracle_calls s) entityType apiResult dbResult options = Returned reply ->
  exists result s',
    mapData ai entityType apiResult dbResult options s = (Returned result, s')
    /\ oracle_calls s' = S (oracle_calls s)
    /\ if reports_error reply then
         result = reply /\ mapperCache s' = mapperCache s
       else if accepted reply then
         result = reply /\ mapperCache s' = <[key := reply]> (mapperCache s)
       else
         (exists msg, result = mapping_error (new_Error msg))
         /\ mapperCache s' = mapperCache s.
Proof.
  intros Hkey Hmiss Hreply.
  assert (Hstart :
    mapData ai entityType apiResult dbResult options s
    = try_catch
        (reported <- member reply "error";
         if truthy reported then
           msg <- member reply "message";
           _ <- mapper_log (ErrMappingReported entityType msg);
           ret reply
         else
           mapper <- member reply "mapper";
           if negb (truthy mapper) || negb (typeof_object mapper) then
             throw (new_Error "Invalid mapper structure in AI response")
           else
             missing <- member reply "missing";
             if negb (isArray missing) then
               throw (new_Error "Invalid missing structure in AI response")
             else
               _ <- cache_set key reply;
               ret reply)
        (fun error =>
           _ <- mapper_log (ErrMappingFailed entityType (message error));
           ret (mapping_error error))
        (MapperState (mapperCache s) (S (oracle_calls s)) (mapper_console s))).
  { unfold mapData, try_catch.
    rewrite bind_run, generateCacheKey_cache_key, Hkey.
    rewrite bind_run. unfold gets. rewrite Hmiss.
    rewrite bind_run. unfold ask at 1. by rewrite Hreply. }
  rewrite Hstart. clear Hstart.
  destruct reply as [| |b|z|str|items|fields];
    try (eexists _, _; split; [reflexivity|]; split; [reflexivity|];
         split; [by eexists | reflexivity]).
  unfold reports_error, accepted, mapper_checked, missing_checked.
  unfold try_catch, member. rewrite bind_run. unfold ret at 1.
  destruct (truthy (prop "error" fields)).
  { eexists _, _. split; [reflexivity|]. done. }
  rewrite bind_run. unfold ret at 1. rewrite <- negb_andb.
  destruct (truthy (prop "mapper" fields) && typeof_object (prop "mapper" fields));
    cbn [negb andb].
  2:{ eexists _, _. split; [reflexivity|]. split; [done|]. split; [by eexists|done]. }
  rewrite bind_run. unfold ret at 1.
  destruct (isArray (prop "missing" fields)); cbn [negb].
  - eexists _, _. split; [reflexivity|]. done.
  - eexists _, _. split; [reflexivity|]. split; [done|]. split; [by eexists|done].
Qed.

(** [mapData] always resolves: whatever the oracle does, nothing is thrown
    to the caller. *)
Lemma mapData_returns ai entityType apiResult dbResult options s :
  exists result s',
    mapData ai entityType apiResult dbResult options s = (Returned result, s').
Proof.
  unfold mapData, try_catch.
  match goal with
  | |- context [match ?body s with _ => _ end] => destruct (body s) as [[result|e] s1]
  end.
  - by eexists _, _.
  - unfold bind, mapper_log, modify, ret. simpl. by eexists _, _.
Qed.


(** C2, as the code has it: [mapData] never throws; on a reply that reports
    no error it checks that [mapper] is a non-null value of type object (an
    array passes) and that [missing] is an array, and nothing about the values
    inside [mapper]: when both checks pass the reply itself is returned and
    cached, otherwise the caller gets the tagged error [AI_MAPPING_ERROR] and
    nothing is cached. *)
Theorem mapData_checks_mapper_and_missing :
  (forall ai entityType apiResult dbResult options s,
     exists result s',
       mapData ai entityType apiResult dbResult options s = (Returned result, s'))
  /\ (forall ai entityType apiResult dbResult options s key reply,
        cache_key entityType apiResult dbResult = Returned key ->
        mapperCache s !! key = None ->
        ai (oracle_calls s) entityType apiResult dbResult options = Returned reply ->
        reports_error reply = false ->
        exists result s',
          mapData ai entityType apiResult dbResult options s = (Returned result, s')
          /\ if accepted reply then
               result = reply
               /\ mapperCache s' = <[key := reply]> (mapperCache s)
             else
               (exists msg,
                  result = mapping_error (new_Error msg)
                  /\ member (S := unit) result "error" tt
                     = (Returned (VStr "AI_MAPPING_ERROR"), tt))
               /\ mapperCache s' = mapperCache s).
Proof.
  split; [apply mapData_returns|].
  intros ai entityType apiResult dbResult options s key reply Hkey Hmiss Hreply Herr.
  destruct (mapData_miss ai entityType apiResult dbResult options s key reply
              Hkey Hmiss Hreply) as (result & s' & Hrun & _ & Hcases).
  exists result, s'. split; [exact Hrun|].
  rewrite Herr in Hcases.
  destruct (accepted reply); [done|].
  destruct Hcases as [[msg ->] Hcache]. split; [|done]. by exists msg.
Qed.

(** The theorem at a well-formed reply. *)
Lemma mapData_checks_mapper_and_missing_witness :
  exists result s',
    mapData sound_oracle "tax" api_taxes db_taxes default_options fresh_mapper
    = (Returned result, s')
    /\ result = sound_reply
    /\ mapperCache s' = <[ "tax_[1,2]_[5]" := sound_reply ]> ∅.
Proof.
  destruct (proj2 mapData_checks_mapper_and_missing
              sound_oracle "tax" api_taxes db_taxes default_options fresh_mapper
              "tax_[1,2]_[5]" sound_reply eq_refl eq_refl eq_refl eq_refl)
    as (result & s' & Hrun & Hresult & Hcache).
  exists result, s'. split; [exact Hrun|]. split; [exact Hresult | exact Hcache].
Defined.

(** C2, counterexample: a reply whose [mapper] holds the text [abc] and an
    empty object, neither of which stands for an identifier, is returned to
    the caller as a mapping. *)
Lemma mapData_accepts_uncoercible_mapper_values :
  forallb coercible_to_id (mapper_values careless_reply) = false
  /\ fst (mapData careless_oracle "tax" api_taxes db_taxes default_options
                  fresh_mapper)
     = Returned careless_reply
  /\ reports_error careless_reply = false.
Proof. split; [|split]; vm_compute; reflexivity. Qed.







(** ** migrations/koibox/citas.js *)

Lemma lookup_field_assign key v fields :
  lookup_field key (assign key v fields) = Some v.
Proof.
  induction fields as [|[k x] rest IH]; simpl.
  - by rewrite String.eqb_refl.
  - destruct (String.eqb_spec k key) as [->|Hne]; simpl.
    + by rewrite String.eqb_refl.
    + by destruct (String.eqb_spec k key).
Qed.

(** Every secondary appointment is handed on; one whose primary the re-query
    did not find carries a [null] reference. *)
Lemma clean_secondary_unresolved primaryIdMapping secondaryAppointments :
  length (map (clean_secondary primaryIdMapping) secondaryAppointments)
  = length secondaryAppointments
  /\ forall apt,
       truthy (prop (toString (prop "_originalId" apt)) primaryIdMapping) = false ->
       prop "id_cita_reference" (clean_secondary primaryIdMapping apt) = VNull.
Proof.
  split; [apply length_map|].
  intros apt Hmissing. unfold clean_secondary, prop at 1.
  by rewrite lookup_field_assign, Hmissing.
Qed.

(** C1, the code at a page whose primary record the store rejects: the
    re-query finds no primary for appointment 7, and its secondary record is
    nevertheless handed to [processBatches] and stored, its
    [id_cita_reference] being [null]; it is counted among the inserted
    records and no warning counter moves.  When the store accepts the
    primary, the secondary is stored with the generated key of its
    primary. *)
Theorem citas_orphan_secondary_is_inserted :
  fst orphaned_page
  = Returned (GlobalStats 2 2 1 1 1
                [BatchError 1 0 (Some "Duplicate entry '3' for key 'old_id'")
                            (VStr "ER_DUP_ENTRY")]
                (Warnings 0 0 0 0))
  /\ committed (snd orphaned_page)
     = [("citas",
         [("id_paciente", VNum 12); ("id_tratamiento", VNum 4);
          ("id_clinica", VNum 1); ("id_super_clinica", VNum 1);
          ("old_id", VNum 7); ("id_cita_reference", VNull)])]
  /\ fst linked_page = Returned (GlobalStats 2 2 2 0 2 [] (Warnings 0 0 0 0))
  /\ committed (snd linked_page)
     = [("citas",
         [("id_paciente", VNum 12); ("id_tratamiento", VNum 3);
          ("id_clinica", VNum 1); ("id_super_clinica", VNum 1);
          ("old_id", VNum 7); ("id_cita_reference", VNull)]);
        ("citas",
         [("id_paciente", VNum 12); ("id_tratamiento", VNum 4);
          ("id_clinica", VNum 1); ("id_super_clinica", VNum 1);
          ("old_id", VNum 7); ("id_cita_reference", VNum 1)])].
Proof. repeat split; vm_compute; reflexivity. Qed.

(** ** services/ai-mapper.service.js: more on the cache *)

(** The six ways a call of [mapData] goes. *)
Lemma mapData_cases ai entityType apiResult dbResult options s :
  exists result s',
    mapData ai entityType apiResult dbResult options s = (Returned result, s')
    /\ ((exists e,
           cache_key entityType apiResult dbResult = Thrown e
           /\ result = mapping_error e
           /\ oracle_calls s' = oracle_calls s
           /\ mapperCache s' = mapperCache s)
        \/ (exists key,
              cache_key entityType apiResult dbResult = Returned key
              /\ mapperCache s !! key = Some result
              /\ s' = s)
        \/ (exists key,
              cache_key entityType apiResult dbResult = Returned key
              /\ mapperCache s !! key = None
              /\ oracle_calls s' = S (oracle_calls s)
              /\ match ai (oracle_calls s) entityType apiResult dbResult options with
                 | Thrown e =>
                     result = mapping_error e /\ mapperCache s' = mapperCache s
                 | Returned reply =>
                     if reports_error reply then
                       result = reply /\ mapperCache s' = mapperCache s
                     else if accepted reply then
                       result = reply
                       /\ mapperCache s' = <[key := reply]> (mapperCache s)
                     else
                       (exists msg, result = mapping_error (new_Error msg))
                       /\ mapperCache s' = mapperCache s
                 end)).
Proof.
  destruct (cache_key entityType apiResult dbResult) as [key|e] eqn:Hkey.
  2:{ eexists _, _. split.
      - unfold mapData, try_catch.
        rewrite bind_run, generateCacheKey_cache_key, Hkey. reflexivity.
      - left. exists e. done. }
  destruct (mapperCache s !! key) as [cached|] eqn:Hcache.
  { exists cached, s. split; [by eapply mapData_hit|]. right. left. by exists key. }
  destruct (ai (oracle_calls s) entityType apiResult dbResult options)
    as [reply|e] eqn:Hreply.
  - destruct (mapData_miss ai entityType apiResult dbResult options s key reply
                Hkey Hcache Hreply) as (result & s' & Hrun & Hcalls & Hcases).
    exists result, s'. split; [done|]. right. right. by exists key.
  - eexists _, _. split.
    + unfold mapData, try_catch.
      rewrite bind_run, generateCacheKey_cache_key, Hkey.
      rewrite bind_run. unfold gets. rewrite Hcache.
      rewrite bind_run. unfold ask at 1. rewrite Hreply. reflexivity.
    + right. right. by exists key.
Qed.

(** *** The default sort *)

Lemma sorts_before_total a b : sorts_before a b \/ sorts_before b a.
Proof.
  unfold sorts_before.
  destruct a, b; simpl; auto; apply String.leb_total.
Qed.

Lemma leb_trans (s1 s2 s3 : string) :
  String.leb s1 s2 = true -> String.leb s2 s3 = true -> String.leb s1 s3 = true.
Proof.
  intros H12 H23.
  assert (H : String.le s1 s3); [|by apply Is_true_true_1].
  transitivity s2; by apply Is_true_true_2.
Qed.

Lemma sorts_before_trans a b c :
  sorts_before a b -> sorts_before b c -> sorts_before a c.
Proof.
  unfold sorts_before.
  destruct a, b, c; simpl; try done; apply leb_trans.
Qed.

Lemma sort_insert_Permutation x l : sort_insert x l ≡ₚ x :: l.
Proof.
  induction l as [|y l IH]; simpl; [done|].
  destruct (sort_le x y); [done|]. rewrite IH. apply Permutation_swap.
Qed.

Lemma sort_Permutation l : sort l ≡ₚ l.
Proof.
  induction l as [|x l IH]; simpl; [done|].
  unfold sort in *. simpl. by rewrite sort_insert_Permutation, IH.
Qed.

Lemma sort_insert_sorted x l :
  StronglySorted sorts_before l -> StronglySorted sorts_before (sort_insert x l).
Proof.
  induction 1 as [|y l Hl IH Hy]; simpl.
  - repeat constructor.
  - destruct (sort_le x y) eqn:Hxy.
    + constructor; [by constructor|].
      constructor; [done|].
      eapply Forall_impl; [exact Hy|].
      intros z Hz. by eapply sorts_before_trans.
    + constructor; [done|].
      rewrite sort_insert_Permutation. constructor; [|done].
      destruct (sorts_before_total x y) as [Hle|Hle]; [|done].
      unfold sorts_before in Hle. congruence.
Qed.

Lemma sort_sorted l : StronglySorted sorts_before (sort l).
Proof.
  induction l as [|x l IH]; [constructor|].
  unfold sort in *. simpl. by apply sort_insert_sorted.
Qed.

(** Numbers sort the same way in whatever order they come. *)
Lemma sort_numbers_Permutation l1 l2 :
  l1 ≡ₚ l2 -> Forall is_number l1 -> sort l1 = sort l2.
Proof.
  intros Hperm Hnum.
  apply (StronglySorted_unique_strong sorts_before); try apply sort_sorted.
  - intros x1 x2 Hx1 Hx2 H12 H21.
    rewrite sort_Permutation in Hx1. rewrite sort_Permutation, <- Hperm in Hx2.
    rewrite Forall_forall in Hnum.
    destruct (Hnum _ Hx1) as [z1 ->]. destruct (Hnum _ Hx2) as [z2 ->].
    unfold sorts_before in *. simpl in *.
    f_equal. apply (inj pretty). by apply String.leb_antisym.
  - by rewrite !sort_Permutation.
Qed.

Lemma source_ids_objects items :
  Forall is_object items -> source_ids items = Returned (map id_of items).
Proof.
  unfold source_ids.
  induction 1 as [|item items [fields ->] _ IH]; simpl; [done|].
  rewrite !bind_run. simpl. rewrite bind_run.
  destruct (map_M _ items tt) as [[ids|e] []]; simpl in *; [|done].
  by injection IH as ->.
Qed.

Lemma target_keys_objects items :
  Forall is_object items -> target_keys items = Returned (map first_of items).
Proof.
  unfold target_keys.
  induction 1 as [|item items [fields ->] _ IH]; simpl; [done|].
  rewrite !bind_run. simpl. rewrite bind_run.
  destruct (map_M _ items tt) as [[ids|e] []]; simpl in *; [|done].
  by injection IH as ->.
Qed.

Lemma numeric_source_object item : numeric_source item -> is_object item.
Proof. intros (fields & z & -> & _). by eexists. Qed.

Lemma numeric_target_object item : numeric_target item -> is_object item.
Proof. intros (key & z & rest & ->). by eexists. Qed.

Lemma sorted_numeric_sources api1 api2 :
  api1 ≡ₚ api2 -> Forall numeric_source api1 ->
  sorted (source_ids api1) = sorted (source_ids api2).
Proof.
  intros Hperm Hnum.
  assert (Hnum2 : Forall numeric_source api2) by (by rewrite <- Hperm).
  rewrite !source_ids_objects
    by (eapply Forall_impl; [eassumption|apply numeric_source_object]).
  simpl. f_equal. apply sort_numbers_Permutation.
  - by apply Permutation_map.
  - apply Forall_fmap. eapply Forall_impl; [exact Hnum|].
    intros item (fields & z & -> & Hid). simpl. by exists z.
Qed.

Lemma sorted_numeric_targets db1 db2 :
  db1 ≡ₚ db2 -> Forall numeric_target db1 ->
  sorted (target_keys db1) = sorted (target_keys db2).
Proof.
  intros Hperm Hnum.
  assert (Hnum2 : Forall numeric_target db2) by (by rewrite <- Hperm).
  rewrite !target_keys_objects
    by (eapply Forall_impl; [eassumption|apply numeric_target_object]).
  simpl. f_equal. apply sort_numbers_Permutation.
  - by apply Permutation_map.
  - apply Forall_fmap. eapply Forall_impl; [exact Hnum|].
    intros item (key & z & rest & ->). simpl. by exists z.
Qed.

(** X1: for source items whose [id] is a number and target items whose first
    member is a number, the cache key is computed and does not depend on the
    order of the items in either collection. *)
Theorem cache_key_order_independent entityType api1 api2 db1 db2 :
  api1 ≡ₚ api2 -> db1 ≡ₚ db2 ->
  Forall numeric_source api1 -> Forall numeric_target db1 ->
  cache_key entityType api1 db1 = cache_key entityType api2 db2
  /\ exists key, cache_key entityType api1 db1 = Returned key.
Proof.
  intros Hapi Hdb Hsrc Htgt. split.
  - apply cache_key_sorted.
    + by apply sorted_numeric_sources.
    + by apply sorted_numeric_targets.
  - unfold cache_key. rewrite generateCacheKey_run.
    rewrite source_ids_objects
      by (eapply Forall_impl; [eassumption|apply numeric_source_object]).
    rewrite target_keys_objects
      by (eapply Forall_impl; [eassumption|apply numeric_target_object]).
    by eexists.
Qed.

(** The theorem at the two tax types in both orders. *)
Lemma cache_key_order_independent_witness :
  cache_key "tax" api_taxes db_taxes = cache_key "tax" (reverse api_taxes) db_taxes.
Proof.
  refine (proj1 (cache_key_order_independent "tax" api_taxes (reverse api_taxes)
                   db_taxes db_taxes _ _ _ _)).
  - apply Permutation_sym, reverse_Permutation.
  - reflexivity.
  - repeat constructor; by eexists _, _.
  - repeat constructor; by eexists _, _, _.
Defined.

Lemma map_M_nullish (f : value -> M unit value) items :
  (forall item, nullish item = true -> exists msg, f item tt = (Thrown (new_Error msg), tt)) ->
  (forall item, nullish item = false -> exists v, f item tt = (Returned v, tt)) ->
  if existsb nullish items
  then exists msg, fst (map_M f items tt) = Thrown (new_Error msg)
  else exists vs, fst (map_M f items tt) = Returned vs.
Proof.
  intros Hthrow Hret. induction items as [|item items IH]; simpl; [by eexists|].
  rewrite bind_run. destruct (nullish item) eqn:Hitem; simpl.
  - destruct (Hthrow item Hitem) as [msg ->]. by exists msg.
  - destruct (Hret item Hitem) as [v ->]. rewrite bind_run.
    destruct (existsb nullish items).
    + destruct IH as [msg IH]. exists msg.
      destruct (map_M f items tt) as [[vs|e] []]; simpl in *; congruence.
    + destruct IH as [vs IH].
      destruct (map_M f items tt) as [[vs'|e] []]; simpl in *; [by eexists|done].
Qed.

Lemma source_ids_nullish items :
  if existsb nullish items
  then exists msg, source_ids items = Thrown (new_Error msg)
  else exists ids, source_ids items = Returned ids.
Proof.
  apply map_M_nullish.
  - intros [] Hitem; try done; by eexists.
  - intros [] Hitem; try done; by eexists.
Qed.

Lemma target_keys_nullish items :
  if existsb nullish items
  then exists msg, target_keys items = Thrown (new_Error msg)
  else exists firsts, target_keys items = Returned firsts.
Proof.
  apply map_M_nullish.
  - intros [] Hitem; try done; by eexists.
  - intros [| | | |[|c s]| |] Hitem; try done; by eexists.
Qed.

Lemma cache_key_nullish entityType apiResult dbResult :
  if existsb nullish (apiResult ++ dbResult)
  then exists msg, cache_key entityType apiResult dbResult = Thrown (new_Error msg)
  else exists key, cache_key entityType apiResult dbResult = Returned key.
Proof.
  unfold cache_key. rewrite generateCacheKey_run, existsb_app.
  pose proof (source_ids_nullish apiResult) as Hsrc.
  pose proof (target_keys_nullish dbResult) as Htgt.
  destruct (existsb nullish apiResult); simpl.
  - destruct Hsrc as [msg ->]. by exists msg.
  - destruct Hsrc as [ids ->]. simpl.
    destruct (existsb nullish dbResult).
    + destruct Htgt as [msg ->]. by exists msg.
    + destruct Htgt as [firsts ->]. by eexists.
Qed.

(** X2: a [null] or [undefined] item in either collection makes [mapData]
    resolve to the tagged error [AI_MAPPING_ERROR] before the cache is read:
    the oracle is not asked and the cache is left as it was.  Without such an
    item the cache key is always computed. *)
Theorem mapData_null_item ai entityType apiResult dbResult options s :
  (existsb nullish (apiResult ++ dbResult) = true ->
   exists msg s',
     mapData ai entityType apiResult dbResult options s
     = (Returned (mapping_error (new_Error msg)), s')
     /\ oracle_calls s' = oracle_calls s
     /\ mapperCache s' = mapperCache s)
  /\ (existsb nullish (apiResult ++ dbResult) = false ->
      exists key, cache_key entityType apiResult dbResult = Returned key).
Proof.
  pose proof (cache_key_nullish entityType apiResult dbResult) as Hkey.
  split; intros Hnull; rewrite Hnull in Hkey; [|done].
  destruct Hkey as [msg Hkey]. exists msg. eexists. split.
  - unfold mapData, try_catch.
    rewrite bind_run, generateCacheKey_cache_key, Hkey. reflexivity.
  - done.
Qed.

(** The theorem at a source collection that holds a [null]. *)
Lemma mapData_null_item_witness :
  exists msg s',
    mapData sound_oracle "tax" (api_taxes ++ [VNull]) db_taxes default_options
            fresh_mapper
    = (Returned (mapping_error (new_Error msg)), s')
    /\ oracle_calls s' = 0.
Proof.
  destruct (proj1 (mapData_null_item sound_oracle "tax" (api_taxes ++ [VNull])
                     db_taxes default_options fresh_mapper) eq_refl)
    as (msg & s' & Hrun & Hcalls & _).
  exists msg, s'. split; [exact Hrun | exact Hcalls].
Defined.

(** X3: when the request to the oracle fails, [mapData] resolves to the
    tagged error [AI_MAPPING_ERROR] carrying the message of the failure (and
    the body of the HTTP answer, when there is one, as its details), after
    exactly one request, and caches nothing: the same call made again asks
    the oracle again. *)
Theorem mapData_oracle_failure ai entityType apiResult dbResult options s key e :
  cache_key entityType apiResult dbResult = Returned key ->
  mapperCache s !! key = None ->
  ai (oracle_calls s) entityType apiResult dbResult options = Thrown e ->
  exists s',
    mapData ai entityType apiResult dbResult options s
    = (Returned (VObj [("error", VStr "AI_MAPPING_ERROR");
                       ("message", VStr (message e));
                       ("details", if truthy (response_data e)
                                   then response_data e
                                   else VObj [("message", VStr (message e))])]), s')
    /\ oracle_calls s' = S (oracle_calls s)
    /\ mapperCache s' = mapperCache s.
Proof.
  intros Hkey Hcache Hreply. eexists. split.
  - unfold mapData, try_catch.
    rewrite bind_run, generateCacheKey_cache_key, Hkey.
    rewrite bind_run. unfold gets. rewrite Hcache.
    rewrite bind_run. unfold ask at 1. rewrite Hreply. reflexivity.
  - done.
Qed.

(** The theorem at an oracle that cannot be reached. *)
Lemma mapData_oracle_failure_witness :
  exists s',
    mapData failing_oracle "tax" api_taxes db_taxes default_options fresh_mapper
    = (Returned (VObj [("error", VStr "AI_MAPPING_ERROR");
                       ("message", VStr "Connection error.");
                       ("details", VObj [("reason", VStr "timeout")])]), s')
    /\ oracle_calls s' = 1
    /\ mapperCache s' = ∅.
Proof.
  exact (mapData_oracle_failure failing_oracle "tax" api_taxes db_taxes
           default_options fresh_mapper "tax_[1,2]_[5]" unreachable
           eq_refl eq_refl eq_refl).
Defined.

(** X4: a call of [mapData] never removes or replaces a cached mapping, adds
    at most one, asks the oracle at most once, and leaves the cache as it was
    whenever it resolves to an error result. *)
Theorem mapData_cache_grows ai entityType apiResult dbResult options s result s' :
  mapData ai entityType apiResult dbResult options s = (Returned result, s') ->
  (forall key cached,
     mapperCache s !! key = Some cached -> mapperCache s' !! key = Some cached)
  /\ (reports_error result = true -> mapperCache s' = mapperCache s)
  /\ (size (mapperCache s') = size (mapperCache s)
      \/ size (mapperCache s') = S (size (mapperCache s)))
  /\ (oracle_calls s' = oracle_calls s \/ oracle_calls s' = S (oracle_calls s)).
Proof.
  intros Hrun.
  destruct (mapData_cases ai entityType apiResult dbResult options s)
    as (result0 & s0 & Hrun0 & Hcases).
  rewrite Hrun in Hrun0. injection Hrun0 as <- <-.
  destruct Hcases as [(e & _ & _ & Hcalls & Hcache)
                     |[(key & _ & _ & ->)
                      |(key & _ & Hmiss & Hcalls & Hcases)]].
  - rewrite Hcache, Hcalls. auto.
  - auto.
  - rewrite Hcalls.
    destruct (ai (oracle_calls s) entityType apiResult dbResult options)
      as [reply|e].
    + destruct (reports_error reply) eqn:Herr.
      { destruct Hcases as [-> ->]. auto. }
      destruct (accepted reply).
      * destruct Hcases as [-> ->]. rewrite Herr.
        split; [|split; [done|split; [|auto]]].
        -- intros k cached Hk. rewrite lookup_insert_ne; [done|]. congruence.
        -- right. by apply map_size_insert_None.
      * destruct Hcases as [_ ->]. auto.
    + destruct Hcases as [_ ->]. auto.
Qed.

(** The theorem at the tax request answered by the sound oracle. *)
Lemma mapData_cache_grows_witness :
  size (mapperCache cached_state) = 0 \/ size (mapperCache cached_state) = 1.
Proof.
  exact (proj1 (proj2 (proj2 (mapData_cache_grows sound_oracle "tax" api_taxes
                                db_taxes default_options fresh_mapper sound_reply
                                cached_state eq_refl)))).
Defined.

(* ===================================================================== *)
(** ** Clearing and inspecting the cache *)

Lemma prefix_app (p r : string) : String.prefix p (p +:+ r) = true.
Proof.
  induction p as [|c p IH]; [by destruct r|].
  change (String c p +:+ r) with (String c (p +:+ r)). simpl.
  by destruct (Ascii.ascii_dec c c).
Qed.

Lemma string_app_assoc (a b c : string) : (a +:+ b) +:+ c = a +:+ (b +:+ c).
Proof.
  induction a as [|x a IH]; [done|].
  change ((String x a +:+ b) +:+ c) with (String x ((a +:+ b) +:+ c)).
  by rewrite IH.
Qed.

Lemma prefix_app_l (p q key : string) :
  String.prefix (p +:+ q) key = true -> String.prefix p key = true.
Proof.
  revert key. induction p as [|c p IH]; intros key; [by destruct key|].
  change (String c p +:+ q) with (String c (p +:+ q)).
  destruct key as [|k key]; simpl; [done|].
  destruct (Ascii.ascii_dec c k); [apply IH|done].
Qed.

Lemma truthy_string (text : string) : text <> "" -> truthy (VStr text) = true.
Proof. intros Htext. simpl. by destruct text. Qed.

Lemma cache_key_prefix entityType apiResult dbResult key :
  cache_key entityType apiResult dbResult = Returned key ->
  String.prefix (entityType +:+ "_") key = true.
Proof.
  unfold cache_key. rewrite generateCacheKey_run. simpl.
  destruct (sorted (source_ids apiResult)) as [ids|e]; [|done].
  destruct (sorted (target_keys dbResult)) as [firsts|e]; [|done].
  intros [= <-].
  change (entityType +:+ "_" +:+ JSON_stringify (VArr ids) +:+ "_"
          +:+ JSON_stringify (VArr firsts))
    with (entityType +:+ ("_" +:+ (JSON_stringify (VArr ids) +:+ "_"
          +:+ JSON_stringify (VArr firsts)))).
  rewrite <- string_app_assoc. apply prefix_app.
Qed.

Lemma clearCache_lookup entityType s key :
  truthy entityType = true ->
  mapperCache (cleared entityType s) !! key
  = if String.prefix (toString entityType +:+ "_") key then None
    else mapperCache s !! key.
Proof.
  intros Htruthy. unfold cleared, clearCache, modify. rewrite Htruthy. simpl.
  destruct (String.prefix (toString entityType +:+ "_") key) eqn:Hprefix.
  - apply map_lookup_filter_None. right. intros x _. simpl. congruence.
  - destruct (mapperCache s !! key) as [x|] eqn:Hkey.
    + by apply map_lookup_filter_Some.
    + apply map_lookup_filter_None. by left.
Qed.

(** Clearing an entity type forgets its requests. *)
Lemma clearCache_forgets (entityType : string) s apiResult dbResult key :
  entityType <> "" ->
  cache_key entityType apiResult dbResult = Returned key ->
  mapperCache (cleared (VStr entityType) s) !! key = None
  /\ oracle_calls (cleared (VStr entityType) s) = oracle_calls s.
Proof.
  intros Htype Hkey. pose proof (truthy_string entityType Htype) as Htruthy.
  split.
  - rewrite clearCache_lookup by done. simpl.
    by rewrite (cache_key_prefix _ _ _ _ Hkey).
  - unfold cleared, clearCache, modify. by rewrite Htruthy.
Qed.

(** X5: [clearCache] with an entity type forgets every cached mapping of
    that type and keeps every entry whose key does not start with the type
    and an underscore; it also forgets the mappings of any other entity type
    whose name continues the given one after an underscore. *)
Theorem clearCache_by_type (entityType : string) s :
  entityType <> "" ->
  (forall apiResult dbResult key,
     cache_key entityType apiResult dbResult = Returned key ->
     mapperCache (cleared (VStr entityType) s) !! key = None)
  /\ (forall rest apiResult dbResult key,
        cache_key (entityType +:+ "_" +:+ rest) apiResult dbResult = Returned key ->
        mapperCache (cleared (VStr entityType) s) !! key = None)
  /\ (forall key,
        String.prefix (entityType +:+ "_") key = false ->
        mapperCache (cleared (VStr entityType) s) !! key = mapperCache s !! key)
  /\ oracle_calls (cleared (VStr entityType) s) = oracle_calls s.
Proof.
  intros Htype. pose proof (truthy_string entityType Htype) as Htruthy.
  repeat split.
  - intros apiResult dbResult key Hkey.
    rewrite clearCache_lookup by done. simpl.
    by rewrite (cache_key_prefix _ _ _ _ Hkey).
  - intros rest apiResult dbResult key Hkey.
    rewrite clearCache_lookup by done. simpl.
    apply cache_key_prefix in Hkey.
    rewrite <- !string_app_assoc in Hkey.
    by rewrite (prefix_app_l _ _ _ (prefix_app_l _ _ _ Hkey)).
  - intros key Hprefix. rewrite clearCache_lookup by done. simpl.
    by rewrite Hprefix.
  - unfold cleared, clearCache, modify. by rewrite Htruthy.
Qed.

(** The theorem at the tax request: its mapping is forgotten. *)
Lemma clearCache_by_type_witness :
  mapperCache (cleared (VStr "tax") cached_state) !! "tax_[1,2]_[5]" = None.
Proof.
  refine (proj1 (clearCache_by_type "tax" cached_state _)
            api_taxes db_taxes "tax_[1,2]_[5]" eq_refl).
  done.
Defined.

(** X6: once [clearCache] was called with its entity type, a request whose
    key can be computed is sent to the oracle again, whatever was cached
    before. *)
Theorem mapData_after_clearCache ai (entityType : string) apiResult dbResult options s :
  entityType <> "" ->
  existsb nullish (apiResult ++ dbResult) = false ->
  oracle_calls
    (snd (mapData ai entityType apiResult dbResult options
            (cleared (VStr entityType) s)))
  = S (oracle_calls s).
Proof.
  intros Htype Hnull.
  pose proof (cache_key_nullish entityType apiResult dbResult) as Hkey.
  rewrite Hnull in Hkey. destruct Hkey as [key Hkey].
  destruct (mapData_cases ai entityType apiResult dbResult options
              (cleared (VStr entityType) s))
    as (result & s' & -> & [(e & He & _)|[(key' & Hk & Hhit & _)|(key' & _ & _ & Hasked & _)]]).
  - congruence.
  - destruct (clearCache_forgets entityType s _ _ _ Htype Hk) as [Hforgot _].
    by rewrite Hforgot in Hhit.
  - destruct (clearCache_forgets entityType s _ _ _ Htype Hkey) as [_ Hcalls].
    simpl. by rewrite Hasked, Hcalls.
Qed.

(** The theorem at the cached tax request: the second request reaches the
    oracle. *)
Lemma mapData_after_clearCache_witness :
  oracle_calls
    (snd (mapData sound_oracle "tax" api_taxes db_taxes default_options
            (cleared (VStr "tax") cached_state)))
  = 2.
Proof.
  refine (mapData_after_clearCache sound_oracle "tax" api_taxes db_taxes
            default_options cached_state _ eq_refl).
  done.
Defined.

(** X7: [clearCache] without an entity type ([null], [undefined] or the empty
    string) empties the cache: no key is cached any more and [getCacheStats]
    reports size 0 and no keys; the count of requests made is not reset. *)
Theorem clearCache_all entityType s :
  truthy entityType = false ->
  (forall key, mapperCache (cleared entityType s) !! key = None)
  /\ stats_of (cleared entityType s) = Returned (CacheStats 0 [])
  /\ oracle_calls (cleared entityType s) = oracle_calls s.
Proof.
  intros Hfalsy. unfold stats_of, getCacheStats, gets, cleared, clearCache, modify.
  rewrite Hfalsy. simpl. split; [|split].
  - intros key. apply lookup_empty.
  - by rewrite map_size_empty, map_to_list_empty.
  - done.
Qed.

(** The theorem at the default argument after the tax request was cached. *)
Lemma clearCache_all_witness :
  stats_of (cleared VNull cached_state) = Returned (CacheStats 0 []).
Proof.
  exact (proj1 (proj2 (clearCache_all VNull cached_state eq_refl))).
Defined.

(** X8: [getCacheStats] leaves the cache alone and reports as many keys as
    its size says, each once, and exactly the keys under which a mapping is
    cached. *)
Theorem getCacheStats_keys s :
  exists stats,
    getCacheStats s = (Returned stats, s)
    /\ cached stats = length (cached_keys stats)
    /\ NoDup (cached_keys stats)
    /\ forall key, key ∈ cached_keys stats <-> is_Some (mapperCache s !! key).
Proof.
  eexists. split; [reflexivity|]. simpl. split; [|split].
  - by rewrite length_map, length_map_to_list.
  - apply NoDup_fst_map_to_list.
  - intros key. rewrite list_elem_of_fmap. split.
    + intros ([k x] & -> & Hin). apply elem_of_map_to_list in Hin. by eexists.
    + intros [x Hx]. exists (key, x). split; [done|]. by apply elem_of_map_to_list.
Qed.

(* ===================================================================== *)
(** ** The middlewares *)

Section auth.
Import AuthMiddleware.

Lemma substring_whole (s : string) : String.substring 0 (String.length s) s = s.
Proof. induction s as [|c s IH]; simpl; [done|by rewrite IH]. Qed.

Lemma substring_from_bearer (token : string) :
  substring_from 7 ("Bearer " +:+ token) = token.
Proof.
  unfold substring_from.
  unfold String.append. simpl. rewrite Nat.sub_0_r. apply substring_whole.
Qed.

Lemma bearer_split (s : string) :
  String.prefix "Bearer " s = true -> s = "Bearer " +:+ substring_from 7 s.
Proof.
  intros Hprefix.
  apply String.prefix_correct in Hprefix.
  destruct s as [|c1 [|c2 [|c3 [|c4 [|c5 [|c6 [|c7 token]]]]]]];
    simpl in Hprefix; try done.
  injection Hprefix as -> -> -> -> -> -> -> _.
  pose proof (substring_from_bearer token) as Htoken.
  unfold String.append in Htoken. simpl in Htoken.
  unfold String.append. simpl. by rewrite Htoken.
Qed.

Lemma validateBearerToken_run req :
  validateBearerToken req
  = match authorization req with
    | VStr header =>
        if String.eqb header "" then
          (Returned (rejection 401 "MISSING_AUTHORIZATION"
                               "Authorization header is required"), req)
        else if String.prefix "Bearer " header then
          if String.eqb (substring_from 7 header) "" then
            (Returned (rejection 401 "MISSING_TOKEN" "Bearer token is empty"), req)
          else (Returned Next, with_token req (substring_from 7 header))
        else
          (Returned (rejection 401 "INVALID_AUTHORIZATION_FORMAT"
                               "Authorization must be Bearer token"), req)
    | header =>
        if truthy header then
          (Returned (rejection 500 "AUTH_ERROR"
                               "authHeader.startsWith is not a function"), req)
        else
          (Returned (rejection 401 "MISSING_AUTHORIZATION"
                               "Authorization header is required"), req)
    end.
Proof.
  unfold validateBearerToken, try_catch. rewrite bind_run. unfold gets.
  destruct (authorization req) as [| |b|z|header|items|fields] eqn:Hheader;
    try reflexivity.
  - by destruct b.
  - simpl. by destruct (Z.eqb z 0).
  - simpl. destruct (String.eqb header ""); [done|]. simpl.
    rewrite bind_run. unfold startsWith, ret.
    destruct (String.prefix "Bearer " header); [|done]. simpl.
    by destruct (String.eqb (substring_from 7 header) "").
Qed.

(** X9: [validateBearerToken] never throws.  It calls [next()] exactly when
    the authorization header is the text [Bearer ] followed by a token that
    is not empty, and then stores that very token in [req.bearerToken]; in
    every other case it leaves the request as it was and answers: 401
    [MISSING_AUTHORIZATION] when the header is falsy (absent, [null], the
    empty text, 0, [false]); 500 [AUTH_ERROR], and this exactly, when the
    header is truthy and not a text; 401 [INVALID_AUTHORIZATION_FORMAT] when
    it is a text, not empty, that does not start with [Bearer ]; 401
    [MISSING_TOKEN] when it is the text [Bearer ] alone. *)
Theorem validateBearerToken_accepts req :
  (forall token,
     token <> "" -> authorization req = VStr ("Bearer " +:+ token) ->
     validateBearerToken req = (Returned Next, with_token req token))
  /\ (fst (validateBearerToken req) = Returned Next ->
      exists token,
        token <> "" /\ authorization req = VStr ("Bearer " +:+ token))
  /\ (exists h, fst (validateBearerToken req) = Returned h)
  /\ (fst (validateBearerToken req) <> Returned Next ->
      snd (validateBearerToken req) = req)
  /\ (truthy (authorization req) = false ->
      fst (validateBearerToken req)
      = Returned (rejection 401 "MISSING_AUTHORIZATION"
                            "Authorization header is required"))
  /\ (truthy (authorization req) = true -> is_text (authorization req) = false ->
      fst (validateBearerToken req)
      = Returned (rejection 500 "AUTH_ERROR"
                            "authHeader.startsWith is not a function"))
  /\ (forall header,
        authorization req = VStr header -> header <> "" ->
        String.prefix "Bearer " header = false ->
        fst (validateBearerToken req)
        = Returned (rejection 401 "INVALID_AUTHORIZATION_FORMAT"
                              "Authorization must be Bearer token"))
  /\ (authorization req = VStr "Bearer " ->
      fst (validateBearerToken req)
      = Returned (rejection 401 "MISSING_TOKEN" "Bearer token is empty"))
  /\ (answered (fst (validateBearerToken req)) = Some 500
      <-> truthy (authorization req) = true
          /\ is_text (authorization req) = false)
  /\ (answered (fst (validateBearerToken req)) = Some 401
      <-> truthy (authorization req) = false
          \/ (exists header,
                authorization req = VStr header
                /\ (String.prefix "Bearer " header = false
                    \/ header = "Bearer "))).
Proof.
  rewrite validateBearerToken_run.
  split; [|split; [|split; [|split; [|split; [|split; [|split; [|split; [|split]]]]]]]].
  - intros token Htoken ->.
    assert (String.eqb ("Bearer " +:+ token) "" = false) as -> by done.
    rewrite prefix_app, substring_from_bearer.
    by destruct token.
  - destruct (authorization req) as [| |b|z|header|items|fields]; simpl;
      try done; try (by destruct b); try (by destruct (Z.eqb z 0)).
    destruct (String.eqb header ""); [done|].
    destruct (String.prefix "Bearer " header) eqn:Hprefix; [|done].
    destruct (String.eqb (substring_from 7 header) "") eqn:Htoken; [done|].
    intros _. exists (substring_from 7 header). split.
    + intros Hempty. by rewrite Hempty in Htoken.
    + f_equal. by apply bearer_split.
  - destruct (authorization req) as [| |b|z|header|items|fields]; simpl;
      try (by eexists); try (destruct b; by eexists);
      try (destruct (Z.eqb z 0); by eexists).
    destruct (String.eqb header ""); [by eexists|].
    destruct (String.prefix "Bearer " header); [|by eexists].
    destruct (String.eqb (substring_from 7 header) ""); by eexists.
  - destruct (authorization req) as [| |b|z|header|items|fields]; simpl;
      try done; try (by destruct b); try (by destruct (Z.eqb z 0)).
    destruct (String.eqb header ""); [done|].
    destruct (String.prefix "Bearer " header); [|done].
    by destruct (String.eqb (substring_from 7 header) "").
  - destruct (authorization req) as [| |b|z|header|items|fields]; simpl;
      try done; try (by destruct b); try (by destruct (Z.eqb z 0)).
    by destruct (String.eqb header "").
  - destruct (authorization req) as [| |b|z|header|items|fields]; simpl;
      try done; try (by destruct b); try (by destruct (Z.eqb z 0)).
  - intros header -> Hheader Hprefix. rewrite Hprefix.
    by destruct (String.eqb_spec header "").
  - by intros ->.
  - destruct (authorization req) as [| |b|z|header|items|fields]; simpl;
      try (split; [done|by intros [? ?]]).
    + destruct b; split; done || by intros [? ?].
    + destruct (Z.eqb z 0); split; done || by intros [? ?].
    + destruct (String.eqb header ""); [split; done || by intros [? ?]|].
      destruct (String.prefix "Bearer " header); [|split; done || by intros [? ?]].
      destruct (String.eqb (substring_from 7 header) "");
        split; done || by intros [? ?].
  - destruct (authorization req) as [| |b|z|header|items|fields] eqn:Hheader;
      simpl.
    + split; [by left|done].
    + split; [by left|done].
    + destruct b; simpl.
      * split; [done|]. intros [?|(header & ? & _)]; done.
      * split; [by left|done].
    + destruct (Z.eqb z 0); simpl.
      * split; [by left|done].
      * split; [done|]. intros [?|(header & ? & _)]; done.
    + destruct (String.eqb_spec header "") as [->|Hne]; simpl.
      { split; [by left|done]. }
      destruct (String.prefix "Bearer " header) eqn:Hprefix.
      * destruct (String.eqb_spec (substring_from 7 header) "") as [Hempty|Htoken];
          simpl.
        -- split; [|done]. intros _. right. exists header. split; [done|]. right.
           by rewrite (bearer_split header Hprefix), Hempty.
        -- split; [done|]. intros [Hfalsy|(header' & Hsame & [Hnot|Halone])].
           ++ done.
           ++ injection Hsame as <-. congruence.
           ++ injection Hsame as <-. subst header. by destruct Htoken.
      * split; [|done]. intros _. right. exists header. split; [done|by left].
    + split; [done|]. intros [?|(header & ? & _)]; done.
    + split; [done|]. intros [?|(header & ? & _)]; done.
Qed.

(** The theorem at a request that carries a token. *)
Lemma validateBearerToken_accepts_witness :
  validateBearerToken bearer_request
  = (Returned Next, with_token bearer_request "s3cr3t").
Proof.
  refine (proj1 (validateBearerToken_accepts bearer_request) "s3cr3t" _ eq_refl).
  done.
Defined.

Lemma validateClinicData_run req :
  validateClinicData req
  = (match body req with
     | VUndef | VNull =>
         Returned (rejection 500 "VALIDATION_ERROR"
                     ("Cannot destructure property 'clinic' of 'req.body' as it is "
                      +:+ toString (body req) +:+ "."))
     | VObj fields =>
         match prop "clinic" fields with
         | VObj clinic =>
             if negb (truthy (prop "id_clinica" clinic))
                || negb (truthy (prop "id_super_clinica" clinic)) then
               Returned (rejection 400 "INVALID_CLINIC_DATA"
                  "clinic.id_clinica and clinic.id_super_clinica are required")
             else if negb (typeof_number (prop "id_clinica" clinic))
                     || negb (typeof_number (prop "id_super_clinica" clinic)) then
               Returned (rejection 400 "INVALID_CLINIC_DATA_TYPE"
                                   "clinic IDs must be numbers")
             else Returned Next
         | clinic =>
             if truthy clinic then
               Returned (rejection 400 "INVALID_CLINIC_DATA"
                  "clinic.id_clinica and clinic.id_super_clinica are required")
             else
               Returned (rejection 400 "MISSING_CLINIC_DATA"
                                   "clinic object is required in request body")
         end
     | _ => Returned (rejection 400 "MISSING_CLINIC_DATA"
                                "clinic object is required in request body")
     end, req).
Proof.
  unfold validateClinicData, try_catch. rewrite bind_run. unfold gets.
  destruct (body req) as [| |b|z|text|items|fields] eqn:Hbody; try reflexivity.
  rewrite bind_run. simpl.
  destruct (prop "clinic" fields) as [| |b|z|text|items|clinic];
    try reflexivity.
  - by destruct b.
  - simpl. by destruct (Z.eqb z 0).
  - simpl. by destruct (String.eqb text "").
  - change (negb (truthy (VObj clinic))) with false. cbv iota.
    unfold member, ret, bind. cbv beta iota.
    destruct (negb (truthy (prop "id_clinica" clinic))
              || negb (truthy (prop "id_super_clinica" clinic))); [done|].
    by destruct (negb (typeof_number (prop "id_clinica" clinic))
                 || negb (typeof_number (prop "id_super_clinica" clinic))).
Qed.

(** X10: [validateClinicData] calls [next()] exactly when the body is an
    object whose [clinic] is an object with numbers other than 0 as
    [id_clinica] and [id_super_clinica]; otherwise it answers with status
    400, or 500 when there is no body.  It never throws and never changes
    the request. *)
Theorem validateClinicData_accepts req :
  (names_clinic (body req) <-> fst (validateClinicData req) = Returned Next)
  /\ snd (validateClinicData req) = req
  /\ (fst (validateClinicData req) <> Returned Next ->
      answered (fst (validateClinicData req))
      = Some (if nullish (body req) then 500 else 400)).
Proof.
  rewrite validateClinicData_run. simpl. split; [split|split; [done|]].
  - intros (fields & clinic & a & b & -> & -> & -> & -> & Ha & Hb). simpl.
    by destruct (Z.eqb_spec a 0), (Z.eqb_spec b 0).
  - destruct (body req) as [| |b|z|text|items|fields]; try done.
    destruct (prop "clinic" fields) as [| |b|z|text|items|clinic] eqn:Hclinic;
      try done; try (by destruct b); try (by destruct (Z.eqb z 0));
      try (by destruct (String.eqb text "")).
    simpl.
    destruct (negb (truthy (prop "id_clinica" clinic))
              || negb (truthy (prop "id_super_clinica" clinic))) eqn:Hrequired;
      [done|].
    destruct (negb (typeof_number (prop "id_clinica" clinic))
              || negb (typeof_number (prop "id_super_clinica" clinic))) eqn:Hnumbers;
      [done|].
    intros _.
    apply orb_false_elim in Hrequired as [Hreq1 Hreq2].
    apply orb_false_elim in Hnumbers as [Hnum1 Hnum2].
    destruct (prop "id_clinica" clinic) as [| | |z1| | |] eqn:H1; try done.
    destruct (prop "id_super_clinica" clinic) as [| | |z2| | |] eqn:H2; try done.
    exists fields, clinic, z1, z2. simpl in Hreq1, Hreq2.
    by destruct (Z.eqb_spec z1 0), (Z.eqb_spec z2 0).
  - destruct (body req) as [| |b|z|text|items|fields]; try done.
    destruct (prop "clinic" fields) as [| |b|z|text|items|clinic];
      try done; try (by destruct b); try (by destruct (Z.eqb z 0));
      try (by destruct (String.eqb text "")).
    simpl.
    destruct (negb (truthy (prop "id_clinica" clinic))
              || negb (truthy (prop "id_super_clinica" clinic))); [done|].
    by destruct (negb (typeof_number (prop "id_clinica" clinic))
                 || negb (typeof_number (prop "id_super_clinica" clinic))).
Qed.

End auth.

(* ===================================================================== *)
(** ** The validators *)








(* ===================================================================== *)
(** ** The transaction wrapper with any callback *)

Lemma transaction_begun {A} (callback : connection -> M world A) w :
  fail_acquire (hd no_faults (script w)) = None ->
  fail_begin (hd no_faults (script w)) = None ->
  transaction callback w
  = try_finally
      (try_catch
         (result <- callback Connection;
          _ <- commit Connection;
          ret result)
         (fun error =>
            _ <- rollback Connection;
            _ <- log (ErrTransaction error);
            throw error))
      (release Connection) (begun w)
  /\ leased (begun w) = S (leased w)
  /\ committed (begun w) = committed w
  /\ pending (begun w) = []
  /\ trace (begun w) = trace w ++ [CallGetConnection; CallBeginTransaction].
Proof.
  intros Hacquire Hbegin.
  unfold transaction, begun, getConnection, pool_getConnection, beginTransaction,
    try_finally, try_catch, emit, modify, gets, bind, ret, throw.
  simpl. rewrite Hacquire. simpl. rewrite Hbegin. simpl.
  by rewrite <- app_assoc.
Qed.

(** X14: once the connection is obtained and the transaction begun, a
    callback that returns has its value returned by [transaction] when the
    commit goes through: the rows pending when the callback ended become
    durable, and the connection is released after the commit. *)
Theorem transaction_commits {A} (callback : connection -> M world A) w a w2 :
  fail_acquire (hd no_faults (script w)) = None ->
  fail_begin (hd no_faults (script w)) = None ->
  callback Connection (begun w) = (Returned a, w2) ->
  fail_commit (current w2) = None ->
  exists w',
    transaction callback w = (Returned a, w')
    /\ committed w' = committed w2 ++ pending w2
    /\ pending w' = []
    /\ leased w' = pred (leased w2)
    /\ console w' = console w2
    /\ trace w' = trace w2 ++ [CallCommit; CallRelease].
Proof.
  intros Hacquire Hbegin Hcallback Hcommit.
  destruct (transaction_begun callback w Hacquire Hbegin) as (-> & _).
  unfold try_finally, try_catch. rewrite bind_run, Hcallback.
  unfold commit, release, emit, modify, gets, bind, ret. simpl.
  rewrite Hcommit. simpl. eexists. split; [reflexivity|]. simpl.
  by rewrite <- app_assoc.
Qed.

(** The theorem at a callback that writes one patient. *)
Lemma transaction_commits_witness :
  exists w',
    transaction write_patient (world_with []) = (Returned tt, w')
    /\ committed w' = [("pacientes", [("old_id", VNum 7)])].
Proof.
  destruct (transaction_commits write_patient (world_with []) tt
              (snd (write_patient Connection (begun (world_with []))))
              eq_refl eq_refl eq_refl eq_refl)
    as (w' & Hrun & Hcommitted & _).
  exists w'. split; [exact Hrun | exact Hcommitted].
Defined.

(** X15: when the callback throws, [transaction] rolls back and releases the
    connection: nothing the callback wrote becomes durable, and the error of
    the callback is logged and thrown again; but when the rollback fails too,
    the error of the rollback is thrown in its place and the error of the
    callback is neither logged nor reported. *)
Theorem transaction_rolls_back {A} (callback : connection -> M world A) w e w2 :
  fail_acquire (hd no_faults (script w)) = None ->
  fail_begin (hd no_faults (script w)) = None ->
  callback Connection (begun w) = (Thrown e, w2) ->
  exists w',
    transaction callback w
    = (Thrown (default e (fail_rollback (current w2))), w')
    /\ committed w' = committed w2
    /\ pending w' = []
    /\ leased w' = pred (leased w2)
    /\ console w'
       = console w2 ++ (if fail_rollback (current w2) is Some _ then []
                        else [ErrTransaction e])
    /\ trace w' = trace w2 ++ [CallRollback; CallRelease].
Proof.
  intros Hacquire Hbegin Hcallback.
  destruct (transaction_begun callback w Hacquire Hbegin) as (-> & _).
  unfold try_finally, try_catch. rewrite bind_run, Hcallback.
  unfold rollback, release, log, emit, modify, gets, bind, ret, throw. simpl.
  destruct (fail_rollback (current w2)) as [e'|]; simpl.
  - eexists. split; [reflexivity|]. simpl.
    by rewrite app_nil_r, <- app_assoc.
  - eexists. split; [reflexivity|]. simpl. by rewrite <- app_assoc.
Qed.

(** The theorem at a callback that gives up after writing one patient. *)
Lemma transaction_rolls_back_witness :
  exists w',
    transaction abandon (world_with []) = (Thrown duplicate_entry, w')
    /\ committed w' = []
    /\ console w' = [ErrTransaction duplicate_entry].
Proof.
  destruct (transaction_rolls_back abandon (world_with []) duplicate_entry
              (snd (abandon Connection (begun (world_with []))))
              eq_refl eq_refl eq_refl)
    as (w' & Hrun & Hcommitted & _ & _ & Hconsole & _).
  exists w'. split; [exact Hrun|]. split; [exact Hcommitted | exact Hconsole].
Defined.

(** X16: when the pool hands out no connection, [transaction] throws the
    error of the pool after logging it, without calling the callback and
    without beginning, rolling back or releasing anything. *)
Theorem transaction_no_connection {A} (callback : connection -> M world A) w e :
  fail_acquire (hd no_faults (script w)) = Some e ->
  exists w',
    transaction callback w = (Thrown e, w')
    /\ committed w' = committed w
    /\ pending w' = pending w
    /\ leased w' = leased w
    /\ console w' = console w ++ [ErrDatabaseConnection e]
    /\ trace w' = trace w ++ [CallGetConnection].
Proof.
  intros Hacquire.
  unfold transaction, getConnection, pool_getConnection, try_catch, log, emit,
    modify, gets, bind, ret, throw.
  simpl. rewrite Hacquire. simpl. by eexists.
Qed.

(** The theorem at a pool whose server is gone. *)
Lemma transaction_no_connection_witness :
  exists w',
    transaction write_patient
      (world_with [Faults (Some lost_connection) None None None None])
    = (Thrown lost_connection, w')
    /\ trace w' = [CallGetConnection].
Proof.
  destruct (transaction_no_connection write_patient
              (world_with [Faults (Some lost_connection) None None None None])
              lost_connection eq_refl)
    as (w' & Hrun & _ & _ & _ & _ & Htrace).
  exists w'. split; [exact Hrun | exact Htrace].
Defined.

(* ===================================================================== *)
(** ** More on the chunked load *)



Lemma concat_chunks (records : list object) K :
  0 < K ->
  concat (map (chunk records K) (seq 0 (ceil_div (length records) K))) = records.
Proof.
  intros HK. transitivity (concat (chunkArray records K));
    [|by apply chunkArray_concat].
  by rewrite chunkArray_chunks.
Qed.

Lemma sum_list_lengths {A} (ls : list (list A)) :
  sum_list (map length ls) = length (concat ls).
Proof. induction ls as [|l ls IH]; simpl; [done|]. rewrite length_app. lia. Qed.

(** What the chunks add up to: never more than what they hold, and all of
    it exactly when none of them failed. *)
Lemma inserted_counts (batch_of : nat -> list object) (failure_at : nat -> option error)
    K (indices : list nat) :
  Forall (fun i => batch_of i <> []) indices ->
  let inserted :=
    sum_list (map (fun i => inserted_count (batch_of i) (failure_at i)) indices) in
  let held := sum_list (map (fun i => length (batch_of i)) indices) in
  let failed :=
    length (flat_map (fun i => error_entries K i (failure_at i)) indices) in
  inserted <= held /\ (failed = 0 <-> inserted = held)
  /\ length indices - failed <= inserted.
Proof.
  induction indices as [|i indices IH]; intros Hne; simpl; [lia|].
  apply Forall_cons in Hne as [Hi Hne]. specialize (IH Hne). simpl in IH.
  rewrite length_app.
  assert (0 < length (batch_of i)) by (destruct (batch_of i); [done|simpl; lia]).
  remember (sum_list (map (fun i => inserted_count (batch_of i) (failure_at i))
                          indices)) as inserted.
  remember (sum_list (map (fun i => length (batch_of i)) indices)) as held.
  remember (length (flat_map (fun i => error_entries K i (failure_at i)) indices))
    as failed.
  unfold inserted_count, error_entries.
  destruct (failure_at i); simpl; lia.
Qed.

(** X17: whatever faults the store raises, the statistics of
    [processBatches] never count more inserted records than there are
    records, count at least one inserted record for every successful batch,
    and report no failed batch exactly when every record was inserted. *)
Theorem processBatches_counts tableName records K onBatchComplete w :
  0 < K -> callback_returns onBatchComplete ->
  exists stats w',
    processBatches tableName records K onBatchComplete w = (Returned stats, w')
    /\ insertedRecords stats <= BatchService.totalRecords stats
    /\ successfulBatches stats <= insertedRecords stats
    /\ (failedBatches stats = 0
        <-> insertedRecords stats = BatchService.totalRecords stats).
Proof.
  intros HK Hcb.
  destruct (processBatches_run tableName records K onBatchComplete w HK Hcb)
    as (stats & w' & Hrun & Htotal & Hbatches & Hsum & Hfailed & Herrors & Hinserted
        & _).
  exists stats, w'. split; [done|].
  set (n := ceil_div (length records) K) in *.
  destruct (inserted_counts (chunk records K)
              (fun i => chunk_failure (nth i (script w) no_faults) (chunk records K i))
              K (seq 0 n)) as (Hle & Hiff & Hsucc).
  { apply Forall_forall. intros i Hi%elem_of_seq.
    apply slice_nonempty; [done|]. apply ceil_div_lt; [done|]. unfold n in Hi. lia. }
  rewrite <- Herrors, <- Hinserted, <- Hfailed in *.
  rewrite <- (map_map (chunk records K) length), sum_list_lengths in *.
  rewrite concat_chunks in * by done.
  rewrite length_seq in Hsucc. rewrite Htotal. split; [done|]. split; [lia|done].
Qed.

(** The theorem at five records loaded two at a time into a store that
    rejects the second chunk. *)
Lemma processBatches_counts_witness :
  exists stats w',
    processBatches "pacientes" five_records 2 None
                   (world_with [no_faults; rejecting 1])
    = (Returned stats, w')
    /\ insertedRecords stats <= BatchService.totalRecords stats.
Proof.
  destruct (processBatches_counts "pacientes" five_records 2 None
              (world_with [no_faults; rejecting 1]))
    as (stats & w' & Hrun & Hle & _); [lia|exact I|].
  exists stats, w'. split; [exact Hrun | exact Hle].
Defined.





(* ===================================================================== *)
(** ** More on the paginated traversals *)

(** X20: for a positive page size, [processPaginatedInBatches] never throws,
    whatever the source and the callback do.  When the callback throws on the
    first page the
    traversal ends there with an unsuccessful result carrying the message,
    logged once; when it throws on a later page the loop is left at once, so
    that no further page is requested. *)
Theorem processPaginatedInBatches_callback_throws client endpoint processFn limit w :
  0 < limit ->
  (exists result w',
     processPaginatedInBatches client endpoint processFn limit w
     = (Returned result, w'))
  /\ (forall first status e w2,
        client endpoint 0 = Returned (first, status) ->
        processFn (results first) 0 (ceil_div (count first) limit)
                  (requested endpoint 0 w) = (Thrown e, w2) ->
        processPaginatedInBatches client endpoint processFn limit w
        = (Returned (Processed false (Some (message e)) None None),
           warned (ErrPaginated (message e)) w2))
  /\ (forall pages remaining page data status e w0 w2,
        client endpoint (page * limit) = Returned (data, status) ->
        processFn (results data) page pages (requested endpoint (page * limit) w0)
        = (Thrown e, w2) ->
        process_loop client endpoint processFn limit pages (S remaining) page w0
        = (Thrown e, w2)).
Proof.
  intros Hlimit. split; [|split].
  - unfold processPaginatedInBatches, try_catch.
    match goal with
    | |- context [match ?body w with _ => _ end] =>
        destruct (body w) as [[result|e] w1]
    end.
    + by eexists _, _.
    + unfold bind, log, modify, ret. by eexists _, _.
  - intros first status e w2 Hfirst Hthrows.
    unfold processPaginatedInBatches, try_catch.
    rewrite bind_run, get_run, Hfirst. cbv beta iota zeta.
    by rewrite bind_run, Hthrows.
  - intros pages remaining page data status e w0 w2 Hpage Hthrows.
    cbn [process_loop]. cbv zeta.
    rewrite bind_run, get_run, Hpage. cbv beta iota.
    by rewrite bind_run, Hthrows.
Qed.

(** The theorem at a callback that fails on the first page. *)
Lemma processPaginatedInBatches_callback_throws_witness :
  0 < 100
  /\ processPaginatedInBatches mock_source "/agenda/citas/" failing_page 100
                               empty_world
     = (Returned (Processed false (Some "insert failed") None None),
        warned (ErrPaginated "insert failed")
               (requested "/agenda/citas/" 0 empty_world)).
Proof.
  assert (Hlimit : 0 < 100) by lia.
  split; [exact Hlimit|].
  exact (proj1 (proj2 (processPaginatedInBatches_callback_throws
                         mock_source "/agenda/citas/" failing_page 100 empty_world
                         Hlimit))
               (Page 250 (take 100 mock_items)) 200 (new_Error "insert failed")
               (requested "/agenda/citas/" 0 empty_world) eq_refl eq_refl).
Defined.

Lemma served_pages items limit endpoint pages :
  flat_map (page_records (serving items limit) endpoint limit) (seq 0 pages)
  = concat (map (fun i => slice (i * limit) (i * limit + limit) items) (seq 0 pages)).
Proof.
  rewrite flat_map_concat_map. f_equal. apply map_ext. intros p.
  unfold page_records, serving, slice. simpl.
  by replace (p * limit + limit - p * limit) with limit by lia.
Qed.

(** X21: against a source that serves its records in pages of the size
    [getAllPaginated] counts with, every record is fetched exactly once and
    in order, and the two counts of the result agree; no page is skipped. *)
Theorem getAllPaginated_complete items limit endpoint w :
  0 < limit ->
  exists w',
    getAllPaginated (serving items limit) endpoint limit w
    = (Returned (Paginated true None items (Some (length items))
                           (Some (length items))), w')
    /\ console w' = console w
    /\ length (trace w')
       = length (trace w) + Nat.max 1 (ceil_div (length items) limit).
Proof.
  intros Hlimit.
  destruct (getAllPaginated_run (serving items limit) endpoint limit
              (Page (length items) (take limit (drop 0 items))) 200 w eq_refl)
    as (w' & Hrun & Hconsole & Htrace).
  cbn [count results] in *.
  set (pages := ceil_div (length items) limit) in *.
  assert (Hdata : take limit (drop 0 items)
                  ++ flat_map (page_records (serving items limit) endpoint limit)
                              (seq 1 (pages - 1))
                  = items).
  { destruct pages as [|n] eqn:Hpages.
    - pose proof (ceil_div_bounds (length items) limit Hlimit) as Hb.
      fold pages in Hb. rewrite Hpages in Hb.
      destruct items; [by destruct limit|simpl in Hb; lia].
    - replace (S n - 1) with n by lia.
      transitivity (flat_map (page_records (serving items limit) endpoint limit)
                             (seq 0 (S n))); [done|].
      rewrite served_pages, <- Hpages. unfold pages.
      rewrite <- chunkArray_chunks by done. by apply chunkArray_concat. }
  exists w'. rewrite Hrun, Hdata. split; [done|]. split.
  - rewrite Hconsole.
    assert (flat_map (page_warnings (serving items limit) endpoint limit pages)
                     (seq 1 (pages - 1)) = []) as ->; [|by rewrite app_nil_r].
    clear. induction (seq 1 (pages - 1)); [done|by simpl].
  - rewrite Htrace, length_app, length_map. simpl. rewrite length_seq. lia.
Qed.

(** The theorem at 250 records served 100 at a time. *)
Lemma getAllPaginated_complete_witness :
  exists w',
    getAllPaginated (serving mock_items 100) "/main/users/" 100 empty_world
    = (Returned (Paginated true None mock_items (Some 250) (Some 250)), w')
    /\ length (trace w') = 3.
Proof.
  destruct (getAllPaginated_complete mock_items 100 "/main/users/" empty_world)
    as (w' & Hrun & _ & Htrace); [lia|].
  exists w'. split; [exact Hrun | exact Htrace].
Defined.

(* ===================================================================== *)
(** ** migrations/koibox/citas.js: the transformation of a page *)

Lemma timestamp_run {S} field v (s : S) :
  timestamp field v s = (stamp field v, s).
Proof. unfold stamp. by destruct v. Qed.

Lemma stamp_text_or_absent field v :
  text_or_absent v = true -> exists t, stamp field v = Returned t.
Proof. destruct v; try done; by eexists. Qed.

Lemma service_record_run m base a observacionesMedicas comentariosCita index serviceId s :
  service_record m base a observacionesMedicas comentariosCita (index, serviceId) s
  = (Returned (appointment_record base a observacionesMedicas comentariosCita index
                 (mapped (treatmentMapper m) serviceId)),
     if unmapped (treatmentMapper m) serviceId
     then TransformState (bump_treatments (counters s))
            (warn_lines s ++ [WarnTreatmentNotFound (appointment_id a) serviceId])
     else s).
Proof.
  unfold service_record, unmapped. cbn [fst snd]. rewrite bind_run.
  by destruct (truthy serviceId && negb (truthy (mapped (treatmentMapper m) serviceId))).
Qed.

(** The records of one appointment, service by service, and what the
    services without a treatment add to the counters. *)
Lemma services_run (m : mappers) base a observacionesMedicas comentariosCita
    (services : list value) : forall (number : nat -> nat) s,
  exists s',
    AiMapper.map_M
      (service_record m base a observacionesMedicas comentariosCita)
      (imap (fun index serviceId => (number index, serviceId)) services) s
    = (Returned
         (imap (fun index serviceId =>
                  appointment_record base a observacionesMedicas comentariosCita
                    (number index) (mapped (treatmentMapper m) serviceId))
               services), s')
    /\ missingPatients (counters s') = missingPatients (counters s)
    /\ missingDoctors (counters s') = missingDoctors (counters s)
    /\ missingSpaces (counters s') = missingSpaces (counters s)
    /\ missingTreatments (counters s')
       = missingTreatments (counters s)
         + length (List.filter (unmapped (treatmentMapper m)) services).
Proof.
  induction services as [|serviceId services IH]; intros number s.
  - exists s. simpl. unfold ret. repeat split; lia.
  - cbn [imap AiMapper.map_M List.filter].
    rewrite bind_run, service_record_run. cbv beta iota. rewrite bind_run.
    change (imap ((fun index serviceId => (number index, serviceId)) ∘ S) services)
      with (imap (fun index serviceId => ((number ∘ S) index, serviceId)) services).
    match goal with
    | |- context [AiMapper.map_M _ _ ?s1] =>
        destruct (IH (number ∘ S) s1) as (s' & Hrun & Hp & Hd & Hs & Ht)
    end.
    rewrite Hrun. cbv beta iota. unfold ret.
    exists s'. split; [done|].
    destruct (unmapped (treatmentMapper m) serviceId); simpl in *;
      repeat split; lia.
Qed.

Lemma transform_appointment_skipped clinic m a s :
  kept m a = false ->
  transform_appointment clinic m a s
  = (Returned None,
     TransformState (bump_patients (counters s))
       (warn_lines s ++ [WarnPatientNotFound (appointment_id a) (cliente a)])).
Proof.
  unfold kept, unmapped, transform_appointment. intros Hkept.
  apply negb_false_iff in Hkept. by rewrite Hkept.
Qed.

(** A kept appointment: the doctor and the space are counted when they are
    missing, then the dates are read and the services turned into records. *)
Lemma transform_appointment_dated clinic m a s :
  kept m a = true ->
  exists s2,
    transform_appointment clinic m a s
    = (fecha_creacion <- timestamp "created" (created a);
       fecha_modificacion <- timestamp "updated" (updated a);
       appointmentRecords <-
         AiMapper.map_M
           (service_record m (base_of clinic m a fecha_creacion fecha_modificacion)
                           a (or_else (informacion_clinica a) VNull) (comments_of a))
           (imap (fun index serviceId => (index, serviceId)) (services_of a));
       ret (Some appointmentRecords)) s2
    /\ missingPatients (counters s2) = missingPatients (counters s)
    /\ missingDoctors (counters s2)
       = missingDoctors (counters s)
         + (if unmapped (doctorMapper m) (user a) then 1 else 0)
    /\ missingSpaces (counters s2)
       = missingSpaces (counters s)
         + (if unmapped (spaceMapper m) (hd VNull (recursos a)) then 1 else 0)
    /\ missingTreatments (counters s2) = missingTreatments (counters s).
Proof.
  unfold kept, unmapped at 1, transform_appointment. intros Hkept.
  apply negb_true_iff in Hkept. rewrite Hkept. cbv zeta.
  fold (unmapped (doctorMapper m) (user a)).
  fold (unmapped (spaceMapper m) (hd VNull (recursos a))).
  rewrite bind_run.
  set (s1 := if unmapped (doctorMapper m) (user a)
             then TransformState (bump_doctors (counters s))
                    (warn_lines s ++ [WarnDoctorNotFound (appointment_id a) (user a)])
             else s).
  assert (Hdoctor :
    (if unmapped (doctorMapper m) (user a)
     then count_missing bump_doctors
            [WarnDoctorNotFound (appointment_id a) (user a)]
     else ret tt) s = (Returned tt, s1)).
  { subst s1. by destruct (unmapped (doctorMapper m) (user a)). }
  rewrite Hdoctor. cbv beta iota. rewrite bind_run.
  set (s2 := if unmapped (spaceMapper m) (hd VNull (recursos a))
             then TransformState (bump_spaces (counters s1)) (warn_lines s1 ++ [])
             else s1).
  assert (Hspace :
    (if unmapped (spaceMapper m) (hd VNull (recursos a))
     then count_missing bump_spaces [] else ret tt) s1 = (Returned tt, s2)).
  { subst s2. by destruct (unmapped (spaceMapper m) (hd VNull (recursos a))). }
  rewrite Hspace. cbv beta iota.
  exists s2. split; [reflexivity|]. subst s2 s1.
  destruct (unmapped (doctorMapper m) (user a)),
           (unmapped (spaceMapper m) (hd VNull (recursos a)));
    simpl; repeat split; lia.
Qed.

Lemma transform_appointment_kept clinic m a s fecha_creacion fecha_modificacion :
  kept m a = true ->
  stamp "created" (created a) = Returned fecha_creacion ->
  stamp "updated" (updated a) = Returned fecha_modificacion ->
  exists s',
    transform_appointment clinic m a s
    = (Returned (Some (records_of clinic m a fecha_creacion fecha_modificacion)), s')
    /\ missingPatients (counters s') = missingPatients (counters s)
    /\ missingDoctors (counters s')
       = missingDoctors (counters s)
         + (if unmapped (doctorMapper m) (user a) then 1 else 0)
    /\ missingSpaces (counters s')
       = missingSpaces (counters s)
         + (if unmapped (spaceMapper m) (hd VNull (recursos a)) then 1 else 0)
    /\ missingTreatments (counters s')
       = missingTreatments (counters s)
         + length (List.filter (unmapped (treatmentMapper m)) (services_of a)).
Proof.
  intros Hkept Hcreated Hupdated.
  destruct (transform_appointment_dated clinic m a s Hkept)
    as (s2 & -> & Hp2 & Hd2 & Hs2 & Ht2).
  rewrite bind_run, timestamp_run, Hcreated. cbv beta iota.
  rewrite bind_run, timestamp_run, Hupdated. cbv beta iota.
  rewrite bind_run.
  destruct (services_run m (base_of clinic m a fecha_creacion fecha_modificacion) a
              (or_else (informacion_clinica a) VNull) (comments_of a)
              (services_of a) (fun index => index) s2)
    as (s' & -> & Hp & Hd & Hs & Ht).
  cbv beta iota. unfold ret.
  exists s'. split; [done|]. repeat split; lia.
Qed.

Lemma stamp_cases field v :
  (text_or_absent v = true /\ exists t, stamp field v = Returned t)
  \/ (text_or_absent v = false /\ exists e, stamp field v = Thrown e).
Proof. destruct v; (left; split; [done|by eexists]) || (right; split; [done|by eexists]). Qed.

Lemma transform_appointment_throws clinic m a s :
  kept m a = true ->
  text_or_absent (created a) && text_or_absent (updated a) = false ->
  exists e s', transform_appointment clinic m a s = (Thrown e, s').
Proof.
  intros Hkept Hdates.
  destruct (transform_appointment_dated clinic m a s Hkept) as (s2 & -> & _).
  rewrite bind_run, timestamp_run.
  destruct (stamp_cases "created" (created a)) as [[Hc [t ->]]|[_ [e ->]]];
    [|by eexists _, _].
  cbv beta iota. rewrite bind_run, timestamp_run.
  destruct (stamp_cases "updated" (updated a)) as [[Hu _]|[_ [e ->]]];
    [|by eexists _, _].
  by rewrite Hc, Hu in Hdates.
Qed.


Lemma records_of_length clinic m a fecha_creacion fecha_modificacion :
  length (records_of clinic m a fecha_creacion fecha_modificacion) = fan_out a.
Proof.
  unfold records_of, services_of, fan_out. rewrite length_imap.
  destruct (servicios a); simpl; lia.
Qed.

Lemma unmapped_services m a :
  List.filter (unmapped (treatmentMapper m)) (services_of a)
  = List.filter (unmapped (treatmentMapper m)) (servicios a).
Proof. unfold services_of. by destruct (servicios a). Qed.

Lemma records_of_built clinic m a fecha_creacion fecha_modificacion :
  Forall built (records_of clinic m a fecha_creacion fecha_modificacion).
Proof.
  apply Forall_forall. intros record Hin.
  apply list_elem_of_lookup in Hin as [index Hindex].
  unfold records_of in Hindex. rewrite list_lookup_imap in Hindex.
  destruct (services_of a !! index) as [serviceId|]; [|done].
  injection Hindex as <-.
  exists (base_of clinic m a fecha_creacion fecha_modificacion), a.
  by eexists _, _, _, _.
Qed.

Lemma later_records_secondary base a observacionesMedicas comentariosCita
    (treatment : value -> value) (services : list value) :
  keys base = take 25 citas_columns ->
  forall number : nat -> nat,
    (forall index, number index <> 0) ->
    primaries (imap (fun index serviceId =>
                       appointment_record base a observacionesMedicas
                         comentariosCita (number index) (treatment serviceId))
                    services) = [].
Proof.
  intros Hbase.
  induction services as [|serviceId services IH]; intros number Hnumber; [done|].
  cbn [imap]. unfold primaries in *. cbn [List.filter].
  assert (Hsecondary :
    truthy (prop "_isPrimary"
              (appointment_record base a observacionesMedicas comentariosCita
                 (number 0) (treatment serviceId))) = false).
  { unfold appointment_record, prop. rewrite lookup_field_app_r.
    - simpl. by destruct (Nat.eqb_spec (number 0) 0); [destruct (Hnumber 0)|].
    - rewrite Hbase. by apply (bool_decide_unpack _). }
  rewrite Hsecondary. apply (IH (number ∘ S)). intros index. apply Hnumber.
Qed.

Lemma records_of_primaries clinic m a fecha_creacion fecha_modificacion :
  length (primaries (records_of clinic m a fecha_creacion fecha_modificacion)) = 1.
Proof.
  unfold records_of.
  assert (Hservices : exists serviceId rest, services_of a = serviceId :: rest).
  { unfold services_of. destruct (servicios a); by eexists _, _. }
  destruct Hservices as (serviceId & rest & ->).
  cbn [imap]. unfold primaries. cbn [List.filter].
  match goal with
  | |- context [truthy (prop "_isPrimary" ?record)] =>
      assert (Hprimary : truthy (prop "_isPrimary" record) = true) by reflexivity;
      rewrite Hprimary
  end.
  cbn [length]. f_equal.
  pose proof (later_records_secondary
                (base_of clinic m a fecha_creacion fecha_modificacion) a
                (or_else (informacion_clinica a) VNull) (comments_of a)
                (mapped (treatmentMapper m)) rest eq_refl S) as Hlater.
  exact (f_equal length (Hlater (fun index => Nat.neq_succ_0 index))).
Qed.

Lemma primaries_app l1 l2 : primaries (l1 ++ l2) = primaries l1 ++ primaries l2.
Proof. apply List.filter_app. Qed.

Lemma warnings_eq (a b : warnings) :
  missingPatients a = missingPatients b -> missingDoctors a = missingDoctors b ->
  missingTreatments a = missingTreatments b -> missingSpaces a = missingSpaces b ->
  a = b.
Proof. destruct a, b. simpl. by intros -> -> -> ->. Qed.

(** A page that is transformed to the end: what it yields and counts. *)
Lemma transform_all_run clinic m appointments : forall s results s',
  AiMapper.map_M (transform_appointment clinic m) appointments s
  = (Returned results, s') ->
  let batch := flat_map (fun result : option (list object) => default [] result)
                        results in
  Forall built batch
  /\ length (primaries batch) = length (List.filter (kept m) appointments)
  /\ length batch = sum_list (map fan_out (List.filter (kept m) appointments))
  /\ counters s' = add_warnings (counters s) (page_warnings_of m appointments)
  /\ Forall (fun a => kept m a = true ->
                      text_or_absent (created a) && text_or_absent (updated a) = true)
            appointments.
Proof.
  induction appointments as [|a appointments IH]; intros s results s'.
  - intros [= <- <-]. simpl. split; [done|]. split; [done|]. split; [done|].
    split; [|done]. apply warnings_eq; simpl; lia.
  - cbn [AiMapper.map_M]. rewrite bind_run.
    destruct (kept m a) eqn:Hkept.
    + destruct (text_or_absent (created a) && text_or_absent (updated a)) eqn:Hdates.
      2:{ destruct (transform_appointment_throws clinic m a s Hkept Hdates)
            as (e & s1 & ->). done. }
      apply andb_prop in Hdates as Hboth. destruct Hboth as [Hc Hu].
      destruct (stamp_text_or_absent "created" _ Hc) as [fecha_creacion Hcreated].
      destruct (stamp_text_or_absent "updated" _ Hu) as [fecha_modificacion Hupdated].
      destruct (transform_appointment_kept clinic m a s _ _ Hkept Hcreated Hupdated)
        as (s1 & -> & Hp & Hd & Hs & Ht).
      cbv beta iota. rewrite bind_run.
      destruct (AiMapper.map_M _ appointments s1) as [[rest|e] s2] eqn:Hrest; [|done].
      intros [= <- <-]. cbv zeta.
      destruct (IH s1 rest s2 Hrest) as (Hbuilt & Hprimaries & Hlength & Hcounters & Hok).
      cbn [flat_map].
      change (default [] (Some (records_of clinic m a fecha_creacion
                                           fecha_modificacion)))
        with (records_of clinic m a fecha_creacion fecha_modificacion).
      unfold page_warnings_of in *.
      cbn [List.filter]. rewrite Hkept. cbn [negb List.filter map sum_list length].
      split; [apply Forall_app; split; [apply records_of_built|done]|].
      split.
      { rewrite primaries_app, length_app, records_of_primaries. lia. }
      split.
      { rewrite length_app, records_of_length.
        change (id (fan_out a)) with (fan_out a). lia. }
      split; [|by apply Forall_cons].
      rewrite Hcounters. rewrite unmapped_services in Ht.
      apply warnings_eq; simpl; rewrite ?Hp, ?Hd, ?Hs, ?Ht;
        destruct (unmapped (doctorMapper m) (user a)),
                 (unmapped (spaceMapper m) (hd VNull (recursos a)));
        simpl; lia.
    + rewrite transform_appointment_skipped by done. cbv beta iota.
      rewrite bind_run.
      match goal with
      | |- context [AiMapper.map_M _ appointments ?s1] =>
          destruct (AiMapper.map_M (transform_appointment clinic m) appointments s1)
            as [[rest|e] s2] eqn:Hrest; [|done];
          destruct (IH s1 rest s2 Hrest)
            as (Hbuilt & Hprimaries & Hlength & Hcounters & Hok)
      end.
      intros [= <- <-]. cbv zeta. cbn [flat_map].
      change (default [] (@None (list object))) with (@nil object). cbn [app].
      unfold page_warnings_of in *. cbn [List.filter]. rewrite Hkept.
      cbn [negb length].
      split; [done|]. split; [done|]. split; [done|]. split.
      * rewrite Hcounters. apply warnings_eq; simpl; lia.
      * apply Forall_cons. split; [congruence|done].
Qed.

Lemma transform_all_returns clinic m appointments : forall s,
  Forall (fun a => kept m a = true ->
                   text_or_absent (created a) && text_or_absent (updated a) = true)
         appointments ->
  exists results s',
    AiMapper.map_M (transform_appointment clinic m) appointments s
    = (Returned results, s').
Proof.
  induction appointments as [|a appointments IH]; intros s Hok.
  - by eexists _, _.
  - apply Forall_cons in Hok as [Ha Hok].
    cbn [AiMapper.map_M]. rewrite bind_run.
    destruct (kept m a) eqn:Hkept.
    + specialize (Ha eq_refl). apply andb_prop in Ha as [Hc Hu].
      destruct (stamp_text_or_absent "created" _ Hc) as [fecha_creacion Hcreated].
      destruct (stamp_text_or_absent "updated" _ Hu) as [fecha_modificacion Hupdated].
      destruct (transform_appointment_kept clinic m a s _ _ Hkept Hcreated Hupdated)
        as (s1 & -> & _).
      cbv beta iota. rewrite bind_run.
      destruct (IH s1 Hok) as (results & s' & ->). by eexists _, _.
    + rewrite transform_appointment_skipped by done. cbv beta iota.
      rewrite bind_run.
      match goal with
      | |- context [AiMapper.map_M _ appointments ?s1] =>
          destruct (IH s1 Hok) as (results & s' & ->)
      end.
      by eexists _, _.
Qed.

(** X22: an appointment whose patient is found (or that names none) and
    whose dates are texts or absent becomes one record per service, and one
    record when it has no service; the first record is the primary one, with
    no reference, and every later one is secondary, waits for its reference
    and carries neither observations nor comments; all of them carry the
    identifier of the appointment as [old_id] and the treatment its own
    service maps to. *)
Theorem transform_appointment_fan_out clinic m a s :
  kept m a = true ->
  text_or_absent (created a) = true -> text_or_absent (updated a) = true ->
  exists records s',
    transform_appointment clinic m a s = (Returned (Some records), s')
    /\ length records = Nat.max 1 (length (servicios a))
    /\ (forall index record,
          records !! index = Some record ->
          prop "_isPrimary" record = VBool (index =? 0)
          /\ prop "id_cita_reference" record
             = (if index =? 0 then VNull else VStr "PENDING")
          /\ prop "old_id" record = appointment_id a
          /\ prop "_originalId" record = appointment_id a
          /\ prop "id_paciente" record = mapped (patientMapping m) (cliente a)
          /\ (0 < index ->
              prop "observaciones_medicas" record = VNull
              /\ prop "comentarios_cita" record = VNull)
          /\ exists serviceId,
               services_of a !! index = Some serviceId
               /\ prop "id_tratamiento" record
                  = or_else (mapped (treatmentMapper m) serviceId) VNull)
    /\ missingPatients (counters s') = missingPatients (counters s)
    /\ missingTreatments (counters s')
       = missingTreatments (counters s)
         + length (List.filter (unmapped (treatmentMapper m)) (servicios a)).
Proof.
  intros Hkept Hc Hu.
  destruct (stamp_text_or_absent "created" _ Hc) as [fecha_creacion Hcreated].
  destruct (stamp_text_or_absent "updated" _ Hu) as [fecha_modificacion Hupdated].
  destruct (transform_appointment_kept clinic m a s _ _ Hkept Hcreated Hupdated)
    as (s' & Hrun & Hp & _ & _ & Ht).
  eexists _, s'. split; [exact Hrun|].
  split; [apply records_of_length|].
  split; [|split; [done|by rewrite <- unmapped_services]].
  intros index record Hrecord.
  unfold records_of in Hrecord. rewrite list_lookup_imap in Hrecord.
  destruct (services_of a !! index) as [serviceId|] eqn:Hservice; [|done].
  injection Hrecord as <-.
  split; [reflexivity|]. split; [reflexivity|]. split; [reflexivity|].
  split; [reflexivity|]. split; [reflexivity|]. split.
  - intros Hindex. destruct index; [lia|]. by split.
  - by exists serviceId.
Qed.

(** The theorem at an appointment with two services. *)
Lemma transform_appointment_fan_out_witness :
  exists records s',
    transform_appointment sample_clinic sample_mappers sample_appointment no_warnings
    = (Returned (Some records), s')
    /\ length records = 2
    /\ missingTreatments (counters s') = 1.
Proof.
  destruct (transform_appointment_fan_out sample_clinic sample_mappers
              sample_appointment no_warnings eq_refl eq_refl eq_refl)
    as (records & s' & Hrun & Hlength & _ & _ & Htreatments).
  exists records, s'. split; [exact Hrun|]. split; [exact Hlength | exact Htreatments].
Defined.

(** X23: a page is transformed to the end exactly when every appointment
    that is kept has texts or nothing as its two dates; otherwise the
    transformation throws.  The batch then holds one primary record for
    every appointment kept, and as many records as their services ask for;
    and the counters grow by the appointments dropped for their patient, and
    by the doctors, the spaces and the treatments missing in the appointments
    kept. *)
Theorem transform_page_counts clinic m appointments s :
  (Forall (fun a => kept m a = true ->
                    text_or_absent (created a) && text_or_absent (updated a) = true)
          appointments
   <-> exists batch s',
         transform_page clinic m appointments s = (Returned batch, s'))
  /\ (forall batch s',
        transform_page clinic m appointments s = (Returned batch, s') ->
        length (primaries batch) = length (List.filter (kept m) appointments)
        /\ length batch = sum_list (map fan_out (List.filter (kept m) appointments))
        /\ counters s'
           = add_warnings (counters s) (page_warnings_of m appointments)).
Proof.
  unfold transform_page. split; [split|].
  - intros Hok. rewrite bind_run.
    destruct (transform_all_returns clinic m appointments s Hok)
      as (results & s' & ->).
    by eexists _, _.
  - intros (batch & s' & Hrun). rewrite bind_run in Hrun.
    destruct (AiMapper.map_M _ appointments s) as [[results|e] s1] eqn:Hall; [|done].
    by destruct (transform_all_run clinic m appointments s results s1 Hall)
      as (_ & _ & _ & _ & Hok).
  - intros batch s' Hrun. rewrite bind_run in Hrun.
    destruct (AiMapper.map_M _ appointments s) as [[results|e] s1] eqn:Hall; [|done].
    injection Hrun as <- <-.
    by destruct (transform_all_run clinic m appointments s results s1 Hall)
      as (_ & Hprimaries & Hlength & Hcounters & _).
Qed.

(** The theorem at a page of two appointments, one of them of an unknown
    patient. *)
Lemma transform_page_counts_witness :
  length (primaries sample_batch) = 1 /\ length sample_batch = 2.
Proof.
  destruct (proj2 (transform_page_counts sample_clinic sample_mappers sample_page
                     no_warnings) sample_batch
              (snd (transform_page sample_clinic sample_mappers sample_page
                      no_warnings)) eq_refl)
    as (Hprimaries & Hlength & _).
  split; [exact Hprimaries | exact Hlength].
Defined.

Lemma omit_keys names fields :
  keys (omit names fields)
  = List.filter (fun key => negb (existsb (String.eqb key) names)) (keys fields).
Proof.
  unfold omit, keys. induction fields as [|[k v] fields IH]; simpl; [done|].
  destruct (negb (existsb (String.eqb k) names)); simpl; by rewrite IH.
Qed.

Lemma keys_app (l1 l2 : object) : keys (l1 ++ l2) = keys l1 ++ keys l2.
Proof. apply map_app. Qed.

Lemma keys_assign_fresh key v fields :
  key ∉ keys fields -> keys (assign key v fields) = keys fields ++ [key].
Proof. intros Hfresh. by rewrite assign_fresh, keys_app. Qed.

Lemma built_clean_primary record :
  built record -> keys (omit ["_isPrimary"; "_originalId"] record) = citas_columns.
Proof.
  intros (base & a & obs & com & index & idTratamiento & Hbase & ->).
  unfold appointment_record. by rewrite omit_keys, keys_app, Hbase.
Qed.

Lemma built_clean_secondary primaryIdMapping record :
  built record -> keys (clean_secondary primaryIdMapping record) = citas_columns.
Proof.
  intros (base & a & obs & com & index & idTratamiento & Hbase & ->).
  unfold clean_secondary, appointment_record.
  rewrite keys_assign_fresh; rewrite omit_keys, keys_app, Hbase; [done|].
  by apply (bool_decide_unpack _).
Qed.

Lemma same_columns_homogeneous columns records :
  NoDup columns -> Forall (fun record => keys record = columns) records ->
  homogeneous records.
Proof.
  intros Hnd Hall. unfold homogeneous.
  destruct records as [|r rs]; [done|].
  apply Forall_cons in Hall as Hhead. destruct Hhead as [Hr _].
  eapply Forall_impl; [exact Hall|]. simpl. intros r' Hr'.
  split; [congruence|by rewrite Hr'].
Qed.

Lemma Forall_filter_list {A} (P : A -> Prop) (f : A -> bool) (l : list A) :
  Forall P l -> Forall P (List.filter f l).
Proof.
  induction 1 as [|x l Hx Hl IH]; simpl; [done|].
  destruct (f x); [by apply Forall_cons|done].
Qed.

(** X24: whatever page is transformed, the primary records and the secondary
    records handed to [processBatches] all list the same columns, the
    twenty-nine columns of [citas] in the same order and none twice, without
    the two marker members: each of the two lists is homogeneous, so that
    the single column list [insertBatch] takes from the first record fits every
    record of the batch. *)
Theorem transform_page_homogeneous clinic m appointments s batch s' primaryIdMapping :
  transform_page clinic m appointments s = (Returned batch, s') ->
  Forall (fun record => keys record = citas_columns) (clean_primaries batch)
  /\ Forall (fun record => keys record = citas_columns)
            (clean_secondaries primaryIdMapping batch)
  /\ homogeneous (clean_primaries batch)
  /\ homogeneous (clean_secondaries primaryIdMapping batch)
  /\ length (clean_primaries batch) + length (clean_secondaries primaryIdMapping batch)
     = length batch.
Proof.
  unfold transform_page. rewrite bind_run. intros Hrun.
  destruct (AiMapper.map_M _ appointments s) as [[results|e] s1] eqn:Hall; [|done].
  injection Hrun as <- <-.
  destruct (transform_all_run clinic m appointments s results s1 Hall)
    as (Hbuilt & _).
  set (batch := flat_map _ results) in *.
  assert (Hnd : NoDup citas_columns) by (by apply (bool_decide_unpack _)).
  assert (Hprimary : Forall (fun record => keys record = citas_columns)
                            (clean_primaries batch)).
  { unfold clean_primaries. apply Forall_map.
    eapply Forall_impl; [apply Forall_filter_list, Hbuilt|].
    intros r Hr. by apply built_clean_primary. }
  assert (Hsecondary : Forall (fun record => keys record = citas_columns)
                              (clean_secondaries primaryIdMapping batch)).
  { unfold clean_secondaries. apply Forall_map.
    eapply Forall_impl; [apply Forall_filter_list, Hbuilt|].
    intros r Hr. by apply built_clean_secondary. }
  split; [done|]. split; [done|].
  split; [by eapply same_columns_homogeneous|].
  split; [by eapply same_columns_homogeneous|].
  unfold clean_primaries, clean_secondaries. rewrite !length_map.
  clear. induction batch as [|r batch IH]; simpl; [done|].
  destruct (truthy (prop "_isPrimary" r)); simpl; lia.
Qed.

(** The theorem at the sample page. *)
Lemma transform_page_homogeneous_witness :
  homogeneous (clean_primaries sample_batch)
  /\ homogeneous (clean_secondaries [("7", VNum 41)] sample_batch).
Proof.
  destruct (transform_page_homogeneous sample_clinic sample_mappers sample_page
              no_warnings sample_batch
              (snd (transform_page sample_clinic sample_mappers sample_page
                      no_warnings))
              [("7", VNum 41)] eq_refl)
    as (_ & _ & Hprimaries & Hsecondaries & _).
  split; [exact Hprimaries | exact Hsecondaries].
Defined.

Lemma replace_first_app (target by_ : Ascii.ascii) (before after : string) :
  free_of target before = true ->
  replace_first target by_ (before +:+ String target after)
  = before +:+ String by_ after.
Proof.
  induction before as [|c before IH]; intros Hfree.
  - change ("" +:+ String target after) with (String target after). simpl.
    by rewrite Ascii.eqb_refl.
  - change (String c before +:+ String target after)
      with (String c (before +:+ String target after)).
    simpl in *. apply andb_prop in Hfree as [Hc Hfree].
    apply negb_true_iff in Hc. rewrite Hc, IH by done. done.
Qed.

Lemma before_first_app (sep : Ascii.ascii) (before after : string) :
  free_of sep before = true ->
  before_first sep (before +:+ String sep after) = before.
Proof.
  induction before as [|c before IH]; intros Hfree.
  - change ("" +:+ String sep after) with (String sep after). simpl.
    by rewrite Ascii.eqb_refl.
  - change (String c before +:+ String sep after)
      with (String c (before +:+ String sep after)).
    simpl in *. apply andb_prop in Hfree as [Hc Hfree].
    apply negb_true_iff in Hc. rewrite Hc, IH by done. done.
Qed.

Lemma before_first_free (sep : Ascii.ascii) (s : string) :
  free_of sep s = true -> before_first sep s = s.
Proof.
  induction s as [|c s IH]; simpl; [done|]. intros Hfree.
  apply andb_prop in Hfree as [Hc Hfree].
  apply negb_true_iff in Hc. by rewrite Hc, IH.
Qed.

Lemma free_of_app (c : Ascii.ascii) (s1 s2 : string) :
  free_of c (s1 +:+ s2) = free_of c s1 && free_of c s2.
Proof.
  induction s1 as [|x s1 IH]; [done|].
  change (String x s1 +:+ s2) with (String x (s1 +:+ s2)). simpl.
  by rewrite IH, andb_assoc.
Qed.

(** X25: the two dates of a record.  From the ISO form the source sends, a
    date, the letter T, a time, a dot and the fraction, the record keeps the
    date, a space and the time; a text with neither the letter nor a dot is
    kept as it is; the empty text and an absent member give [null]; any
    other value, the number 0 and [false] included, makes the
    transformation throw. *)
Theorem timestamp_normalises field :
  (forall date time fraction : string,
     free_of "T" date = true -> free_of "." date = true ->
     free_of "." time = true ->
     stamp field (VStr (date +:+ "T" +:+ time +:+ "." +:+ fraction))
     = Returned (VStr (date +:+ " " +:+ time)))
  /\ (forall text : string,
        free_of "T" text = true -> free_of "." text = true ->
        stamp field (VStr text) = Returned (if String.eqb text "" then VNull
                                            else VStr text))
  /\ stamp field VUndef = Returned VNull
  /\ stamp field VNull = Returned VNull
  /\ (forall v,
        text_or_absent v = false ->
        stamp field v
        = Thrown (new_Error ("appointment." +:+ field
                             +:+ "?.replace is not a function"))).
Proof.
  split; [|split; [|split; [done|split; [done|]]]].
  - intros date time fraction HT Hdate Htime. unfold stamp. cbn [timestamp ret fst].
    change (date +:+ "T" +:+ time +:+ "." +:+ fraction)
      with (date +:+ String "T" (time +:+ "." +:+ fraction)).
    rewrite replace_first_app by done.
    change (date +:+ String " " (time +:+ "." +:+ fraction))
      with (date +:+ String " " (time +:+ String "." fraction)).
    assert (Hsplit : date +:+ String " " (time +:+ String "." fraction)
                     = (date +:+ " " +:+ time) +:+ String "." fraction).
    { by rewrite string_app_assoc. }
    rewrite Hsplit, before_first_app.
    + unfold or_else. by destruct date.
    + by rewrite free_of_app, Hdate.
  - intros text HT Hdot. unfold stamp. cbn [timestamp ret fst].
    assert (Hsame : replace_first "T" " " text = text).
    { clear Hdot. induction text as [|c text IH]; simpl in *; [done|].
      apply andb_prop in HT as [Hc HT]. apply negb_true_iff in Hc.
      by rewrite Hc, IH. }
    rewrite Hsame, before_first_free by done.
    unfold or_else. by destruct text.
  - intros v Hv. by destruct v.
Qed.

(** The theorem at the date of the sample appointment. *)
Lemma timestamp_normalises_witness :
  stamp "created" (VStr "2024-03-01T09:15:27.123456Z")
  = Returned (VStr "2024-03-01 09:15:27").
Proof.
  exact (proj1 (timestamp_normalises "created") "2024-03-01" "09:15:27" "123456Z"
               eq_refl eq_refl eq_refl).
Defined.

Lemma lookup_field_assign_other key k v fields :
  k <> key -> lookup_field key (assign k v fields) = lookup_field key fields.
Proof.
  intros Hne. induction fields as [|[k' x] rest IH]; simpl.
  - by destruct (String.eqb_spec k key).
  - destruct (String.eqb_spec k' k) as [->|Hk]; simpl.
    + by destruct (String.eqb_spec k key).
    + destruct (String.eqb_spec k' key); [done|apply IH].
Qed.

Lemma patient_mapping_fold key dbPatients : forall patientMapping,
  prop key
    (fold_left
       (fun patientMapping patient =>
          if truthy (prop "old_id" patient)
          then assign (toString (prop "old_id" patient)) (prop "id_paciente" patient)
                      patientMapping
          else patientMapping)
       dbPatients patientMapping)
  = match last_patient key dbPatients with
    | Some patient => prop "id_paciente" patient
    | None => prop key patientMapping
    end.
Proof.
  unfold last_patient.
  induction dbPatients as [|patient dbPatients IH]; intros patientMapping; [done|].
  cbn [fold_left List.filter]. rewrite IH.
  destruct (truthy (prop "old_id" patient)) eqn:Hgiven; cbn [andb].
  - destruct (String.eqb_spec (toString (prop "old_id" patient)) key) as [Hkey|Hkey].
    + rewrite last_cons.
      destruct (last (List.filter _ dbPatients)); [done|].
      unfold prop at 1. by rewrite <- Hkey, lookup_field_assign.
    + destruct (last (List.filter _ dbPatients)); [done|].
      unfold prop at 1 3. by rewrite lookup_field_assign_other.
  - done.
Qed.

(** X26: the patient mapping built from the rows of the store gives, for an
    identifier of the source, the [id_paciente] of the last row whose [old_id]
    reads as that identifier; rows without an [old_id] (or with 0 or the
    empty text) are passed over, and an identifier no row gives is not
    mapped. *)
Theorem patient_mapping_last_wins dbPatients key :
  prop key (patient_mapping dbPatients)
  = match last_patient key dbPatients with
    | Some patient => prop "id_paciente" patient
    | None => VUndef
    end.
Proof. unfold patient_mapping. by rewrite patient_mapping_fold. Qed.

Lemma lookup_field_omit names key fields :
  lookup_field key (omit names fields)
  = if existsb (String.eqb key) names then None else lookup_field key fields.
Proof.
  unfold omit. induction fields as [|[k x] rest IH]; simpl.
  - by destruct (existsb (String.eqb key) names).
  - destruct (String.eqb_spec k key) as [->|Hne].
    + destruct (existsb (String.eqb key) names) eqn:Hnames; simpl.
      * by rewrite IH.
      * by rewrite String.eqb_refl.
    + destruct (existsb (String.eqb k) names); simpl; [done|].
      by destruct (String.eqb_spec k key).
Qed.

(** X27: the record a secondary appointment is stored as refers to the key
    the re-query gave for its appointment, or to nothing when it gave none
    (or gave 0): the waiting mark never reaches the store.  The two marker
    members are gone, and every other member keeps its value. *)
Theorem clean_secondary_links primaryIdMapping apt :
  prop "id_cita_reference" (clean_secondary primaryIdMapping apt)
  = or_else (prop (toString (prop "_originalId" apt)) primaryIdMapping) VNull
  /\ lookup_field "_isPrimary" (clean_secondary primaryIdMapping apt) = None
  /\ lookup_field "_originalId" (clean_secondary primaryIdMapping apt) = None
  /\ (forall key,
        key <> "id_cita_reference" -> key <> "_isPrimary" -> key <> "_originalId" ->
        lookup_field key (clean_secondary primaryIdMapping apt)
        = lookup_field key apt).
Proof.
  unfold clean_secondary. split; [|split; [|split]].
  - unfold prop at 1. by rewrite lookup_field_assign.
  - by rewrite lookup_field_assign_other, lookup_field_omit.
  - by rewrite lookup_field_assign_other, lookup_field_omit.
  - intros key H1 H2 H3.
    rewrite lookup_field_assign_other, lookup_field_omit by done. simpl.
    destruct (String.eqb_spec key "_isPrimary"); [done|].
    destruct (String.eqb_spec key "_originalId"); [done|].
    by destruct (String.eqb_spec key "id_cita_reference").
Qed.

(* ===================================================================== *)
(** ** migrations/koibox/citas.js: loading the records of a page *)






Lemma same_value_eq a b :
  primitive a -> primitive b -> same_value a b = true <-> a = b.
Proof.
  destruct a as [| |x|x|x|x|x], b as [| |y|y|y|y|y]; simpl; try done.
  - intros _ _. rewrite Bool.eqb_true_iff. split; congruence.
  - intros _ _. rewrite Z.eqb_eq. split; congruence.
  - intros _ _. rewrite String.eqb_eq. split; congruence.
Qed.

Lemma seen_primitive x seen :
  primitive x -> Forall primitive seen ->
  existsb (same_value x) seen = true <-> x ∈ seen.
Proof.
  intros Hx Hseen. rewrite existsb_exists. split.
  - intros (y & Hy & Hsame). apply list_elem_of_In in Hy.
    rewrite Forall_forall in Hseen.
    apply same_value_eq in Hsame; [by subst|done|by apply Hseen].
  - intros Hin. exists x. split; [by apply list_elem_of_In|].
    by apply same_value_eq.
Qed.

Lemma unique_from_first items : forall seen,
  Forall primitive seen -> Forall primitive items ->
  NoDup (unique_from seen items)
  /\ forall x, x ∈ unique_from seen items <-> x ∈ items /\ x ∉ seen.
Proof.
  induction items as [|item items IH]; intros seen Hseen Hitems; simpl.
  - split; [constructor|]. intros x. split; [by intros ?%elem_of_nil|].
    by intros [?%elem_of_nil _].
  - apply Forall_cons in Hitems as [Hitem Hitems].
    pose proof (seen_primitive item seen Hitem Hseen) as Hin.
    destruct (existsb (same_value item) seen) eqn:Hfound.
    + destruct (IH seen Hseen Hitems) as [Hnd Hiff]. split; [done|].
      intros x. rewrite Hiff, elem_of_cons. split; [by intros [? ?]; auto|].
      intros [[->|Hx] Hnot]; [|done]. destruct Hnot. by apply Hin.
    + assert (Hnew : item ∉ seen) by (intros Hi; apply Hin in Hi; congruence).
      destruct (IH (seen ++ [item])) as [Hnd Hiff].
      { apply Forall_app. split; [done|]. by apply Forall_singleton. }
      { done. }
      split.
      * constructor; [|done]. rewrite Hiff. intros [_ Hnot]. apply Hnot.
        apply elem_of_app. right. by apply list_elem_of_singleton.
      * intros x. rewrite !elem_of_cons, Hiff, elem_of_app, list_elem_of_singleton.
        split.
        -- intros [->|[Hx Hnot]]; [by auto|]. split; [by right|]. auto.
        -- intros [[->|Hx] Hnot]; [by left|].
           assert (Hprim : primitive x).
           { rewrite Forall_forall in Hitems. by apply Hitems. }
           pose proof (same_value_eq x item Hprim Hitem) as Hsame.
           destruct (same_value x item); [left; by apply Hsame|].
           right. split; [done|]. intros [?|Heq]; [done|].
           apply Hsame in Heq. done.
Qed.

(** X29: the identifiers the re-query asks for: each identifier of a
    secondary record exactly once, whatever the number of records that carry
    it. *)
Theorem unique_identifiers items :
  Forall primitive items ->
  NoDup (unique items)
  /\ (forall x, x ∈ unique items <-> x ∈ items)
  /\ length (unique items) <= length items.
Proof.
  intros Hitems. unfold unique.
  destruct (unique_from_first items [] (Forall_nil_2 _) Hitems) as [Hnd Hiff].
  split; [done|]. split.
  - intros x. rewrite Hiff. split; [by intros [? _]|].
    intros Hx. split; [done|]. by intros ?%elem_of_nil.
  - apply submseteq_length, NoDup_submseteq; [done|].
    intros x Hx. by apply Hiff in Hx as [? _].
Qed.

(** The theorem at the identifiers of three records of two appointments. *)
Lemma unique_identifiers_witness :
  NoDup (unique [VNum 7; VNum 9; VNum 7]) /\ length (unique [VNum 7; VNum 9; VNum 7]) <= 3.
Proof.
  destruct (unique_identifiers [VNum 7; VNum 9; VNum 7]) as (Hnd & _ & Hlength).
  - by repeat constructor.
  - split; [exact Hnd | exact Hlength].
Defined.

(* ===================================================================== *)
(** ** The error handler *)

Section errors.
Import ErrorMiddleware.

(** X30: the error handler throws exactly when the error is not the JSON
    syntax error of the body parser and carries a [code] that is truthy but
    not a text; otherwise it answers, always with [success: false].  Outside
    development no answer carries the stack or the details of the error.  An
    error whose code starts with [ER_] is answered with status 500 as a
    database error, whatever [status] it carries. *)
Theorem errorHandler_answers development err :
  ((exists e, errorHandler development err = Thrown e)
   <-> json_failure err = false /\ truthy (err_code err) = true
       /\ is_text (err_code err) = false)
  /\ (forall a,
        errorHandler development err = Returned a ->
        prop "success" (answer_payload a) = VBool false
        /\ (development = false ->
            prop "details" (answer_payload a) = VUndef
            /\ prop "stack" (answer_payload a) = VUndef))
  /\ (forall code,
        json_failure err = false -> err_code err = VStr ("ER_" +:+ code) ->
        exists payload,
          errorHandler development err = Returned (Answer (VNum 500) payload)
          /\ prop "error" payload = VStr "DATABASE_ERROR").
Proof.
  unfold errorHandler, json_failure. split; [|split].
  - destruct (isSyntaxError err && is_number_value (err_status err) 400
              && hasBody err).
    { split; [by intros [e ?]|by intros [? _]]. }
    destruct (err_code err) as [| |b|z|code|items|fields]; simpl.
    + destruct (truthy (isAxiosError err));
        (split; [by intros [e ?]|by intros (_ & ? & ?)]).
    + destruct (truthy (isAxiosError err));
        (split; [by intros [e ?]|by intros (_ & ? & ?)]).
    + destruct b; simpl.
      * split; [done|]. intros _. by eexists.
      * destruct (truthy (isAxiosError err));
          (split; [by intros [e ?]|by intros (_ & ? & ?)]).
    + destruct (Z.eqb z 0); simpl.
      * destruct (truthy (isAxiosError err));
          (split; [by intros [e ?]|by intros (_ & ? & ?)]).
      * split; [done|]. intros _. by eexists.
    + destruct (String.eqb code ""); simpl;
        [|destruct (String.prefix "ER_" code)];
        try destruct (truthy (isAxiosError err));
        (split; [by intros [e ?]|by intros (_ & ? & ?)]).
    + split; [done|]. intros _. by eexists.
    + split; [done|]. intros _. by eexists.
  - intros a.
    destruct (isSyntaxError err && is_number_value (err_status err) 400
              && hasBody err).
    { by intros [= <-]. }
    destruct (if truthy (err_code err) then code_startsWith (err_code err) "ER_"
              else Returned false) as [[|]|e]; [| |done].
    + intros [= <-]. split; [done|]. by intros ->.
    + destruct (truthy (isAxiosError err)); intros [= <-];
        (split; [done|]; by intros ->).
  - intros code -> ->.
    assert (truthy (VStr ("ER_" +:+ code)) = true) as -> by done.
    unfold code_startsWith. rewrite prefix_app. by eexists.
Qed.

(** The theorem at a duplicate-entry error of the store. *)
Lemma errorHandler_answers_witness :
  exists payload,
    errorHandler false store_failure = Returned (Answer (VNum 500) payload)
    /\ prop "error" payload = VStr "DATABASE_ERROR".
Proof.
  exact (proj2 (proj2 (errorHandler_answers false store_failure))
               "DUP_ENTRY" eq_refl eq_refl).
Defined.

End errors.
